(** * Density-learning tutorials: the lazy mesh grid and the cube-writing glue

  A shallow embedding of the Python code of the tutorial notebooks
  (03 DeepDFT notebook: [LazyMeshGrid], [load_molecule], [ceil_float], the
  loops that build the two data sets, the two cube-generation loops,
  [process_arbitrary_coordinates] and the AIM analysis of the dimers;
  02 A3MDnet notebook: [has_not_allowed_atoms], the embedding loop and
  the loops that write the molecules to files).

  Floating-point numbers are modelled by exact rationals [Q], and the
  module [binary64] has the numeric code of [ceil_float] and of the grid
  vectors on binary64 numbers, where rounding changes what they return;
  numpy arrays are a shape with row-major flat data; Python objects live in a
  heap addressed by references, and the code runs in a state-and-exception
  monad over that heap and a trace of calls to external collaborators.
  The loops that only write files run on a file system that maps paths
  to contents, and the pandas tables of the AIM analysis are lists of
  rows. *)

From Stdlib Require Import QArith Qround Qabs ZArith List Lia String Ascii Bool Qminmax.
From Stdlib Require Import Decimal DecimalString DecimalNat.
From Stdlib Require Import Floats.PrimFloat Floats.SpecFloat Floats.FloatOps.
From stdpp Require Import base option list strings gmap sorting.
Import ListNotations.

Local Open Scope Q_scope.

(** ** Python exceptions raised by the modelled code *)

Inductive PyExn : Type :=
| NotImplementedError
| IndexError
| ZeroDivisionError
| ValueError
| TypeError
| AttributeError
| OSError
| OverflowError.

Inductive result (A : Type) : Type :=
| Ok (a : A)
| Raise (e : PyExn).

Arguments Ok {A} a.
Arguments Raise {A} e.

(** ** Data *)

Definition ref : Type := nat.

Definition vec3 : Type := (Q * Q * Q)%type.

Definition vec3_list (v : vec3) : list Q :=
  let '(x, y, z) := v in [x; y; z].

(** A numpy array: its shape and its elements in row-major order. *)
Record ndarray (A : Type) : Type := NdArray {
  arr_shape : list nat;
  arr_data : list A
}.

Arguments NdArray {A} arr_shape arr_data.
Arguments arr_shape {A} n.
Arguments arr_data {A} n.

(** An [ase.cell.Cell]: the three cell vectors (the rows of the 3x3 cell
    matrix) together with the value of [Cell.lengths()], the Euclidean norm
    of each row.  Norms are irrational in general, so the embedding carries
    them next to the matrix; [Cell_ok] relates the two. *)
Record Cell : Type := mkCell {
  cell_rows : vec3 * vec3 * vec3;
  cell_lengths : vec3
}.

Definition norm_of (l : Q) (v : vec3) : Prop :=
  let '(x, y, z) := v in 0 <= l /\ l * l == x * x + y * y + z * z.

Definition Cell_ok (c : Cell) : Prop :=
  let '(a, b, c') := cell_rows c in
  let '(la, lb, lc) := cell_lengths c in
  norm_of la a /\ norm_of lb b /\ norm_of lc c'.

(** [Cell.lengths()] *)
Definition lengths (c : Cell) : list Q := vec3_list (cell_lengths c).

(** [Cell.__array__()]: the 3x3 matrix handed to numpy. *)
Definition Cell_array (c : Cell) : ndarray Q :=
  let '(a, b, c') := cell_rows c in
  NdArray [3; 3]%nat (vec3_list a ++ vec3_list b ++ vec3_list c').

(** The attributes of a [LazyMeshGrid] instance, each a reference. *)
Record LazyMeshGrid : Type := mkLazyMeshGrid {
  cell : ref;
  scaled_grid_vectors : ref;
  shape : ref;
  origin : ref
}.

(** An [ase.Atoms] object, as far as the notebooks look at it. *)
Record Atoms : Type := mkAtoms {
  symbols : list string;
  positions : list vec3;
  atoms_cell : Cell
}.

Inductive pyobj : Type :=
| FloatArray (a : ndarray Q)
| IntArray (a : ndarray Z)
| CellObj (c : Cell)
| PyList (items : list ref)
| Instance (o : LazyMeshGrid).

(** Calls to the external collaborators that touch the outside world. *)
Inductive event : Type :=
| EvPrint (s : string)
| EvCubeWriter (path : string) (atoms : Atoms) (data_shape : list Z)
               (origin_ : list Q) (comment : string)
| EvWrite (path : string) (values : list Q)
| EvAseWrite (path : string) (atoms : Atoms).

Record world : Type := World {
  heap : list pyobj;
  trace : list event
}.

(** ** The state-and-exception monad *)

Definition M (A : Type) : Type := world -> result A * world.

Definition ret {A : Type} (a : A) : M A := fun w => (Ok a, w).

Definition bind {A B : Type} (m : M A) (k : A -> M B) : M B :=
  fun w => match m w with
           | (Ok a, w') => k a w'
           | (Raise e, w') => (Raise e, w')
           end.

Definition raise {A : Type} (e : PyExn) : M A := fun w => (Raise e, w).

#[global] Instance M_ret : MRet M := @ret.
#[global] Instance M_bind : MBind M := fun A B k m => bind m k.

Definition alloc (o : pyobj) : M ref :=
  fun w => (Ok (length (heap w)), World (heap w ++ [o]) (trace w)).

(** A dangling reference cannot arise in Python; the model answers it with
    [TypeError] to stay total. *)
Definition load (r : ref) : M pyobj :=
  fun w => match heap w !! r with
           | Some o => (Ok o, w)
           | None => (Raise TypeError, w)
           end.

Definition store (r : ref) (o : pyobj) : M unit :=
  fun w => (Ok tt, World (<[r := o]> (heap w)) (trace w)).

Definition emit (e : event) : M unit :=
  fun w => (Ok tt, World (heap w) (trace w ++ [e])).

(** numpy upcasts an integer array that meets a float array. *)
Definition as_float (o : pyobj) : option (ndarray Q) :=
  match o with
  | FloatArray a => Some a
  | IntArray a => Some (NdArray (arr_shape a) (map inject_Z (arr_data a)))
  | CellObj c => Some (Cell_array c)
  | _ => None
  end.

Definition load_float (r : ref) : M (ndarray Q) :=
  o ← load r;
  match as_float o with
  | Some a => mret a
  | None => raise TypeError
  end.

Definition load_int (r : ref) : M (ndarray Z) :=
  o ← load r;
  match o with
  | IntArray a => mret a
  | _ => raise TypeError
  end.

Definition load_list (r : ref) : M (list ref) :=
  o ← load r;
  match o with
  | PyList l => mret l
  | _ => raise TypeError
  end.

Definition load_cell (r : ref) : M Cell :=
  o ← load r;
  match o with
  | CellObj c => mret c
  | _ => raise TypeError
  end.

Definition load_instance (r : ref) : M LazyMeshGrid :=
  o ← load r;
  match o with
  | Instance g => mret g
  | _ => raise TypeError
  end.

(** A pure computation that may raise, run inside [M]. *)
Definition lift {A : Type} (r : result A) : M A := fun w => (r, w).

(** [for x in xs: body], for its effects. *)
Fixpoint for_each {A : Type} (xs : list A) (body : A -> M unit) : M unit :=
  match xs with
  | [] => mret tt
  | x :: xs' => body x;; for_each xs' body
  end.

(** [for x in xs: state = body(state, x)] *)
Fixpoint for_fold {A S : Type} (xs : list A) (body : S -> A -> M S) (s : S) : M S :=
  match xs with
  | [] => mret s
  | x :: xs' => s' ← body s x; for_fold xs' body s'
  end.

(** ** numpy, as far as the notebooks use it *)

Module np.

(** The number of elements of [np.arange(start, stop, step)]:
    [ceil((stop - start) / step)], or none when that is not positive.
    This is the count in exact arithmetic; numpy takes the ceiling of the
    rounded quotient, see [binary64.arange_len]. *)
Definition arange_len (start stop step : Q) : nat :=
  Z.to_nat (Qceiling ((stop - start) / step)).

Definition arange_data (start stop step : Q) : list Q :=
  map (fun i : nat => start + inject_Z (Z.of_nat i) * step)
      (seq 0 (arange_len start stop step)).

(** [np.arange(start, stop, step)].  A zero step raises [ValueError]
    while the length is computed: the quotient [(stop - start)/step] is
    inf or nan, and numpy refuses it as a length. *)
Definition arange (start stop step : Q) : M ref :=
  if Qeq_bool step 0 then raise ValueError
  else alloc (FloatArray (NdArray [arange_len start stop step]
                                  (arange_data start stop step))).

(** [a / l] for an array [a] and a scalar [l]: a new array.  (On floats a
    zero [l] gives inf or nan without raising; [Qdiv] gives 0.  The grid
    constructor only ever divides an empty array by zero, see
    [arange_zero_stop].) *)
Definition true_divide (a : ref) (l : Q) : M ref :=
  x ← load_float a;
  alloc (FloatArray (NdArray (arr_shape x)
                             (map (fun v => v / l) (arr_data x)))).

(** [len(a)] for an array: its first dimension. *)
Definition len (a : ref) : M Z :=
  o ← load a;
  match o with
  | FloatArray x =>
      match arr_shape x with
      | n :: _ => mret (Z.of_nat n)
      | [] => raise TypeError
      end
  | IntArray x =>
      match arr_shape x with
      | n :: _ => mret (Z.of_nat n)
      | [] => raise TypeError
      end
  | PyList l => mret (Z.of_nat (length l))
  | _ => raise TypeError
  end.

(** [np.array(l)] for a list of integers. *)
Definition array_of_ints (l : list Z) : M ref :=
  alloc (IntArray (NdArray [length l] l)).

(** [np.array(a)] for an integer array-like [a]: a fresh copy. *)
Definition array (a : ndarray Z) : M ref :=
  alloc (IntArray a).

(** [np.zeros(n)] *)
Definition zeros (n : nat) : M ref :=
  alloc (FloatArray (NdArray [n] (repeat 0 n))).

(** [np.expand_dims(a, 0)].  numpy returns a view that shares [a]'s
    buffer; no modelled code writes through either, so the model
    allocates an array with the same elements. *)
Definition expand_dims0 (a : ref) : M ref :=
  o ← load a;
  match o with
  | FloatArray x => alloc (FloatArray (NdArray (1%nat :: arr_shape x) (arr_data x)))
  | IntArray x => alloc (IntArray (NdArray (1%nat :: arr_shape x) (arr_data x)))
  | _ => raise TypeError
  end.

(** [a[i]] for a two-dimensional integer array: row [i]. *)
Definition row (a : ref) (i : nat) : M (list Z) :=
  x ← load_int a;
  match arr_shape x with
  | [n; m] =>
      if (i <? n)%nat then mret (take m (drop (i * m) (arr_data x)))
      else raise IndexError
  | _ => raise IndexError
  end.

(** An integer index into an axis of [n] elements: negative indices
    count from the end, anything outside [-n, n) is out of bounds. *)
Definition norm_index (n : nat) (i : Z) : option nat :=
  if (0 <=? i)%Z && (i <? Z.of_nat n)%Z then Some (Z.to_nat i)
  else if (- Z.of_nat n <=? i)%Z && (i <? 0)%Z then Some (Z.to_nat (Z.of_nat n + i))
  else None.

Definition index1 (v : list Q) (i : Z) : option Q :=
  k ← norm_index (length v) i; v !! k.

(** [v[idx]] for a one-dimensional array [v] (the grid vectors are built
    by [arange]) and an integer index array [idx]: a new array, or
    [IndexError] when some index is out of bounds. *)
Definition fancy_index (v : ref) (idx : list Z) : M ref :=
  x ← load_float v;
  match arr_shape x with
  | [_] =>
      match mapM (index1 (arr_data x)) idx with
      | Some l => alloc (FloatArray (NdArray [length idx] l))
      | None => raise IndexError
      end
  | _ => raise IndexError
  end.

Fixpoint interleave3 (a b c : list Q) : list Q :=
  match a, b, c with
  | x :: a', y :: b', z :: c' => x :: y :: z :: interleave3 a' b' c'
  | _, _, _ => []
  end.

(** [np.stack([a, b, c], 1)] for three one-dimensional arrays. *)
Definition stack3_axis1 (a b c : ref) : M ref :=
  x ← load_float a;
  y ← load_float b;
  z ← load_float c;
  match arr_shape x, arr_shape y, arr_shape z with
  | [n], [n1], [n2] =>
      if (n =? n1)%nat && (n =? n2)%nat
      then alloc (FloatArray (NdArray [n; 3%nat]
                    (interleave3 (arr_data x) (arr_data y) (arr_data z))))
      else raise ValueError
  | _, _, _ => raise ValueError
  end.

Definition Qsum (l : list Q) : Q := fold_left Qplus l 0.

(** Row [r] of the product of an [_ x k] and a [k x m] matrix. *)
Definition dot_row (k m : nat) (a b : list Q) (r : nat) : list Q :=
  map (fun c : nat =>
         Qsum (map (fun t : nat => nth (r * k + t) a 0 * nth (t * m + c) b 0)
                   (seq 0 k)))
      (seq 0 m).

Definition matmul (n k m : nat) (a b : list Q) : list Q :=
  flat_map (dot_row k m a b) (seq 0 n).

(** [np.dot(a, b)] for two-dimensional operands. *)
Definition dot (a b : ref) : M ref :=
  x ← load_float a;
  y ← load_float b;
  match arr_shape x, arr_shape y with
  | [n; k], [k'; m] =>
      if (k =? k')%nat
      then alloc (FloatArray (NdArray [n; m] (matmul n k m (arr_data x) (arr_data y))))
      else raise ValueError
  | _, _ => raise ValueError
  end.

(** Broadcasting [b] against a two-dimensional target of shape
    [n; m]: [b]'s shape, right-aligned, must be 1 or equal on each
    axis. *)
Definition broadcast2 (n m : nat) (s : list nat) : option (nat * nat) :=
  let ok (d d' : nat) := (d' =? 1)%nat || (d' =? d)%nat in
  match s with
  | [] => Some (1, 1)%nat
  | [m'] => if ok m m' then Some (1%nat, m') else None
  | [n'; m'] => if ok n n' && ok m m' then Some (n', m') else None
  | _ => None
  end.

Definition iadd_data (n m n' m' : nat) (a b : list Q) : list Q :=
  flat_map (fun r : nat =>
    map (fun c : nat =>
           nth (r * m + c) a 0
           + nth ((if (n' =? 1)%nat then 0 else r) * m'
                  + (if (m' =? 1)%nat then 0 else c)) b 0)
        (seq 0 m))
    (seq 0 n).

(** [a += b] for a two-dimensional float array [a]: [a] is updated in
    place. *)
Definition iadd (a b : ref) : M unit :=
  o ← load a;
  y ← load_float b;
  match o with
  | FloatArray x =>
      match arr_shape x with
      | [n; m] =>
          match broadcast2 n m (arr_shape y) with
          | Some (n', m') =>
              store a (FloatArray (NdArray [n; m]
                         (iadd_data n m n' m' (arr_data x) (arr_data y))))
          | None => raise ValueError
          end
      | _ => raise ValueError
      end
  | _ => raise TypeError
  end.

(** [np.concatenate(l, axis=0)]: the arrays must have the same number of
    dimensions, at least one, and agree on all but the first. *)
Definition concatenate {A : Type} (l : list (ndarray A)) : result (ndarray A) :=
  match l with
  | [] => Raise ValueError
  | a :: _ =>
      match arr_shape a with
      | [] => Raise ValueError
      | _ :: tl =>
          if forallb (fun b => match arr_shape b with
                               | [] => false
                               | _ :: tl' => bool_decide (tl' = tl)
                               end) l
          then Ok (NdArray (sum_list (map (fun b => hd 0%nat (arr_shape b)) l) :: tl)
                           (concat (map arr_data l)))
          else Raise ValueError
      end
  end.

(** [a[:, None]] *)
Definition newaxis1 {A : Type} (a : ndarray A) : result (ndarray A) :=
  match arr_shape a with
  | [] => Raise IndexError
  | n :: tl => Ok (NdArray (n :: 1%nat :: tl) (arr_data a))
  end.

(** [a.shape[0]] *)
Definition shape0 {A : Type} (a : ndarray A) : result nat :=
  match arr_shape a with
  | [] => Raise IndexError
  | n :: _ => Ok n
  end.

End np.

(** ** [ceil_float] *)

(** [ceil_float(x, step_size)]: [math.ceil(x/step_size) * step_size], in
    exact arithmetic; [binary64.ceil_float] below is the same function on
    binary64 numbers.  [x] is a NumPy scalar in the one call of the
    function, so a zero [step_size] does not raise at the division: the
    quotient is inf, or nan for a zero [x], and [math.ceil] raises
    [OverflowError] or [ValueError]. *)
Definition ceil_float (x step_size : Q) : result Q :=
  if Qeq_bool step_size 0
  then Raise (if Qeq_bool x 0 then ValueError else OverflowError)
  else Ok (inject_Z (Qceiling (x / step_size)) * step_size).

(** ** Binary64 numbers: [ceil_float] and [np.arange] as they run *)

(** The functions above compute on rationals.  The notebook runs them on
    binary64 floating-point numbers, where every quotient and product is
    rounded; this module has the numeric code of [ceil_float] and of the
    grid vectors of [LazyMeshGrid.__init__] over Rocq's primitive binary64
    numbers. *)
Module binary64.

(** The exact value of a finite number (0 for an infinity or a nan). *)
Definition to_Q (x : float) : Q :=
  match Prim2SF x with
  | S754_finite s m e =>
      let n := if s then Z.neg m else Z.pos m in
      if (0 <=? e)%Z then inject_Z (n * 2 ^ e) else Qmake n (Z.to_pos (2 ^ (- e)))
  | _ => 0
  end.

(** [math.ceil(x)]: a Python integer; [OverflowError] for an infinity,
    [ValueError] for a nan. *)
Definition ceil (x : float) : result Z :=
  match Prim2SF x with
  | S754_zero _ => Ok 0%Z
  | S754_infinity _ => Raise OverflowError
  | S754_nan => Raise ValueError
  | S754_finite s m e =>
      let n := if s then Z.neg m else Z.pos m in
      Ok (if (0 <=? e)%Z then n * 2 ^ e else - ((- n) / 2 ^ (- e)))%Z
  end.

(** The float of a Python integer, as [k * step_size] converts [k]:
    rounded to the nearest number, [OverflowError] beyond the range. *)
Definition of_int (k : Z) : result float :=
  let f := SF2Prim (binary_normalize prec emax k 0 false) in
  if is_infinity f then Raise OverflowError else Ok f.

(** [ceil_float(x, step_size)] for a NumPy scalar [x], as [load_molecule]
    calls it: the division does not raise. *)
Definition ceil_float (x step_size : float) : result float :=
  match ceil (x / step_size) with
  | Ok k =>
      match of_int k with
      | Ok k => Ok (k * step_size)%float
      | Raise e => Raise e
      end
  | Raise e => Raise e
  end.

(** The number of elements of [np.arange(start, stop, step)]: the ceiling
    of the rounded quotient [(stop - start)/step], none when that is not
    positive; numpy raises [ValueError] when the quotient is a nan or
    beyond the range of an index. *)
Definition arange_len (start stop step : float) : result nat :=
  match ceil ((stop - start) / step) with
  | Ok k => if (2 ^ 63 <=? k)%Z || (k <? - 2 ^ 63)%Z then Raise ValueError
            else Ok (Z.to_nat k)
  | Raise _ => Raise ValueError
  end.

(** An array index as a binary64 number. *)
Definition of_index (i : nat) : float :=
  SF2Prim (binary_normalize prec emax (Z.of_nat i) 0 false).

(** [np.arange(start, stop, step)]: element [i] is [start + i * delta],
    where [delta] is the difference of the first two elements, [start]
    and [start + step]. *)
Definition arange (start stop step : float) : result (list float) :=
  match arange_len start stop step with
  | Ok n =>
      let delta := (start + step - start)%float in
      Ok (map (fun i : nat =>
                 match i with
                 | O => start
                 | 1%nat => (start + step)%float
                 | _ => (start + of_index i * delta)%float
                 end)
              (seq 0 n))
  | Raise e => Raise e
  end.

(** A scaled grid vector of the constructor: [np.arange(0, l, grid_step)/l]. *)
Definition grid_vector (l grid_step : float) : result (list float) :=
  match arange 0 l grid_step with
  | Ok a => Ok (map (fun v => (v / l)%float) a)
  | Raise e => Raise e
  end.

End binary64.

(** ** [class LazyMeshGrid] *)

(** [LazyMeshGrid(cell, grid_step, origin=None)]: runs [__init__] and
    returns the new instance. *)
Definition LazyMeshGrid_init (cell_ : ref) (grid_step : Q) (origin_ : option ref)
  : M ref :=
  c ← load_cell cell_;
  vectors ← mapM (fun l => g ← np.arange 0 l grid_step; np.true_divide g l)
                 (lengths c);
  sgv ← alloc (PyList vectors);
  gs ← load_list sgv;
  lens ← mapM np.len gs;
  shape_ ← np.array_of_ints (lens ++ [3%Z]);
  o ← match origin_ with
      | None => np.zeros 3
      | Some o => mret o
      end;
  o' ← np.expand_dims0 o;
  alloc (Instance {| cell := cell_; scaled_grid_vectors := sgv;
                     shape := shape_; origin := o' |}).

(** [self.scaled_grid_vectors[i]] *)
Definition grid_vector (self : ref) (i : nat) : M ref :=
  g ← load_instance self;
  l ← load_list (scaled_grid_vectors g);
  match l !! i with
  | Some v => mret v
  | None => raise IndexError
  end.

(** [LazyMeshGrid.__getitem__(self, indices)] *)
Definition LazyMeshGrid_getitem (self : ref) (indices : ndarray Z) : M ref :=
  indices' ← np.array indices;
  let indices_shape := arr_shape indices in
  if negb ((length indices_shape =? 2)%nat && (nth 0 indices_shape 0%nat =? 3)%nat)
  then raise NotImplementedError
  else
    v0 ← grid_vector self 0; i0 ← np.row indices' 0; gridA ← np.fancy_index v0 i0;
    v1 ← grid_vector self 1; i1 ← np.row indices' 1; gridB ← np.fancy_index v1 i1;
    v2 ← grid_vector self 2; i2 ← np.row indices' 2; gridC ← np.fancy_index v2 i2;
    grid_pos ← np.stack3_axis1 gridA gridB gridC;
    g ← load_instance self;
    grid_pos ← np.dot grid_pos (cell g);
    g ← load_instance self;
    np.iadd grid_pos (origin g);;
    mret grid_pos.

(** ** [load_molecule] *)

(** The dictionary [load_molecule] returns. *)
Record MoleculeDict : Type := mkMoleculeDict {
  md_atoms : Atoms;
  md_origin : ref;
  md_grid_position : ref;
  md_metadata : string;
  md_diff : vec3
}.

(** [xs.max() - xs.min()]; numpy raises [ValueError] on an empty array. *)
Definition extent (xs : list Q) : result Q :=
  match xs with
  | [] => Raise ValueError
  | x :: xs' => Ok (fold_left Qmax xs' x - fold_left Qmin xs' x)
  end.

(** [positions.max(0) - positions.min(0)] *)
Definition positions_extent (ps : list vec3) : result vec3 :=
  match extent (map (fun p : vec3 => p.1.1) ps),
        extent (map (fun p : vec3 => p.1.2) ps),
        extent (map (fun p : vec3 => p.2) ps) with
  | Ok x, Ok y, Ok z => Ok (x, y, z)
  | _, _, _ => Raise ValueError
  end.

(** [atoms.set_cell(cell)]: the positions stay as they are. *)
Definition set_cell (atoms : Atoms) (c : Cell) : Atoms :=
  mkAtoms (symbols atoms) (positions atoms) c.

Section LoadMolecule.

(** What [load_molecule] asks of ASE. *)

(** [ase.io.read(path)] *)
Variable ase_io_read : string -> result Atoms.
(** [atoms.center(vacuum=vacuum)] *)
Variable center : Q -> Atoms -> Atoms.
(** The angles of [atoms.get_cell_lengths_and_angles()]. *)
Variable cell_angles : Cell -> vec3.
(** The cell [atoms.set_cell([a, b, c, ang_bc, ang_ac, ang_ab])]
    builds from three lengths and three angles. *)
Variable cellpar_to_cell : vec3 -> vec3 -> Cell.

Definition load_molecule (atomspath : string) (vacuum grid_step : Q)
  : M MoleculeDict :=
  atoms ← lift (ase_io_read atomspath);
  diff ← lift (positions_extent (positions atoms));
  let atoms := center vacuum atoms in
  let '(a, b, c) := cell_lengths (atoms_cell atoms) in
  let angles := cell_angles (atoms_cell atoms) in
  a ← lift (ceil_float a grid_step);
  b ← lift (ceil_float b grid_step);
  c ← lift (ceil_float c grid_step);
  let atoms := set_cell atoms (cellpar_to_cell (a, b, c) angles) in
  origin_ ← np.zeros 3;
  cell_ ← alloc (CellObj (atoms_cell atoms));
  grid_pos ← LazyMeshGrid_init cell_ grid_step None;
  mret {| md_atoms := atoms; md_origin := origin_;
          md_grid_position := grid_pos; md_metadata := atomspath;
          md_diff := diff |}.

End LoadMolecule.

(** ** The cube-generation loops *)

(** [np.unravel_index(f, (nx, ny, nz))]: the index triple of the flat
    row-major index [f]. *)
Definition unravel_index (ny nz : nat) (f : nat) : nat * nat * nat :=
  (f / (ny * nz), (f / nz) mod ny, f mod nz)%nat.

(** The 3xN array [np.array(pos_icart)] of a list of index triples. *)
Definition index_array (l : list (nat * nat * nat)) : ndarray Z :=
  NdArray [3%nat; length l]
          (map (fun p => Z.of_nat p.1.1) l ++ map (fun p => Z.of_nat p.1.2) l
           ++ map (fun p => Z.of_nat p.2) l).

(** The flat indices of slice [slice_index]:
    [arange(slice_index*probe_count, min((slice_index+1)*probe_count, num_positions))]. *)
Definition slice_flat_indices (probe_count num_positions slice_index : nat)
  : list nat :=
  seq (slice_index * probe_count)
      (Nat.min ((slice_index + 1) * probe_count) num_positions
       - slice_index * probe_count).

(** [ceil(num_positions / probe_count)] *)
Definition num_slices (probe_count num_positions : nat) : nat :=
  ((num_positions + probe_count - 1) / probe_count)%nat.

(** [c * v] *)
Definition vec3_scale (c : Q) (v : vec3) : vec3 :=
  let '(x, y, z) := v in (c * x, c * y, c * z).

Definition bohr2ang : Q := 529177 # 1000000.
Definition bohr2angp3 : Q := bohr2ang * bohr2ang * bohr2ang.

Section CubeLoops.

(** The DeepDFT collaborators: graphs, the model, the file system. *)
Context {Graph ProbeGraph ProbeBatch Repr : Type}.
Variable collate_fn : list MoleculeDict -> Graph.
Variable atom_model : Graph -> Repr.
Variable probes_to_graph : Atoms -> ndarray Q -> Q -> ProbeGraph.
Variable collate_list_of_dicts : list ProbeGraph -> ProbeBatch.
Variable probe_model : Graph -> ProbeBatch -> Repr -> list Q.
Variable cutoff : Q.
(** Which paths can be opened for writing. *)
Variable writable : string -> bool.

(** Modelled from the spec: [utils.CubeWriter] of the deepdft package,
    which is not part of the sources.  "A writer that accepts a flat
    header (atom list, grid shape, origin, comment) followed by
    sequential appends of scalar values"; it "fails if the file path is
    not writable".  The writer is identified by its path. *)
Definition CubeWriter (path : string) (atoms : Atoms) (data_shape : list Z)
           (origin_ : ref) (comment : string) : M string :=
  o ← load_float origin_;
  if writable path
  then emit (EvCubeWriter path atoms data_shape (arr_data o) comment);; mret path
  else raise OSError.

Definition CubeWriter_write (cubewriter : string) (values : list Q) : M unit :=
  emit (EvWrite cubewriter values).

(** [density_dict["grid_position"].shape[0:3]] *)
Definition grid_shape3 (density_dict : MoleculeDict) : M (list Z) :=
  g ← load_instance (md_grid_position density_dict);
  sh ← load_int (shape g);
  mret (take 3 (arr_data sh)).

(** Modelled from the spec: [dataset.DensityGridIterator] of the deepdft
    package, which is not part of the sources.  It walks the voxel grid
    "in row-major (x slowest, z fastest) order", [probe_count] points at
    a time, and turns the positions [grid_position[indices]] of each
    slice into a probe graph.  [DensityGridIterator_slices] is the range
    of slices and [DensityGridIterator_next] computes one. *)
Definition DensityGridIterator_slices (density_dict : MoleculeDict)
           (probe_count : nat) : M (list nat) :=
  sh ← grid_shape3 density_dict;
  let num_positions := Z.to_nat (fold_right Z.mul 1%Z sh) in
  mret (seq 0 (num_slices probe_count num_positions)).

Definition DensityGridIterator_next (density_dict : MoleculeDict)
           (probe_count : nat) (cutoff_ : Q) (slice_index : nat)
  : M ProbeGraph :=
  sh ← grid_shape3 density_dict;
  let num_positions := Z.to_nat (fold_right Z.mul 1%Z sh) in
  let ny := Z.to_nat (nth 1 sh 0%Z) in
  let nz := Z.to_nat (nth 2 sh 0%Z) in
  let flat_index := slice_flat_indices probe_count num_positions slice_index in
  let pos_icart := index_array (map (unravel_index ny nz) flat_index) in
  r ← LazyMeshGrid_getitem (md_grid_position density_dict) pos_icart;
  probe_pos ← load_float r;
  mret (probes_to_graph (md_atoms density_dict) probe_pos cutoff_).

(** [device_batch]: the atom graph and, once set, the four probe entries
    ([probe_edges], [probe_edges_features], [num_probe_edges],
    [num_probes]). *)
Definition DeviceBatch : Type := (Graph * option ProbeBatch)%type.

(** The body of [for probe_graph_dict in density_iter], the same in both
    loops: it overwrites the probe entries of [device_batch] and appends
    the predicted densities, in atomic units. *)
Definition predict_slice (cubewriter : string) (atom_representation : Repr)
           (device_batch : DeviceBatch) (probe_graph_dict : ProbeGraph)
  : M DeviceBatch :=
  let probe_dict := collate_list_of_dicts [probe_graph_dict] in
  let device_batch := (device_batch.1, Some probe_dict) in
  CubeWriter_write cubewriter
    (map (Qmult bohr2angp3)
         (probe_model device_batch.1 probe_dict atom_representation));;
  mret device_batch.

(** [for probe_graph_dict in density_iter: ...], drawing each slice
    from the iterator as the loop reaches it. *)
Definition predict_slices (density_dict : MoleculeDict) (cubewriter : string)
           (atom_representation : Repr) (device_batch : DeviceBatch)
  : M DeviceBatch :=
  slices ← DensityGridIterator_slices density_dict 1000;
  for_fold slices
           (fun device_batch slice_index =>
              probe_graph_dict ←
                DensityGridIterator_next density_dict 1000 cutoff slice_index;
              predict_slice cubewriter atom_representation device_batch
                            probe_graph_dict)
           device_batch.

(** The body of the first loop, over the sugar molecules. *)
Definition sugbench_body (i : string) (density_dict : MoleculeDict) : M unit :=
  emit (EvPrint ("processing " ++ i));;
  let r := vec3_scale (- (1 # 2)) (md_diff density_dict) in
  sh ← grid_shape3 density_dict;
  cubewriter ← CubeWriter ("./cube/" ++ i ++ ".deepdft.cube")
                          (md_atoms density_dict) sh
                          (md_origin density_dict)
                          "predicted by DeepDFT model";
  let graph_dict := collate_fn [density_dict] in
  let device_batch : DeviceBatch := (graph_dict, None) in
  let atom_representation := atom_model device_batch.1 in
  predict_slices density_dict cubewriter atom_representation device_batch;;
  emit (EvAseWrite ("./cube/" ++ i ++ ".xyz") (md_atoms density_dict));;
  emit (EvPrint "-- DONE").

(** [for i, density_dict in sugbench: ...; break]: the loop leaves after
    its first molecule. *)
Definition sugbench_loop (sugbench : list (string * MoleculeDict)) : M unit :=
  match sugbench with
  | [] => mret tt
  | (i, density_dict) :: _ => sugbench_body i density_dict
  end.

(** The body of the second loop, over the dimers. *)
Definition dimer_body (i : string) (density_dict : MoleculeDict) : M unit :=
  emit (EvPrint ("processing " ++ i));;
  let r := vec3_scale (- (1 # 2)) (md_diff density_dict) in
  sh ← grid_shape3 density_dict;
  cubewriter ← CubeWriter ("./dimers/" ++ i ++ ".cube")
                          (md_atoms density_dict) sh
                          (md_origin density_dict)
                          "predicted by DeepDFT model";
  let graph_dict := collate_fn [density_dict] in
  let device_batch : DeviceBatch := (graph_dict, None) in
  let atom_representation := atom_model device_batch.1 in
  predict_slices density_dict cubewriter atom_representation device_batch;;
  emit (EvPrint "-- DONE").

Definition dimer_loop (dimer : list (string * MoleculeDict)) : M unit :=
  for_each dimer (fun '(i, density_dict) => dimer_body i density_dict).

End CubeLoops.

(** ** The A3MDnet notebook: filtering the molecules to embed *)

(** [x in l] for a list of strings. *)
Definition py_in (x : string) (l : list string) : bool :=
  existsb (String.eqb x) l.

(** [any(l)] *)
Definition any (l : list bool) : bool := existsb (fun b => b) l.

Section Embedding.

(** RDKit molecules and the RDKit functions the loop calls. *)
Context {Mol : Type}.
(** [[i.GetSymbol() for i in mol.GetAtoms()]] *)
Variable GetAtomSymbols : Mol -> list string.
Variable GetNumHeavyAtoms : Mol -> nat.
Variable AddHs : Mol -> Mol.
(** [AllChem.EmbedMolecule(u)] updates [u] in place. *)
Variable EmbedMolecule : Mol -> Mol.
(** [AllChem.MMFFOptimizeMolecule(u)] updates [u] in place or raises. *)
Variable MMFFOptimizeMolecule : Mol -> result Mol.

Definition has_not_allowed_atoms (mol : Mol) (allowed_elements : list string)
  : bool :=
  let symbols := GetAtomSymbols mol in
  if any (map (fun i => negb (py_in i allowed_elements)) allowed_elements)
  then true
  else false.

(** The embedding loop, started with the list [embed_mols] built so far.
    [Chem.MolFromSmiles] yields [None] for a line it cannot parse, and
    the first method call on [None] raises [AttributeError]. *)
Fixpoint embed_loop (smi : list (option Mol)) (embed_mols : list Mol)
  : result (list Mol) :=
  match smi with
  | [] => Ok embed_mols
  | None :: _ => Raise AttributeError
  | Some i :: smi' =>
      if (30 <? GetNumHeavyAtoms i)%nat then embed_loop smi' embed_mols
      else if has_not_allowed_atoms i ["C"; "H"; "N"; "O"]%string
           then embed_loop smi' embed_mols
           else
             let u := AddHs i in
             let u := EmbedMolecule u in
             match MMFFOptimizeMolecule u with
             | Raise ValueError => embed_loop smi' embed_mols
             | Raise e => Raise e
             | Ok u' => embed_loop smi' (embed_mols ++ [u'])
             end
  end.

End Embedding.

(** ** Python strings, as far as the notebooks use them *)

(** [s.split(sep)] for a one-character separator: the parts between the
    occurrences of [sep]; never an empty list. *)
Fixpoint split (sep : ascii) (s : string) : list string :=
  match s with
  | EmptyString => [EmptyString]
  | String c s' =>
      if Ascii.eqb c sep then EmptyString :: split sep s'
      else match split sep s' with
           | [] => [String c EmptyString]
           | p :: ps => String c p :: ps
           end
  end.

(** [l[-1]] *)
Definition getitem_last {A : Type} (l : list A) : result A :=
  match last l with
  | Some x => Ok x
  | None => Raise IndexError
  end.

(** [s.replace(old, new)] scans [s] from the left; [skip] counts the
    characters of a match still to be passed over. *)
Fixpoint replace_from (old new s : string) (skip : nat) : string :=
  match s with
  | EmptyString => EmptyString
  | String c s' =>
      match skip with
      | S k => replace_from old new s' k
      | O =>
          if String.prefix old s
          then (new ++ replace_from old new s' (String.length old - 1))%string
          else String c (replace_from old new s' 0)
      end
  end.

(** [s.replace(old, new)]: every non-overlapping occurrence of [old],
    from the left; an empty [old] matches before every character and at
    the end. *)
Definition replace (old new s : string) : string :=
  match old with
  | EmptyString =>
      (new ++ String.concat "" (map (fun c => String c new) (list_ascii_of_string s)))%string
  | _ => replace_from old new s 0
  end.

(** ** Numbered file names *)

(** [str(n)] for a natural number: its decimal digits. *)
Definition str (n : nat) : string := NilEmpty.string_of_uint (Nat.to_uint n).

(** [s.zfill(width)] for a string of digits: zeros on the left up to
    [width] characters. *)
Definition zfill (width : nat) (s : string) : string :=
  (string_of_list_ascii (replicate (width - String.length s) "0"%char) ++ s)%string.

(** ['{:06d}'.format(n)] for a natural number. *)
Definition format_06d (n : nat) : string := zfill 6 (str n).

(** [enumerate(l)] *)
Definition enumerate {A : Type} (l : list A) : list (nat * A) :=
  imap (fun i x => (i, x)) l.

(** ** Loading the data sets *)

Section DatasetLoops.

Variable ase_io_read : string -> result Atoms.
Variable center : Q -> Atoms -> Atoms.
Variable cell_angles : Cell -> vec3.
Variable cellpar_to_cell : vec3 -> vec3 -> Cell.

(** [sugbench = []; for i in glob.glob('./xyz_rotated/*.xyz'): ...], on
    the list of paths [glob] returns; ['{:s}'.format(i)] is [i]. *)
Definition load_sugbench (paths : list string) (padding grid_step : Q)
  : M (list (string * MoleculeDict)) :=
  for_fold paths
           (fun sugbench i =>
              mol ← load_molecule ase_io_read center cell_angles cellpar_to_cell
                                  i padding grid_step;
              name ← lift (getitem_last (split "/" i));
              mret (sugbench ++ [(name, mol)]))
           [].

(** [dimer = []; for i in glob.glob('./dimers/*.xyz'): ...] *)
Definition load_dimer (paths : list string) (padding grid_step : Q)
  : M (list (string * MoleculeDict)) :=
  for_fold paths
           (fun dimer i =>
              mol ← load_molecule ase_io_read center cell_angles cellpar_to_cell
                                  i padding grid_step;
              name ← lift (getitem_last (split "/" i));
              mret (dimer ++ [(replace ".xyz" "" name, mol)]))
           [].

End DatasetLoops.

(** ** [process_arbitrary_coordinates] *)

(** [result] as a monad, for code that has no use for the heap. *)
#[global] Instance result_ret : MRet result := @Ok.
#[global] Instance result_bind : MBind result :=
  fun A B k r => match r with
                 | Ok a => k a
                 | Raise e => Raise e
                 end.

(** The dictionary [process_arbitrary_coordinates] returns; a tensor is
    modelled by the array [torch.tensor] builds it from. *)
Record ProbeDict : Type := mkProbeDict {
  pd_probe_edges : ndarray Z;
  pd_probe_edges_features : ndarray Q;
  pd_num_probe_edges : nat;
  pd_num_probes : nat
}.

Section ArbitraryCoordinates.

(** [dataset.probes_to_graph(atoms, r, cutoff)]: a list of edge arrays and
    a list of arrays of edge features. *)
Variable probes_to_graph :
  Atoms -> ndarray Q -> Q -> list (ndarray Z) * list (ndarray Q).

Definition process_arbitrary_coordinates (atoms : Atoms) (r : ndarray Q) (cutoff : Q)
  : result ProbeDict :=
  let '(probe_edges, probe_edge_features) := probes_to_graph atoms r cutoff in
  probe_edges ← np.concatenate probe_edges;
  probe_edge_features ← np.concatenate probe_edge_features ≫= np.newaxis1;
  num_probe_edges ← np.shape0 probe_edges;
  num_probes ← np.shape0 r;
  mret {| pd_probe_edges := probe_edges;
          pd_probe_edges_features := probe_edge_features;
          pd_num_probe_edges := num_probe_edges;
          pd_num_probes := num_probes |}.

End ArbitraryCoordinates.

(** ** The AIM analysis of the dimers *)

(** A row of the table [mol]: its index, the columns read from the xyz
    file, and the [id] column. *)
Record MolRow : Type := mkMolRow {
  mr_index : nat;
  mr_element : string;
  mr_xyz : vec3;
  mr_id : string
}.

(** The table [mol] after [mol.index = mol.index + 1] and the three
    assignments to [mol['id']], from the rows [pd.read_csv] parses. *)
Definition mol_table (parsed : list (string * vec3)) : list MolRow :=
  imap (fun k '(element, xyz) =>
          {| mr_index := k + 1; mr_element := element; mr_xyz := xyz;
             mr_id := (element ++ str (k + 1))%string |})
       parsed.

(** A row of [aim_analysis]; a missing value (NaN) is [None]. *)
Record AimRow : Type := mkAimRow {
  ar_mol : MolRow;
  ar_charge : option Q;
  ar_scale : nat
}.

(** [sorted(names)] *)
Definition sorted (names : list string) : list string :=
  merge_sort String.le names.

Section AimAnalysis.

(** The [charge] column of the table [pd.read_csv] reads from a charge
    file, by the index of its rows; reading is taken to succeed, and a row
    whose charge is not a number is a missing row. *)
Variable read_charges : string -> gmap nat Q.

(** [a = mol.join(tmp[['charge']]); a['scale'] = i] *)
Definition join_charge (mol : list MolRow) (tmp : gmap nat Q) (i : nat)
  : list AimRow :=
  map (fun r => {| ar_mol := r; ar_charge := tmp !! mr_index r; ar_scale := i |}) mol.

(** The loop over the charge files and [pd.concat], which raises
    [ValueError] on an empty list: the lines printed and the table. *)
Definition aim_analysis (mol : list MolRow) (charge_files : list string)
  : result (list (nat * string) * list AimRow) :=
  let names := enumerate (sorted charge_files) in
  let tables := map (fun '(i, name) => join_charge mol (read_charges name) i) names in
  match tables with
  | [] => Raise ValueError
  | _ => Ok (names, concat tables)
  end.

End AimAnalysis.

(** [aim_analysis.groupby('id').transform(lambda x: x.min())['charge']]
    at the rows with the given [id]: the least charge of the group, the
    missing ones left out. *)
Definition min_charge (rows : list AimRow) (id : string) : option Q :=
  match omap (fun r => if String.eqb (mr_id (ar_mol r)) id then ar_charge r else None)
             rows with
  | [] => None
  | c :: cs => Some (fold_left Qmin cs c)
  end.

(** [aim_analysis['charge'] - min_charge['charge']] at row [r]. *)
Definition d_charge (rows : list AimRow) (r : AimRow) : option Q :=
  c ← ar_charge r;
  m ← min_charge rows (mr_id (ar_mol r));
  Some (c - m).

(** ** The A3MDnet notebook: the files it writes *)

Section SavedFiles.

Context {Mol Batch : Type}.
(** The text [Chem.MolToMolFile] writes for a molecule. *)
Variable MolToMolBlock : Mol -> string.
(** [to_xyz_file(u.atomic_numbers, u.coordinates)]: the texts it yields. *)
Variable to_xyz_file : Batch -> list string.

(** [Chem.MolToMolFile(mol, path)] on a file system that maps paths to
    contents; the directory exists after [mkdir -p], and the write is
    taken to succeed. *)
Definition MolToMolFile (mol : Mol) (path : string) (files : gmap string string)
  : gmap string string :=
  <[path := MolToMolBlock mol]> files.

(** [for i, mol in enumerate(embed_mols): Chem.MolToMolFile(mol, ...)] *)
Definition save_mols (embed_mols : list Mol) (files : gmap string string)
  : gmap string string :=
  foldl (fun files '(i, mol) =>
           MolToMolFile mol ("./mol/sugbench_" ++ format_06d i ++ ".mol")%string files)
        files (enumerate embed_mols).

(** [with open(path, 'w') as f: f.write(text)] *)
Definition write_text (path text : string) (files : gmap string string)
  : gmap string string :=
  <[path := text]> files.

(** The last cell, on the batches [validation_data.epoch] yields: one
    file per batch, opened for writing anew for every text [to_xyz_file]
    yields. *)
Definition write_xyz_rotated (batches : list Batch) (files : gmap string string)
  : gmap string string :=
  foldl (fun files '(i, u) =>
           foldl (fun files xyz =>
                    write_text ("./xyz_rotated/sugbench_" ++ format_06d i ++ ".xyz")%string
                               xyz files)
                 files (to_xyz_file u))
        files (enumerate batches).

End SavedFiles.

(** ** Vocabulary of the statements: well-formed arrays and grids, the
    outcome of a call, what a computation may write, the cube protocol *)

(** A well-formed array has as many elements as its shape says. *)
Definition ndarray_ok {A : Type} (a : ndarray A) : Prop :=
  length (arr_data a) = fold_right Nat.mul 1%nat (arr_shape a).

(** [indices] is a 3xN array. *)
Definition is_3xN (indices : ndarray Z) : bool :=
  (length (arr_shape indices) =? 2)%nat && (nth 0 (arr_shape indices) 0%nat =? 3)%nat.

Definition valid_index (n i : Z) : Prop := (- n <= i < n)%Z.

(** Row [t] of a two-dimensional index array, as [np.row] reads it. *)
Definition index_row (indices : ndarray Z) (t : nat) : list Z :=
  let N := nth 1 (arr_shape indices) 0%nat in
  take N (drop (t * N) (arr_data indices)).

(** Every index of row [t] is within the bounds numpy accepts for an axis
    of [shape[t]] points. *)
Definition in_bounds (sh : list Z) (indices : ndarray Z) : Prop :=
  forall t, (t < 3)%nat -> Forall (valid_index (nth t sh 0%Z)) (index_row indices t).

(** Column [n] of a 3xN index array: the index triple [(i, j, k)]. *)
Definition column (indices : ndarray Z) (n : nat) : Z * Z * Z :=
  (nth n (index_row indices 0) 0%Z,
   nth n (index_row indices 1) 0%Z,
   nth n (index_row indices 2) 0%Z).

Definition vec3_eq (u v : vec3) : Prop :=
  let '(a, b, c) := u in
  let '(x, y, z) := v in
  a == x /\ b == y /\ c == z.

Definition vec3_add (u v : vec3) : vec3 :=
  let '(a, b, c) := u in
  let '(x, y, z) := v in
  (a + x, b + y, c + z).

(** A row vector times the 3x3 matrix with the given rows. *)
Definition vec3_matmul (f : vec3) (rows : vec3 * vec3 * vec3) : vec3 :=
  let '(f0, f1, f2) := f in
  let '((ax, ay, az), (bx, by_, bz), (cx, cy, cz)) := rows in
  (f0 * ax + f1 * bx + f2 * cx,
   f0 * ay + f1 * by_ + f2 * cy,
   f0 * az + f1 * bz + f2 * cz).

(** Row [n] of an Nx3 array. *)
Definition row3 (data : list Q) (n : nat) : vec3 :=
  (nth (n * 3 + 0) data 0, nth (n * 3 + 1) data 0, nth (n * 3 + 2) data 0).

(** [index/shape] *)
Definition fraction (i n : Z) : Q := inject_Z i / inject_Z n.

(** The number of coordinates of an origin that broadcasts against Nx3
    positions: a scalar counts as one coordinate, a vector must have one
    or three; no other array broadcasts. *)
Definition origin_coordinates (o : ndarray Q) : option nat :=
  match arr_shape o with
  | [] => Some 1%nat
  | [k] => if (k =? 1)%nat || (k =? 3)%nat then Some k else None
  | _ => None
  end.

(** The row numpy adds to every position for an origin of [k]
    coordinates: the origin itself when [k] is 3, its one coordinate three
    times when [k] is 1. *)
Definition origin_row (k : nat) (ov : list Q) : vec3 :=
  let coordinate (t : nat) := nth (if (k =? 1)%nat then 0%nat else t) ov 0 in
  (coordinate 0%nat, coordinate 1%nat, coordinate 2%nat).

(** The scaled grid vector of an axis of length [l]:
    [np.arange(0, l, grid_step)/l]. *)
Definition grid_vector_data (l grid_step : Q) : list Q :=
  map (fun v => v / l) (np.arange_data 0 l grid_step).

Definition grid_vector_obj (l grid_step : Q) : pyobj :=
  FloatArray (NdArray [np.arange_len 0 l grid_step] (grid_vector_data l grid_step)).

(** The array a caller passes as [origin] ([None]: [np.zeros(3)]). *)
Definition origin_array (w : world) (origin_ : option ref) : option (ndarray Q) :=
  match origin_ with
  | None => Some (NdArray [3%nat] [0; 0; 0])
  | Some r =>
      match heap w !! r with
      | Some (FloatArray a) => as_float (FloatArray a)
      | Some (IntArray a) => as_float (IntArray a)
      | _ => None
      end
  end.

(** [self.shape], read off the heap. *)
Definition grid_shape (w : world) (self : ref) : option (list Z) :=
  match heap w !! self with
  | Some (Instance g) =>
      match heap w !! shape g with
      | Some (IntArray a) => Some (arr_data a)
      | _ => None
      end
  | _ => None
  end.

(** [is_grid h self c grid_step o]: in heap [h], [self] is a
    [LazyMeshGrid] built over cell [c] with step [grid_step], whose
    [origin] attribute holds the array [o]. *)
Definition is_grid (h : list pyobj) (self : ref) (c : Cell) (grid_step : Q)
           (o : ndarray Q) : Prop :=
  exists (g : LazyMeshGrid) (v0 v1 v2 : ref) (oo : pyobj),
    let '(la, lb, lc) := cell_lengths c in
    h !! self = Some (Instance g)
    /\ h !! cell g = Some (CellObj c)
    /\ h !! scaled_grid_vectors g = Some (PyList [v0; v1; v2])
    /\ h !! v0 = Some (grid_vector_obj la grid_step)
    /\ h !! v1 = Some (grid_vector_obj lb grid_step)
    /\ h !! v2 = Some (grid_vector_obj lc grid_step)
    /\ h !! shape g =
       Some (IntArray (NdArray [4%nat]
               [Z.of_nat (np.arange_len 0 la grid_step);
                Z.of_nat (np.arange_len 0 lb grid_step);
                Z.of_nat (np.arange_len 0 lc grid_step); 3%Z]))
    /\ h !! origin g = Some oo
    /\ as_float oo = Some o.

(** The state of a [LazyMeshGrid] instance: its attribute bindings and the
    objects they refer to (for [scaled_grid_vectors], the list and the
    three arrays in it). *)
Record GridState : Type := mkGridState {
  gs_attributes : LazyMeshGrid;
  gs_cell : pyobj;
  gs_scaled_grid_vectors : list ref * list pyobj;
  gs_shape : pyobj;
  gs_origin : pyobj
}.

Definition grid_state (w : world) (self : ref) : option GridState :=
  match heap w !! self with
  | Some (Instance g) =>
      c ← heap w !! cell g;
      match heap w !! scaled_grid_vectors g with
      | Some (PyList l) =>
          vs ← mapM (fun v => heap w !! v) l;
          sh ← heap w !! shape g;
          o ← heap w !! origin g;
          Some (mkGridState g c (l, vs) sh o)
      | _ => None
      end
  | _ => None
  end.

(** What [LazyMeshGrid_getitem] computes, read off its code: the array it
    returns or the exception it raises.  [LazyMeshGrid_getitem_value]
    below proves that the monadic code agrees with it. *)
Definition getitem_value (c : Cell) (grid_step : Q) (o : ndarray Q)
           (indices : ndarray Z) : result (ndarray Q) :=
  if negb (is_3xN indices) then Raise NotImplementedError
  else
    let N := nth 1 (arr_shape indices) 0%nat in
    let d := arr_data indices in
    let '(la, lb, lc) := cell_lengths c in
    match mapM (np.index1 (grid_vector_data la grid_step)) (take N (drop (0 * N) d)) with
    | None => Raise IndexError
    | Some A =>
      match mapM (np.index1 (grid_vector_data lb grid_step)) (take N (drop (1 * N) d)) with
      | None => Raise IndexError
      | Some B =>
        match mapM (np.index1 (grid_vector_data lc grid_step)) (take N (drop (2 * N) d)) with
        | None => Raise IndexError
        | Some C =>
          match np.broadcast2 N 3 (arr_shape o) with
          | None => Raise ValueError
          | Some (n', m') =>
              Ok (NdArray [N; 3%nat]
                    (np.iadd_data N 3 n' m'
                       (np.matmul N 3 3 (np.interleave3 A B C)
                                  (arr_data (Cell_array c)))
                       (arr_data o)))
          end
        end
      end
    end.

(** The outcome of running [m] in [w]: the array behind the returned
    reference, or the exception. *)
Definition outcome (m : M ref) (w : world) : result (option pyobj) :=
  match m w with
  | (Ok r, w') => Ok (heap w' !! r)
  | (Raise e, _) => Raise e
  end.

Definition result_map {A B : Type} (f : A -> B) (r : result A) : result B :=
  match r with
  | Ok a => Ok (f a)
  | Raise e => Raise e
  end.

(** The heap only grows and the trace does not change. *)
Definition grows (w w' : world) : Prop :=
  trace w' = trace w /\ exists l, heap w' = heap w ++ l.

(** The heap only grows; the trace may grow as well. *)
Definition heap_grows (w w' : world) : Prop := exists l, heap w' = heap w ++ l.

(** [reads m]: running [m] leaves the world as it was. *)
Definition reads {A : Type} (m : M A) : Prop := forall w, (m w).2 = w.

(** [allocates m]: running [m] either raises and leaves the world as it
    was, or appends one object to the heap and returns its reference. *)
Definition allocates (m : M ref) : Prop :=
  forall w, (exists e, m w = (Raise e, w))
            \/ (exists o, m w = (Ok (length (heap w)),
                                 World (heap w ++ [o]) (trace w))).

(** [appends m]: running [m] only appends objects to the heap. *)
Definition appends {A : Type} (m : M A) : Prop := forall w, grows w (m w).2.

(** [updates r m]: running [m] leaves the world as it was, or overwrites
    the object at [r] and nothing else. *)
Definition updates {A : Type} (r : ref) (m : M A) : Prop :=
  forall w, (m w).2 = w
            \/ exists v, (m w).2 = World (<[r := v]> (heap w)) (trace w).

(** The numbers of grid points along the three axes of a grid over cell
    [c] with step [s]. *)
Definition grid_dims (c : Cell) (s : Q) : nat * nat * nat :=
  let '(la, lb, lc) := cell_lengths c in
  (np.arange_len 0 la s, np.arange_len 0 lb s, np.arange_len 0 lc s).

(** In [w], [density_dict] holds a grid over cell [c] with step [s] and
    origin [ov] (three coordinates), and its [origin] entry is the array
    [od]. *)
Definition molecule_ok (w : world) (density_dict : MoleculeDict) (c : Cell)
           (s : Q) (ov : list Q) (od : ndarray Q) : Prop :=
  is_grid (heap w) (md_grid_position density_dict) c s (NdArray [1%nat; 3%nat] ov)
  /\ exists oo, heap w !! md_origin density_dict = Some oo /\ as_float oo = Some od.

(** The index triples of an [nx] x [ny] x [nz] grid in row-major order:
    x slowest, z fastest. *)
Definition row_major (nx ny nz : nat) : list (nat * nat * nat) :=
  flat_map (fun i => flat_map (fun j => map (fun k => (i, j, k)) (seq 0 nz))
                              (seq 0 ny))
           (seq 0 nx).

(** The slices [DensityGridIterator] walks through, as index triples. *)
Definition grid_slices (probe_count nx ny nz : nat) : list (list (nat * nat * nat)) :=
  map (fun s => map (unravel_index ny nz)
                    (slice_flat_indices probe_count (nx * ny * nz) s))
      (seq 0 (num_slices probe_count (nx * ny * nz))).

Section CubeProtocol.

Context {Graph ProbeGraph ProbeBatch Repr : Type}.
Variable collate_fn : list MoleculeDict -> Graph.
Variable atom_model : Graph -> Repr.
Variable probes_to_graph : Atoms -> ndarray Q -> Q -> ProbeGraph.
Variable collate_list_of_dicts : list ProbeGraph -> ProbeBatch.
Variable probe_model : Graph -> ProbeBatch -> Repr -> list Q.
Variable cutoff : Q.

(** [ev] is the write of the densities the model predicts at the grid
    positions of the index triples [slice]. *)
Definition write_event (path : string) (density_dict : MoleculeDict)
           (c : Cell) (s : Q) (ov : list Q)
           (slice : list (nat * nat * nat)) (ev : event) : Prop :=
  exists pos,
    getitem_value c s (NdArray [1%nat; 3%nat] ov) (index_array slice) = Ok pos
    /\ ev = EvWrite path
              (map (Qmult bohr2angp3)
                   (probe_model (collate_fn [density_dict])
                      (collate_list_of_dicts
                         [probes_to_graph (md_atoms density_dict) pos cutoff])
                      (atom_model (collate_fn [density_dict])))).

(** The events of one molecule, in the words of the specification: the
    writer is constructed once, with the flat header (path, atoms, the
    first three entries of the grid shape, origin, comment), before any
    value is written; then the values are appended by successive writes
    whose slices, one after the other, walk the grid in row-major order
    (x slowest, z fastest).  [before] and [after] are what the loop body
    reports around them. *)
Definition cube_protocol (w : world) (path : string)
           (before after : list event) (density_dict : MoleculeDict)
           (evs : list event) : Prop :=
  exists (c : Cell) (s : Q) (ov : list Q) (od : ndarray Q)
         (slices : list (list (nat * nat * nat))) (writes : list event),
    molecule_ok w density_dict c s ov od
    /\ (let '(nx, ny, nz) := grid_dims c s in
        concat slices = row_major nx ny nz
        /\ evs = before
                 ++ [EvCubeWriter path (md_atoms density_dict)
                       [Z.of_nat nx; Z.of_nat ny; Z.of_nat nz] (arr_data od)
                       "predicted by DeepDFT model"]
                 ++ writes ++ after)
    /\ Forall2 (write_event path density_dict c s ov) slices writes.

End CubeProtocol.

(** ** Vocabulary of the further properties *)

(** [returns_fresh m]: the reference [m] returns is not in the heap when
    [m] starts and is in the heap when it ends. *)
Definition returns_fresh (m : M ref) : Prop :=
  forall w r w', m w = (Ok r, w') ->
                 (length (heap w) <= r < length (heap w'))%nat.

(** The cell [load_molecule] gives the atoms: the lengths of the centred
    cell rounded by [ceil_float], the angles as they were. *)
Definition rounded_cell (center : Q -> Atoms -> Atoms) (cell_angles : Cell -> vec3)
           (cellpar_to_cell : vec3 -> vec3 -> Cell)
           (atoms : Atoms) (vacuum grid_step : Q) : Cell :=
  let atoms1 := center vacuum atoms in
  let '(a, b, c) := cell_lengths (atoms_cell atoms1) in
  cellpar_to_cell (inject_Z (Qceiling (a / grid_step)) * grid_step,
                   inject_Z (Qceiling (b / grid_step)) * grid_step,
                   inject_Z (Qceiling (c / grid_step)) * grid_step)
                  (cell_angles (atoms_cell atoms1)).

(** A molecule as [load_molecule] leaves it. *)
Definition loaded (w : world) (grid_step : Q) (i : string) (md : MoleculeDict) : Prop :=
  md_metadata md = i
  /\ molecule_ok w md (atoms_cell (md_atoms md)) grid_step [0; 0; 0]
                 (NdArray [3%nat] [0; 0; 0]).

(** [join sep init name]: the parts [init], each followed by the
    separator, then [name]. *)
Definition join (sep : ascii) (init : list string) (name : string) : string :=
  fold_right (fun p acc => (p ++ String sep acc)%string) name init.

(** Reading a string of digits back. *)
Definition int_of_digits (s : string) : option nat :=
  Nat.of_uint <$> NilEmpty.uint_of_string s.

(** No character of the string is a decimal digit. *)
Definition is_digit (c : ascii) : bool :=
  (48 <=? nat_of_ascii c)%nat && (nat_of_ascii c <=? 57)%nat.

Definition no_digit (s : string) : Prop :=
  Forall (fun c => is_digit c = false) (list_ascii_of_string s).

(** What one line of [smi] adds to [embed_mols]: the optimised molecule,
    or nothing when the molecule is too large or its optimisation
    raises. *)
Definition embedded {Mol : Type} (GetNumHeavyAtoms : Mol -> nat) (AddHs : Mol -> Mol)
           (EmbedMolecule : Mol -> Mol) (MMFFOptimizeMolecule : Mol -> result Mol)
           (i : option Mol) : option Mol :=
  match i with
  | None => None
  | Some i =>
      if (30 <? GetNumHeavyAtoms i)%nat then None
      else match MMFFOptimizeMolecule (EmbedMolecule (AddHs i)) with
           | Ok u => Some u
           | Raise _ => None
           end
  end.

(** ** Example inputs *)

(** An orthorhombic cell of 2 x 3 x 1. *)
Definition example_cell : Cell :=
  mkCell ((2, 0, 0), (0, 3, 0), (0, 0, 1)) (2, 3, 1).

(** A cell whose third vector is zero. *)
Definition example_flat_cell : Cell :=
  mkCell ((2, 0, 0), (0, 3, 0), (0, 0, 0)) (2, 3, 0).

Definition example_world : world := World [CellObj example_cell] [].

Definition example_flat_world : world := World [CellObj example_flat_cell] [].

(** The world after [LazyMeshGrid(cell, 0.5)]; the grid is object 11. *)
Definition example_grid_world : world :=
  Eval vm_compute in (LazyMeshGrid_init 0%nat (1 # 2) None example_world).2.

Definition example_flat_grid_world : world :=
  Eval vm_compute in (LazyMeshGrid_init 0%nat (1 # 2) None example_flat_world).2.

(** The index triples (1, 2, 0) and (3, 5, 1). *)
Definition example_indices : ndarray Z :=
  NdArray [3%nat; 2%nat] [1; 3; 2; 5; 0; 1]%Z.

(** The world after a first call [grid[indices]]. *)
Definition example_later_world : world :=
  Eval vm_compute in (LazyMeshGrid_getitem 11%nat example_indices example_grid_world).2.

Definition example_grid_state : GridState :=
  Eval vm_compute in
    default (mkGridState (mkLazyMeshGrid 0%nat 0%nat 0%nat 0%nat) (PyList []) ([], []) (PyList [])
                         (PyList []))
            (grid_state example_grid_world 11%nat).

(** Stand-ins for ASE on one molecule: a water molecule, read from any
    path, without a cell; centring puts the atoms into the box that holds
    them with [vacuum] on every side; a cell built from lengths and right
    angles is diagonal. *)
Definition example_atoms : Atoms :=
  mkAtoms ["O"; "H"; "H"]%string
          [(0, 0, 0); (3 # 4, 1 # 2, 0); (- (3 # 4), 1 # 2, 0)]
          (mkCell ((0, 0, 0), (0, 0, 0), (0, 0, 0)) (0, 0, 0)).

Definition example_read (path : string) : result Atoms := Ok example_atoms.

Definition example_center (vacuum : Q) (atoms : Atoms) : Atoms :=
  let lo (xs : list Q) := match xs with [] => 0 | x :: xs' => fold_left Qmin xs' x end in
  let hi (xs : list Q) := match xs with [] => 0 | x :: xs' => fold_left Qmax xs' x end in
  let xs := map (fun p : vec3 => p.1.1) (positions atoms) in
  let ys := map (fun p : vec3 => p.1.2) (positions atoms) in
  let zs := map (fun p : vec3 => p.2) (positions atoms) in
  let a := hi xs - lo xs + 2 * vacuum in
  let b := hi ys - lo ys + 2 * vacuum in
  let c := hi zs - lo zs + 2 * vacuum in
  mkAtoms (symbols atoms)
          (map (fun p : vec3 =>
                  (p.1.1 - lo xs + vacuum, p.1.2 - lo ys + vacuum, p.2 - lo zs + vacuum))
               (positions atoms))
          (mkCell ((a, 0, 0), (0, b, 0), (0, 0, c)) (Qabs a, Qabs b, Qabs c)).

Definition example_angles (c : Cell) : vec3 := (90, 90, 90).

Definition example_cellpar_to_cell (abc angles : vec3) : Cell :=
  let '(a, b, c) := abc in
  mkCell ((a, 0, 0), (0, b, 0), (0, 0, c)) abc.

(** The world and the dictionary [load_molecule("water.xyz", 1.0, 0.5)]
    leaves: cell lengths 3.5 x 2.5 x 2, a grid of 7 x 5 x 4 points. *)
Definition example_molecule_run : result MoleculeDict * world :=
  Eval vm_compute in
    load_molecule example_read example_center example_angles
                  example_cellpar_to_cell "water.xyz" 1 (1 # 2) (World [] []).

Definition example_molecule : MoleculeDict :=
  Eval vm_compute in
    match example_molecule_run.1 with
    | Ok md => md
    | Raise _ => mkMoleculeDict example_atoms 0%nat 0%nat "" (0, 0, 0)
    end.

Definition example_molecule_world : world :=
  Eval vm_compute in example_molecule_run.2.

(** Stand-ins for the DeepDFT model: the probe graph is the array of
    probe positions, and the predicted density of a probe is the sum of
    its coordinates. *)
Definition example_probe_model (g : unit) (batch : list (ndarray Q)) (r : unit)
  : list Q :=
  flat_map (fun a : ndarray Q =>
              map (fun n => let '(x, y, z) := row3 (arr_data a) n in x + y + z)
                  (seq 0 (nth 0 (arr_shape a) 0%nat)))
           batch.

(** Three small molecules for the embedding loop; the last holds
    sulphur. *)
Definition example_smiles : list (option (list string)) :=
  [Some ["C"; "O"]; Some ["C"; "C"; "N"]; Some ["C"; "S"]]%string.

(** The same molecule on a finer grid, step 0.25: 14 x 10 x 8 = 1120
    points, two slices of the iterator. *)
Definition example_fine_run : result MoleculeDict * world :=
  Eval vm_compute in
    load_molecule example_read example_center example_angles
                  example_cellpar_to_cell "water.xyz" 1 (1 # 4) (World [] []).

Definition example_fine_molecule : MoleculeDict :=
  Eval vm_compute in
    match example_fine_run.1 with
    | Ok md => md
    | Raise _ => example_molecule
    end.

(** [load_molecule("water.xyz", 1.0, -0.5)]: a negative step. *)
Definition example_negative_run : result MoleculeDict * world :=
  Eval vm_compute in
    load_molecule example_read example_center example_angles
                  example_cellpar_to_cell "water.xyz" 1 (- (1 # 2)) (World [] []).

Definition example_negative_molecule : MoleculeDict :=
  Eval vm_compute in
    match example_negative_run.1 with
    | Ok md => md
    | Raise _ => example_molecule
    end.

(** A world with a cell and an origin of two coordinates. *)
Definition example_origin_world : world :=
  World [CellObj example_cell; FloatArray (NdArray [2%nat] [0; 0])] [].

(** A probe graph of two edge arrays, of two edges and of one, with one
    feature for each edge. *)
Definition example_probes_to_graph (atoms : Atoms) (r : ndarray Q) (cutoff : Q)
  : list (ndarray Z) * list (ndarray Q) :=
  ([NdArray [2%nat; 2%nat] [0; 1; 1; 0]%Z; NdArray [1%nat; 2%nat] [2; 0]%Z],
   [NdArray [2%nat] [1; 1]; NdArray [1%nat] [3 # 2]]).

(** Two atoms, and charge files that give the charges of rows 1 and 2;
    the second file has no row 2. *)
Definition example_parsed : list (string * vec3) :=
  [("C"%string, (0, 0, 0)); ("H"%string, (1, 0, 0))].

Definition example_read_charges (name : string) : gmap nat Q :=
  if String.eqb name "a.charge" then <[1%nat := 1 # 2]> (<[2%nat := 1 # 4]> ∅)
  else <[1%nat := 1 # 3]> ∅.

Definition example_aim_rows : list AimRow :=
  Eval vm_compute in
    match aim_analysis example_read_charges (mol_table example_parsed)
                       ["b.charge"; "a.charge"]%string with
    | Ok (_, rows) => rows
    | Raise _ => []
    end.

(** * Properties *)

(** ** Rational arithmetic: ceilings, [ceil_float], [np.arange] *)

Section Arithmetic.

Lemma Qceiling_inject_mul (k : Z) (s : Q) :
  ~ s == 0 -> Qceiling (inject_Z k * s / s) = k.
Proof.
  intros Hs. transitivity (Qceiling (inject_Z k)); [| apply Qceiling_Z].
  apply Qceiling_comp. now field.
Qed.

(** The ceiling is the least integer above its argument. *)
Lemma Qceiling_least (x : Q) (k : Z) :
  x <= inject_Z k -> (Qceiling x <= k)%Z.
Proof.
  intros H. apply Qceiling_resp_le in H. now rewrite Qceiling_Z in H.
Qed.

Lemma ceil_float_Ok (x s : Q) :
  ~ s == 0 -> ceil_float x s = Ok (inject_Z (Qceiling (x / s)) * s).
Proof.
  intros Hs. unfold ceil_float. destruct (Qeq_bool s 0) eqn:E; [| reflexivity].
  now apply Qeq_bool_eq in E.
Qed.

Lemma ceil_float_ge (x s : Q) :
  0 < s -> x <= inject_Z (Qceiling (x / s)) * s.
Proof.
  intros Hs.
  apply Qle_trans with (x / s * s).
  - apply Qle_lteq. right. field. intros E. rewrite E in Hs.
    now apply Qlt_irrefl in Hs.
  - apply Qmult_le_compat_r; [apply Qle_ceiling | now apply Qlt_le_weak].
Qed.

Lemma ceil_float_least (x s : Q) (k : Z) :
  0 < s -> x <= inject_Z k * s ->
  inject_Z (Qceiling (x / s)) * s <= inject_Z k * s.
Proof.
  intros Hs Hk.
  apply Qmult_le_compat_r; [| now apply Qlt_le_weak].
  rewrite <- Zle_Qle. apply Qceiling_least.
  apply Qle_shift_div_r; assumption.
Qed.

Lemma arange_len_multiple (l s : Q) (k : Z) :
  ~ s == 0 -> l == inject_Z k * s -> np.arange_len 0 l s = Z.to_nat k.
Proof.
  intros Hs Hl. unfold np.arange_len. f_equal.
  transitivity (Qceiling (inject_Z k * s / s));
    [| now apply Qceiling_inject_mul].
  apply Qceiling_comp. rewrite Hl. now field.
Qed.

(** An axis of length zero has no grid point, whatever the step. *)
Lemma arange_zero_stop (l s : Q) : l == 0 -> np.arange_len 0 l s = 0%nat.
Proof.
  intros Hl. unfold np.arange_len.
  assert (E : (l - 0) / s == inject_Z 0).
  { rewrite Hl. unfold Qdiv. ring. }
  now rewrite (Qceiling_comp _ _ E), Qceiling_Z.
Qed.

Lemma arange_nonpos_stop (l s : Q) :
  0 < s -> l <= 0 -> np.arange_len 0 l s = 0%nat.
Proof.
  intros Hs Hl. unfold np.arange_len.
  assert (H : (Qceiling ((l - 0) / s) <= 0)%Z).
  { apply Qceiling_least. apply Qle_shift_div_r; [assumption |].
    assert (E1 : l - 0 == l) by ring.
    assert (E2 : inject_Z 0 * s == 0) by ring.
    now rewrite E1, E2. }
  lia.
Qed.

Lemma arange_data_length (a b s : Q) :
  length (np.arange_data a b s) = np.arange_len a b s.
Proof. unfold np.arange_data. now rewrite length_map, length_seq. Qed.

Lemma arange_data_lookup (a b s : Q) (i : nat) :
  (i < np.arange_len a b s)%nat ->
  np.arange_data a b s !! i = Some (a + inject_Z (Z.of_nat i) * s).
Proof.
  intros Hi. unfold np.arange_data.
  rewrite list_lookup_fmap, lookup_seq_lt by assumption. reflexivity.
Qed.

End Arithmetic.

(** ** Running monadic code *)

Section Running.

Context {A B : Type}.

Lemma bind_Ok (m : M A) (k : A -> M B) (w w' : world) (a : A) :
  m w = (Ok a, w') -> (m ≫= k) w = k a w'.
Proof. intros H. unfold mbind, M_bind, bind. now rewrite H. Qed.

Lemma bind_Raise (m : M A) (k : A -> M B) (w w' : world) (e : PyExn) :
  m w = (Raise e, w') -> (m ≫= k) w = (Raise e, w').
Proof. intros H. unfold mbind, M_bind, bind. now rewrite H. Qed.

End Running.

Lemma load_ok (w : world) (r : ref) (o : pyobj) :
  heap w !! r = Some o -> load r w = (Ok o, w).
Proof. intros H. unfold load. now rewrite H. Qed.

Lemma load_float_ok (w : world) (r : ref) (o : pyobj) (a : ndarray Q) :
  heap w !! r = Some o -> as_float o = Some a -> load_float r w = (Ok a, w).
Proof.
  intros H Ha. unfold load_float.
  rewrite (bind_Ok _ _ _ _ _ (load_ok _ _ _ H)). now rewrite Ha.
Qed.

Lemma load_int_ok (w : world) (r : ref) (a : ndarray Z) :
  heap w !! r = Some (IntArray a) -> load_int r w = (Ok a, w).
Proof.
  intros H. unfold load_int. now rewrite (bind_Ok _ _ _ _ _ (load_ok _ _ _ H)).
Qed.

Lemma load_list_ok (w : world) (r : ref) (l : list ref) :
  heap w !! r = Some (PyList l) -> load_list r w = (Ok l, w).
Proof.
  intros H. unfold load_list. now rewrite (bind_Ok _ _ _ _ _ (load_ok _ _ _ H)).
Qed.

Lemma load_cell_ok (w : world) (r : ref) (c : Cell) :
  heap w !! r = Some (CellObj c) -> load_cell r w = (Ok c, w).
Proof.
  intros H. unfold load_cell. now rewrite (bind_Ok _ _ _ _ _ (load_ok _ _ _ H)).
Qed.

Lemma load_instance_ok (w : world) (r : ref) (g : LazyMeshGrid) :
  heap w !! r = Some (Instance g) -> load_instance r w = (Ok g, w).
Proof.
  intros H. unfold load_instance.
  now rewrite (bind_Ok _ _ _ _ _ (load_ok _ _ _ H)).
Qed.

(** Looking up a reference in a heap that has grown since. *)
Lemma lookup_snoc_new (h : list pyobj) (o : pyobj) :
  (h ++ [o]) !! length h = Some o.
Proof. now rewrite lookup_app_r, Nat.sub_diag by lia. Qed.

Ltac heap_lookup :=
  simpl heap;
  first [ eassumption
        | apply lookup_snoc_new
        | apply lookup_app_l_Some; heap_lookup ].

(** One step of symbolic execution: run the first action of a bind with
    the equation [tac] proves for it. *)
Ltac run_with tac :=
  erewrite bind_Ok; [| tac ].

Ltac run_load :=
  first [ run_with ltac:(apply load_instance_ok; heap_lookup)
        | run_with ltac:(apply load_list_ok; heap_lookup)
        | run_with ltac:(apply load_cell_ok; heap_lookup)
        | run_with ltac:(apply load_int_ok; heap_lookup)
        | run_with ltac:(eapply load_float_ok; [heap_lookup | reflexivity])
        | run_with ltac:(apply load_ok; heap_lookup) ].

Section NumpySpecs.

Variable w : world.

Lemma arange_ok (a b s : Q) :
  ~ s == 0 ->
  np.arange a b s w =
  (Ok (length (heap w)),
   World (heap w ++ [FloatArray (NdArray [np.arange_len a b s]
                                         (np.arange_data a b s))])
         (trace w)).
Proof.
  intros Hs. unfold np.arange.
  destruct (Qeq_bool s 0) eqn:E; [| reflexivity].
  now apply Qeq_bool_eq in E.
Qed.

Lemma arange_zero_step (a b s : Q) :
  s == 0 -> np.arange a b s w = (Raise ValueError, w).
Proof.
  intros Hs. unfold np.arange. now rewrite (Qeq_eq_bool _ _ Hs).
Qed.

Lemma true_divide_ok (r : ref) (o : pyobj) (x : ndarray Q) (l : Q) :
  heap w !! r = Some o -> as_float o = Some x ->
  np.true_divide r l w =
  (Ok (length (heap w)),
   World (heap w ++ [FloatArray (NdArray (arr_shape x)
                                         (map (fun v => v / l) (arr_data x)))])
         (trace w)).
Proof.
  intros H Hx. unfold np.true_divide.
  now rewrite (bind_Ok _ _ _ _ _ (load_float_ok _ _ _ _ H Hx)).
Qed.

Lemma len_float_ok (r : ref) (n : nat) (s : list nat) (d : list Q) :
  heap w !! r = Some (FloatArray (NdArray (n :: s) d)) ->
  np.len r w = (Ok (Z.of_nat n), w).
Proof.
  intros H. unfold np.len. now rewrite (bind_Ok _ _ _ _ _ (load_ok _ _ _ H)).
Qed.

Lemma expand_dims0_ok (r : ref) (o : pyobj) (x : ndarray Q) :
  heap w !! r = Some o -> (exists y, o = FloatArray y) \/ (exists y, o = IntArray y) ->
  as_float o = Some x ->
  exists o', np.expand_dims0 r w =
             (Ok (length (heap w)), World (heap w ++ [o']) (trace w))
             /\ as_float o' = Some (NdArray (1%nat :: arr_shape x) (arr_data x)).
Proof.
  intros H Ho Hx. unfold np.expand_dims0.
  rewrite (bind_Ok _ _ _ _ _ (load_ok _ _ _ H)).
  destruct Ho as [[y ->] | [y ->]]; simpl in Hx; injection Hx as <-;
    eexists; (split; [reflexivity |]); reflexivity.
Qed.

Lemma row_ok (r : ref) (n m : nat) (d : list Z) (i : nat) :
  heap w !! r = Some (IntArray (NdArray [n; m] d)) -> (i < n)%nat ->
  np.row r i w = (Ok (take m (drop (i * m) d)), w).
Proof.
  intros H Hi. unfold np.row.
  rewrite (bind_Ok _ _ _ _ _ (load_int_ok _ _ _ H)). simpl.
  apply Nat.ltb_lt in Hi. now rewrite Hi.
Qed.

Lemma fancy_index_ok (v : ref) (o : pyobj) (n : nat) (d : list Q)
      (idx : list Z) (l : list Q) :
  heap w !! v = Some o -> as_float o = Some (NdArray [n] d) ->
  mapM (np.index1 d) idx = Some l ->
  np.fancy_index v idx w =
  (Ok (length (heap w)),
   World (heap w ++ [FloatArray (NdArray [length idx] l)]) (trace w)).
Proof.
  intros H Ho Hl. unfold np.fancy_index.
  rewrite (bind_Ok _ _ _ _ _ (load_float_ok _ _ _ _ H Ho)). simpl.
  now rewrite Hl.
Qed.

Lemma fancy_index_out_of_bounds (v : ref) (o : pyobj) (n : nat)
      (d : list Q) (idx : list Z) :
  heap w !! v = Some o -> as_float o = Some (NdArray [n] d) ->
  mapM (np.index1 d) idx = None ->
  np.fancy_index v idx w = (Raise IndexError, w).
Proof.
  intros H Ho Hl. unfold np.fancy_index.
  rewrite (bind_Ok _ _ _ _ _ (load_float_ok _ _ _ _ H Ho)). simpl.
  now rewrite Hl.
Qed.

Lemma stack3_axis1_ok (a b c : ref) (n : nat) (x y z : list Q) :
  heap w !! a = Some (FloatArray (NdArray [n] x)) ->
  heap w !! b = Some (FloatArray (NdArray [n] y)) ->
  heap w !! c = Some (FloatArray (NdArray [n] z)) ->
  np.stack3_axis1 a b c w =
  (Ok (length (heap w)),
   World (heap w ++ [FloatArray (NdArray [n; 3%nat] (np.interleave3 x y z))])
         (trace w)).
Proof.
  intros Ha Hb Hc. unfold np.stack3_axis1.
  rewrite (bind_Ok _ _ _ _ _ (load_float_ok _ _ _ _ Ha eq_refl)).
  rewrite (bind_Ok _ _ _ _ _ (load_float_ok _ _ _ _ Hb eq_refl)).
  rewrite (bind_Ok _ _ _ _ _ (load_float_ok _ _ _ _ Hc eq_refl)).
  simpl. now rewrite Nat.eqb_refl.
Qed.

Lemma dot_ok (a b : ref) (oa ob : pyobj) (n k m : nat) (x y : list Q) :
  heap w !! a = Some oa -> as_float oa = Some (NdArray [n; k] x) ->
  heap w !! b = Some ob -> as_float ob = Some (NdArray [k; m] y) ->
  np.dot a b w =
  (Ok (length (heap w)),
   World (heap w ++ [FloatArray (NdArray [n; m] (np.matmul n k m x y))])
         (trace w)).
Proof.
  intros Ha Hoa Hb Hob. unfold np.dot.
  rewrite (bind_Ok _ _ _ _ _ (load_float_ok _ _ _ _ Ha Hoa)).
  rewrite (bind_Ok _ _ _ _ _ (load_float_ok _ _ _ _ Hb Hob)).
  simpl. now rewrite Nat.eqb_refl.
Qed.

Lemma iadd_ok (a b : ref) (ob : pyobj) (n m n' m' : nat) (s : list nat)
      (x y : list Q) :
  heap w !! a = Some (FloatArray (NdArray [n; m] x)) ->
  heap w !! b = Some ob -> as_float ob = Some (NdArray s y) ->
  np.broadcast2 n m s = Some (n', m') ->
  np.iadd a b w =
  (Ok tt,
   World (<[a := FloatArray (NdArray [n; m] (np.iadd_data n m n' m' x y))]> (heap w))
         (trace w)).
Proof.
  intros Ha Hb Hob Hs. unfold np.iadd.
  rewrite (bind_Ok _ _ _ _ _ (load_ok _ _ _ Ha)).
  rewrite (bind_Ok _ _ _ _ _ (load_float_ok _ _ _ _ Hb Hob)).
  simpl. now rewrite Hs.
Qed.

End NumpySpecs.

(** ** The state of a [LazyMeshGrid] instance *)

Lemma is_grid_extend (h l : list pyobj) (self : ref) (c : Cell) (s : Q)
      (o : ndarray Q) :
  is_grid h self c s o -> is_grid (h ++ l) self c s o.
Proof.
  intros (g & v0 & v1 & v2 & oo & H). exists g, v0, v1, v2, oo.
  destruct (cell_lengths c) as [[la lb] lc].
  destruct H as (H1 & H2 & H3 & H4 & H5 & H6 & H7 & H8 & H9).
  repeat split; try (apply lookup_app_l_Some; assumption). assumption.
Qed.

Lemma is_grid_shape (w : world) (self : ref) (c : Cell) (s : Q) (o : ndarray Q) :
  is_grid (heap w) self c s o ->
  grid_shape w self =
  Some (map (fun l => Z.of_nat (np.arange_len 0 l s)) (lengths c) ++ [3%Z]).
Proof.
  intros (g & v0 & v1 & v2 & oo & H). unfold grid_shape, lengths.
  destruct (cell_lengths c) as [[la lb] lc].
  destruct H as (H1 & H2 & H3 & H4 & H5 & H6 & H7 & H8 & H9).
  now rewrite H1, H7.
Qed.

(** *** The constructor *)

Lemma bind_assoc {A B C : Type} (m : M A) (k1 : A -> M B) (k2 : B -> M C)
      (w : world) :
  ((m ≫= k1) ≫= k2) w = (m ≫= (fun x => k1 x ≫= k2)) w.
Proof.
  unfold mbind, M_bind, bind. destruct (m w) as [[a | e] w']; reflexivity.
Qed.

Lemma ret_bind {A B : Type} (a : A) (k : A -> M B) (w : world) :
  (mret a ≫= k) w = k a w.
Proof. reflexivity. Qed.

Ltac run_norm :=
  repeat first [ rewrite bind_assoc | rewrite ret_bind ]; cbn [heap trace].

Ltac run tac := run_norm; run_with tac; run_norm.

Lemma origin_array_lookup (w : world) (r : ref) (o : ndarray Q) :
  origin_array w (Some r) = Some o ->
  exists oo, heap w !! r = Some oo /\ as_float oo = Some o
             /\ ((exists y, oo = FloatArray y) \/ (exists y, oo = IntArray y)).
Proof.
  unfold origin_array. destruct (heap w !! r) as [[a | a | | |] |]; try discriminate.
  - intros H. eexists. repeat split; eauto.
  - intros H. eexists. repeat split; eauto.
Qed.

Lemma LazyMeshGrid_init_ok (w : world) (cell_ : ref) (c : Cell) (s : Q)
      (origin_ : option ref) (o : ndarray Q) :
  heap w !! cell_ = Some (CellObj c) ->
  ~ s == 0 ->
  origin_array w origin_ = Some o ->
  exists (self : ref) (l : list pyobj),
    LazyMeshGrid_init cell_ s origin_ w
    = (Ok self, World (heap w ++ l) (trace w))
    /\ is_grid (heap w ++ l) self c s (NdArray (1%nat :: arr_shape o) (arr_data o)).
Proof.
  intros Hc Hs Ho. destruct w as [h t].
  enough (exists self H',
             LazyMeshGrid_init cell_ s origin_ (World h t) = (Ok self, World H' t)
             /\ is_grid H' self c s (NdArray (1%nat :: arr_shape o) (arr_data o))
             /\ exists l, H' = h ++ l) as (self & H' & E & G & l & ->)
      by (exists self, l; split; assumption).
  cbn [heap trace] in Hc. unfold LazyMeshGrid_init.
  run_load.
  unfold lengths. destruct c as [rows [[la lb] lc]]. cbn [cell_lengths vec3_list mapM].
  do 3 (run ltac:(now apply arange_ok);
        run ltac:(eapply true_divide_ok; [heap_lookup | reflexivity])).
  cbn [arr_shape arr_data].
  fold (grid_vector_data la s) (grid_vector_data lb s) (grid_vector_data lc s).
  fold (grid_vector_obj la s) (grid_vector_obj lb s) (grid_vector_obj lc s).
  run ltac:(reflexivity).
  run_load. cbn [mapM].
  do 3 (run ltac:(eapply len_float_ok; heap_lookup)).
  run ltac:(reflexivity).
  destruct origin_ as [r |].
  - apply origin_array_lookup in Ho as (oo & Hr & Hoo & Hty). cbn [heap] in Hr.
    run_norm.
    match goal with
    | |- context [np.expand_dims0 r ≫= _] =>
        match goal with
        | |- context [World ?H t] =>
            destruct (expand_dims0_ok (World H t) r oo o) as (o' & E & Ho');
            [cbn [heap]; heap_lookup | assumption | assumption |]
        end
    end.
    run ltac:(exact E).
    eexists _, _. split; [reflexivity |]. split.
    + unfold is_grid. cbn [cell_lengths]. eexists _, _, _, _, o'.
      repeat split; cbn [cell scaled_grid_vectors shape origin];
        try heap_lookup; try assumption.
    + cbn [heap]. rewrite <- !app_assoc. eexists. reflexivity.
  - injection Ho as <-.
    run ltac:(reflexivity).
    match goal with
    | |- context [np.expand_dims0 ?r ≫= _] =>
        match goal with
        | |- context [World ?H t] =>
            destruct (expand_dims0_ok (World H t) r
                        (FloatArray (NdArray [3%nat] [0; 0; 0]))
                        (NdArray [3%nat] [0; 0; 0])) as (o' & E & Ho');
            [cbn [heap]; heap_lookup | left; eexists; reflexivity | reflexivity |]
        end
    end.
    run ltac:(exact E).
    eexists _, _. split; [reflexivity |]. split.
    + unfold is_grid. cbn [cell_lengths]. eexists _, _, _, _, o'.
      repeat split; cbn [cell scaled_grid_vectors shape origin];
        try heap_lookup; try assumption.
    + cbn [heap]. rewrite <- !app_assoc. eexists. reflexivity.
Qed.

Lemma LazyMeshGrid_init_zero_step (w : world) (cell_ : ref) (c : Cell) (s : Q)
      (origin_ : option ref) :
  heap w !! cell_ = Some (CellObj c) -> s == 0 ->
  LazyMeshGrid_init cell_ s origin_ w = (Raise ValueError, w).
Proof.
  intros Hc Hs. unfold LazyMeshGrid_init. run_load.
  unfold lengths. destruct c as [rows [[la lb] lc]]. cbn [cell_lengths vec3_list mapM].
  run_norm. erewrite bind_Raise; [reflexivity |]. now apply arange_zero_step.
Qed.

(** *** Indexing *)

Lemma is_3xN_shape (indices : ndarray Z) :
  is_3xN indices = true <-> exists N, arr_shape indices = [3%nat; N].
Proof.
  unfold is_3xN. destruct indices as [[| a [| b [| ? ?]]] d]; cbn.
  - split; [discriminate | intros [N H]; discriminate].
  - split; [discriminate | intros [N H]; discriminate].
  - rewrite Nat.eqb_eq. split.
    + intros ->. now exists b.
    + intros [N H]. now injection H.
  - split; [discriminate | intros [N H]; discriminate].
Qed.

Lemma LazyMeshGrid_getitem_bad_shape (w : world) (self : ref) (indices : ndarray Z) :
  is_3xN indices = false ->
  LazyMeshGrid_getitem self indices w
  = (Raise NotImplementedError, World (heap w ++ [IntArray indices]) (trace w)).
Proof.
  intros H. unfold LazyMeshGrid_getitem.
  run ltac:(reflexivity). fold (is_3xN indices). now rewrite H.
Qed.

Lemma grid_vector_ok (w : world) (self : ref) (g : LazyMeshGrid)
      (l : list ref) (i : nat) (v : ref) :
  heap w !! self = Some (Instance g) ->
  heap w !! scaled_grid_vectors g = Some (PyList l) ->
  l !! i = Some v ->
  grid_vector self i w = (Ok v, w).
Proof.
  intros Hg Hl Hv. unfold grid_vector.
  rewrite (bind_Ok _ _ _ _ _ (load_instance_ok _ _ _ Hg)).
  rewrite (bind_Ok _ _ _ _ _ (load_list_ok _ _ _ Hl)).
  now rewrite Hv.
Qed.

Lemma Cell_array_shape (c : Cell) :
  exists y, Cell_array c = NdArray [3%nat; 3%nat] y /\ y = arr_data (Cell_array c).
Proof.
  destruct c as [[[a b] c'] ls]. eexists. split; reflexivity.
Qed.

Lemma iadd_broadcast_error (w : world) (a b : ref) (ob : pyobj) (n m : nat)
      (s : list nat) (x y : list Q) :
  heap w !! a = Some (FloatArray (NdArray [n; m] x)) ->
  heap w !! b = Some ob -> as_float ob = Some (NdArray s y) ->
  np.broadcast2 n m s = None ->
  np.iadd a b w = (Raise ValueError, w).
Proof.
  intros Ha Hb Hob Hs. unfold np.iadd.
  rewrite (bind_Ok _ _ _ _ _ (load_ok _ _ _ Ha)).
  rewrite (bind_Ok _ _ _ _ _ (load_float_ok _ _ _ _ Hb Hob)).
  simpl. now rewrite Hs.
Qed.

Lemma insert_snoc (h : list pyobj) (o o' : pyobj) :
  <[length h := o']> (h ++ [o]) = h ++ [o'].
Proof. rewrite insert_app_r_alt by lia. now rewrite Nat.sub_diag. Qed.

Lemma LazyMeshGrid_getitem_ok (w : world) (self : ref) (c : Cell) (s : Q)
      (o : ndarray Q) (N : nat) (d : list Z) (A B C : list Q) (n' m' : nat) :
  is_grid (heap w) self c s o ->
  length d = (3 * N)%nat ->
  mapM (np.index1 (grid_vector_data (cell_lengths c).1.1 s)) (take N (drop (0 * N) d)) = Some A ->
  mapM (np.index1 (grid_vector_data (cell_lengths c).1.2 s)) (take N (drop (1 * N) d)) = Some B ->
  mapM (np.index1 (grid_vector_data (cell_lengths c).2 s)) (take N (drop (2 * N) d)) = Some C ->
  np.broadcast2 N 3 (arr_shape o) = Some (n', m') ->
  exists (r : ref) (l : list pyobj),
    LazyMeshGrid_getitem self (NdArray [3%nat; N] d) w
    = (Ok r, World (heap w ++ l) (trace w))
    /\ (heap w ++ l) !! r
       = Some (FloatArray (NdArray [N; 3%nat]
                 (np.iadd_data N 3 n' m'
                    (np.matmul N 3 3 (np.interleave3 A B C) (arr_data (Cell_array c)))
                    (arr_data o)))).
Proof.
  intros (g & v0 & v1 & v2 & oo & G) Hd HA HB HC Hbc. destruct w as [h t].
  destruct o as [so yo]. cbn [arr_shape arr_data] in *.
  enough (exists r H',
             LazyMeshGrid_getitem self (NdArray [3%nat; N] d) (World h t)
             = (Ok r, World H' t)
             /\ H' !! r = Some (FloatArray (NdArray [N; 3%nat]
                 (np.iadd_data N 3 n' m'
                    (np.matmul N 3 3 (np.interleave3 A B C) (arr_data (Cell_array c)))
                    yo)))
             /\ exists l, H' = h ++ l) as (r & H' & E & G' & l & ->)
      by (exists r, l; split; assumption).
  destruct (cell_lengths c) as [[la lb] lc] eqn:Hlen. cbn [fst snd] in HA, HB, HC.
  cbn [heap] in G.
  destruct G as (H1 & H2 & H3 & H4 & H5 & H6 & H7 & H8 & H9).
  destruct (Cell_array_shape c) as (y & Hy & ->).
  assert (L0 : length (take N (drop (0 * N) d)) = N) by (rewrite length_take, length_drop; lia).
  assert (L1 : length (take N (drop (1 * N) d)) = N) by (rewrite length_take, length_drop; lia).
  assert (L2 : length (take N (drop (2 * N) d)) = N) by (rewrite length_take, length_drop; lia).
  unfold LazyMeshGrid_getitem.
  run ltac:(reflexivity). cbn [arr_shape length nth Nat.eqb andb negb].
  run ltac:(eapply grid_vector_ok; [heap_lookup | heap_lookup | reflexivity]).
  run ltac:(eapply row_ok; [heap_lookup | lia]).
  run ltac:(eapply fancy_index_ok; [heap_lookup | reflexivity | eassumption]).
  run ltac:(eapply grid_vector_ok; [heap_lookup | heap_lookup | reflexivity]).
  run ltac:(eapply row_ok; [heap_lookup | lia]).
  run ltac:(eapply fancy_index_ok; [heap_lookup | reflexivity | eassumption]).
  run ltac:(eapply grid_vector_ok; [heap_lookup | heap_lookup | reflexivity]).
  run ltac:(eapply row_ok; [heap_lookup | lia]).
  run ltac:(eapply fancy_index_ok; [heap_lookup | reflexivity | eassumption]).
  rewrite L0, L1, L2.
  run ltac:(eapply stack3_axis1_ok; heap_lookup).
  run_load.
  run ltac:(eapply dot_ok; [heap_lookup | reflexivity | heap_lookup | cbn [as_float]; f_equal; exact Hy]).
  run_load.
  run ltac:(eapply iadd_ok; [heap_lookup | heap_lookup | eassumption | eassumption]).
  rewrite insert_snoc.
  eexists _, _. split; [reflexivity |]. split.
  - heap_lookup.
  - rewrite <- !app_assoc. eexists. reflexivity.
Qed.

(** *** The outcome of [__getitem__] as a function of cell, step, origin
    and indices *)

Lemma grows_lookup (w w' : world) (r : ref) (o : pyobj) :
  grows w w' -> heap w !! r = Some o -> heap w' !! r = Some o.
Proof. intros [_ [l ->]] H. now apply lookup_app_l_Some. Qed.

Lemma grows_refl (w : world) : grows w w.
Proof. split; [reflexivity | exists []; now rewrite app_nil_r]. Qed.

Lemma grows_trans (w1 w2 w3 : world) : grows w1 w2 -> grows w2 w3 -> grows w1 w3.
Proof.
  intros [T1 [l1 E1]] [T2 [l2 E2]]. split; [congruence |].
  exists (l1 ++ l2). now rewrite E2, E1, app_assoc.
Qed.

Lemma is_grid_grows (w w' : world) (self : ref) (c : Cell) (s : Q) (o : ndarray Q) :
  grows w w' -> is_grid (heap w) self c s o -> is_grid (heap w') self c s o.
Proof. intros [_ [l ->]]. apply is_grid_extend. Qed.

Lemma LazyMeshGrid_getitem_value (w : world) (self : ref) (c : Cell) (s : Q)
      (o : ndarray Q) (indices : ndarray Z) :
  is_grid (heap w) self c s o ->
  ndarray_ok indices ->
  outcome (LazyMeshGrid_getitem self indices) w
  = result_map (fun a => Some (FloatArray a)) (getitem_value c s o indices)
  /\ grows w (LazyMeshGrid_getitem self indices w).2.
Proof.
  intros G Hok. unfold getitem_value.
  destruct (is_3xN indices) eqn:E3; cbn [negb].
  2:{ unfold outcome. rewrite (LazyMeshGrid_getitem_bad_shape _ _ _ E3).
      split; [reflexivity |]. split; [reflexivity | eexists; reflexivity]. }
  apply is_3xN_shape in E3 as [N E3]. destruct indices as [sh d].
  cbn [arr_shape arr_data] in *. subst sh. cbn [nth].
  assert (Hd : length d = (3 * N)%nat).
  { unfold ndarray_ok in Hok. cbn in Hok. lia. }
  pose proof G as (g & v0 & v1 & v2 & oo & G').
  destruct (cell_lengths c) as [[la lb] lc] eqn:Hlen.
  destruct G' as (H1 & H2 & H3 & H4 & H5 & H6 & H7 & H8 & H9).
  destruct (mapM _ (take N (drop (0 * N) d))) as [A |] eqn:HA.
  2:{ assert (E : LazyMeshGrid_getitem self (NdArray [3%nat; N] d) w
                  = (Raise IndexError,
                     World (heap w ++ [IntArray (NdArray [3%nat; N] d)]) (trace w))).
      { unfold LazyMeshGrid_getitem. destruct w as [h t]. cbn [heap] in *.
        run ltac:(reflexivity). cbn [arr_shape length nth Nat.eqb andb negb].
        run ltac:(eapply grid_vector_ok; [heap_lookup | heap_lookup | reflexivity]).
        run ltac:(eapply row_ok; [heap_lookup | lia]).
        erewrite bind_Raise; [reflexivity |].
        eapply fancy_index_out_of_bounds; [heap_lookup | reflexivity | eassumption]. }
      unfold outcome. rewrite E. split; [reflexivity |].
      split; [reflexivity | eexists; reflexivity]. }
  destruct (mapM _ (take N (drop (1 * N) d))) as [B |] eqn:HB.
  2:{ assert (E : exists l, LazyMeshGrid_getitem self (NdArray [3%nat; N] d) w
                  = (Raise IndexError, World (heap w ++ l) (trace w))).
      { unfold LazyMeshGrid_getitem. destruct w as [h t]. cbn [heap] in *.
        run ltac:(reflexivity). cbn [arr_shape length nth Nat.eqb andb negb].
        run ltac:(eapply grid_vector_ok; [heap_lookup | heap_lookup | reflexivity]).
        run ltac:(eapply row_ok; [heap_lookup | lia]).
        run ltac:(eapply fancy_index_ok; [heap_lookup | reflexivity | eassumption]).
        run ltac:(eapply grid_vector_ok; [heap_lookup | heap_lookup | reflexivity]).
        run ltac:(eapply row_ok; [heap_lookup | lia]).
        erewrite bind_Raise;
          [| eapply fancy_index_out_of_bounds; [heap_lookup | reflexivity | eassumption]].
        rewrite <- !app_assoc. eexists. reflexivity. }
      destruct E as [l E]. unfold outcome. rewrite E. split; [reflexivity |].
      split; [reflexivity | eexists; reflexivity]. }
  destruct (mapM _ (take N (drop (2 * N) d))) as [C |] eqn:HC.
  2:{ assert (E : exists l, LazyMeshGrid_getitem self (NdArray [3%nat; N] d) w
                  = (Raise IndexError, World (heap w ++ l) (trace w))).
      { unfold LazyMeshGrid_getitem. destruct w as [h t]. cbn [heap] in *.
        run ltac:(reflexivity). cbn [arr_shape length nth Nat.eqb andb negb].
        run ltac:(eapply grid_vector_ok; [heap_lookup | heap_lookup | reflexivity]).
        run ltac:(eapply row_ok; [heap_lookup | lia]).
        run ltac:(eapply fancy_index_ok; [heap_lookup | reflexivity | eassumption]).
        run ltac:(eapply grid_vector_ok; [heap_lookup | heap_lookup | reflexivity]).
        run ltac:(eapply row_ok; [heap_lookup | lia]).
        run ltac:(eapply fancy_index_ok; [heap_lookup | reflexivity | eassumption]).
        run ltac:(eapply grid_vector_ok; [heap_lookup | heap_lookup | reflexivity]).
        run ltac:(eapply row_ok; [heap_lookup | lia]).
        erewrite bind_Raise;
          [| eapply fancy_index_out_of_bounds; [heap_lookup | reflexivity | eassumption]].
        rewrite <- !app_assoc. eexists. reflexivity. }
      destruct E as [l E]. unfold outcome. rewrite E. split; [reflexivity |].
      split; [reflexivity | eexists; reflexivity]. }
  destruct (np.broadcast2 N 3 (arr_shape o)) as [[n' m'] |] eqn:Hbc.
  - destruct (LazyMeshGrid_getitem_ok w self c s o N d A B C n' m')
      as (r & l & E & Hr); try assumption; try (rewrite Hlen; assumption).
    unfold outcome. rewrite E. cbn [heap result_map]. rewrite Hr.
    split; [reflexivity |]. split; [reflexivity | eexists; reflexivity].
  - assert (E : exists l, LazyMeshGrid_getitem self (NdArray [3%nat; N] d) w
                  = (Raise ValueError, World (heap w ++ l) (trace w))).
    { destruct (Cell_array_shape c) as (y & Hy & ->).
      assert (L0 : length (take N (drop (0 * N) d)) = N)
        by (rewrite length_take, length_drop; lia).
      assert (L1 : length (take N (drop (1 * N) d)) = N)
        by (rewrite length_take, length_drop; lia).
      assert (L2 : length (take N (drop (2 * N) d)) = N)
        by (rewrite length_take, length_drop; lia).
      destruct o as [so yo]. cbn [arr_shape] in Hbc.
      unfold LazyMeshGrid_getitem. destruct w as [h t]. cbn [heap] in *.
      run ltac:(reflexivity). cbn [arr_shape length nth Nat.eqb andb negb].
      run ltac:(eapply grid_vector_ok; [heap_lookup | heap_lookup | reflexivity]).
      run ltac:(eapply row_ok; [heap_lookup | lia]).
      run ltac:(eapply fancy_index_ok; [heap_lookup | reflexivity | eassumption]).
      run ltac:(eapply grid_vector_ok; [heap_lookup | heap_lookup | reflexivity]).
      run ltac:(eapply row_ok; [heap_lookup | lia]).
      run ltac:(eapply fancy_index_ok; [heap_lookup | reflexivity | eassumption]).
      run ltac:(eapply grid_vector_ok; [heap_lookup | heap_lookup | reflexivity]).
      run ltac:(eapply row_ok; [heap_lookup | lia]).
      run ltac:(eapply fancy_index_ok; [heap_lookup | reflexivity | eassumption]).
      rewrite L0, L1, L2.
      run ltac:(eapply stack3_axis1_ok; heap_lookup).
      run_load.
      run ltac:(eapply dot_ok; [heap_lookup | reflexivity | heap_lookup
                               | cbn [as_float]; f_equal; exact Hy]).
      run_load.
      erewrite bind_Raise;
        [| eapply iadd_broadcast_error; [heap_lookup | heap_lookup | eassumption | eassumption]].
      rewrite <- !app_assoc. eexists. reflexivity. }
    destruct E as [l E]. unfold outcome. rewrite E. split; [reflexivity |].
    split; [reflexivity | eexists; reflexivity].
Qed.

(** *** What [__getitem__] may write *)

Lemma reads_ret {A : Type} (a : A) : reads (mret a : M A).
Proof. intros w. reflexivity. Qed.

Lemma reads_raise {A : Type} (e : PyExn) : reads (raise e : M A).
Proof. intros w. reflexivity. Qed.

Lemma reads_load (r : ref) : reads (load r).
Proof. intros w. unfold load. now destruct (heap w !! r). Qed.

Lemma reads_bind {A B : Type} (m : M A) (k : A -> M B) :
  reads m -> (forall a, reads (k a)) -> reads (m ≫= k).
Proof.
  intros Hm Hk w. unfold mbind, M_bind, bind. specialize (Hm w).
  destruct (m w) as [[a | e] w']; cbn in Hm; subst w'; [apply Hk | reflexivity].
Qed.

Lemma reads_cases {A : Type} (m : M A) (w : world) :
  reads m -> exists res, m w = (res, w).
Proof.
  intros H. specialize (H w). destruct (m w) as [res w']. cbn in H. subst.
  now exists res.
Qed.

Ltac solve_reads :=
  repeat first [ apply reads_bind; [| intros ?]
               | apply reads_load | apply reads_ret | apply reads_raise
               | match goal with
                 | |- reads (match ?x with _ => _ end) => destruct x
                 | |- reads (if ?x then _ else _) => destruct x
                 end ].

Lemma reads_load_float (r : ref) : reads (load_float r).
Proof. unfold load_float. solve_reads. Qed.

Lemma reads_load_int (r : ref) : reads (load_int r).
Proof. unfold load_int. solve_reads. Qed.

Lemma reads_load_list (r : ref) : reads (load_list r).
Proof. unfold load_list. solve_reads. Qed.

Lemma reads_load_instance (r : ref) : reads (load_instance r).
Proof. unfold load_instance. solve_reads. Qed.

Lemma reads_grid_vector (self : ref) (i : nat) : reads (grid_vector self i).
Proof.
  unfold grid_vector. apply reads_bind; [apply reads_load_instance | intros g].
  apply reads_bind; [apply reads_load_list | intros l]. solve_reads.
Qed.

Lemma reads_row (a : ref) (i : nat) : reads (np.row a i).
Proof.
  unfold np.row. apply reads_bind; [apply reads_load_int | intros x]. solve_reads.
Qed.

Lemma allocates_alloc (o : pyobj) : allocates (alloc o).
Proof. intros w. right. now exists o. Qed.

Lemma allocates_raise (e : PyExn) : allocates (raise e).
Proof. intros w. left. now exists e. Qed.

Lemma allocates_bind {A : Type} (m : M A) (k : A -> M ref) :
  reads m -> (forall a, allocates (k a)) -> allocates (m ≫= k).
Proof.
  intros Hm Hk w. unfold mbind, M_bind, bind.
  destruct (reads_cases m w Hm) as [[a | e] ->]; [apply Hk | left; now exists e].
Qed.

Ltac solve_allocates :=
  repeat first [ apply allocates_alloc | apply allocates_raise
               | match goal with
                 | |- allocates (match ?x with _ => _ end) => destruct x
                 | |- allocates (if ?x then _ else _) => destruct x
                 end ].

Lemma allocates_fancy_index (v : ref) (idx : list Z) :
  allocates (np.fancy_index v idx).
Proof.
  unfold np.fancy_index. apply allocates_bind; [apply reads_load_float | intros x].
  solve_allocates.
Qed.

Lemma allocates_stack3_axis1 (a b c : ref) : allocates (np.stack3_axis1 a b c).
Proof.
  unfold np.stack3_axis1.
  apply allocates_bind; [apply reads_load_float | intros x].
  apply allocates_bind; [apply reads_load_float | intros y].
  apply allocates_bind; [apply reads_load_float | intros z].
  solve_allocates.
Qed.

Lemma allocates_dot (a b : ref) : allocates (np.dot a b).
Proof.
  unfold np.dot.
  apply allocates_bind; [apply reads_load_float | intros x].
  apply allocates_bind; [apply reads_load_float | intros y].
  solve_allocates.
Qed.

(** [a += b] raises and changes nothing, or overwrites the object at
    [a] and nothing else. *)
Lemma iadd_cases (a b : ref) (w : world) :
  (exists e, np.iadd a b w = (Raise e, w))
  \/ (exists v, np.iadd a b w = (Ok tt, World (<[a := v]> (heap w)) (trace w))).
Proof.
  unfold np.iadd, mbind, M_bind, bind.
  destruct (reads_cases _ w (reads_load a)) as [[o | e] ->]; [| left; eauto].
  destruct (reads_cases _ w (reads_load_float b)) as [[y | e] ->]; [| left; eauto].
  destruct o as [x | | | |]; try (left; eexists; reflexivity).
  destruct (arr_shape x) as [| n [| m [| ? ?]]]; try (left; eexists; reflexivity).
  destruct (np.broadcast2 n m (arr_shape y)) as [[n' m'] |];
    [right | left]; eexists; reflexivity.
Qed.

Lemma appends_reads {A : Type} (m : M A) : reads m -> appends m.
Proof. intros H w. rewrite H. apply grows_refl. Qed.

Lemma appends_allocates (m : M ref) : allocates m -> appends m.
Proof.
  intros H w. destruct (H w) as [[e ->] | [o ->]]; [apply grows_refl |].
  split; [reflexivity | eexists; reflexivity].
Qed.

Lemma appends_bind {A B : Type} (m : M A) (k : A -> M B) :
  appends m -> (forall a, appends (k a)) -> appends (m ≫= k).
Proof.
  intros Hm Hk w. unfold mbind, M_bind, bind. specialize (Hm w).
  destruct (m w) as [[a | e] w']; cbn [snd] in *; [| assumption].
  eapply grows_trans; [eassumption | apply Hk].
Qed.

Lemma updates_bind_reads {A B : Type} (r : ref) (m : M A) (k : A -> M B) :
  reads m -> (forall a, updates r (k a)) -> updates r (m ≫= k).
Proof.
  intros Hm Hk w. unfold mbind, M_bind, bind.
  destruct (reads_cases m w Hm) as [[a | e] ->]; [apply Hk | now left].
Qed.

Lemma updates_iadd {A : Type} (a b : ref) (x : A) :
  updates a (np.iadd a b ≫= fun _ => mret x).
Proof.
  intros w. unfold mbind, M_bind, bind.
  destruct (iadd_cases a b w) as [[e ->] | [v ->]]; [now left | right].
  now exists v.
Qed.

(** Updating in place the object that has just been allocated. *)
Lemma appends_allocates_updates {A : Type} (m : M ref) (k : ref -> M A) :
  allocates m -> (forall r, updates r (k r)) -> appends (m ≫= k).
Proof.
  intros Hm Hk w. unfold mbind, M_bind, bind.
  destruct (Hm w) as [[e ->] | [o ->]]; [apply grows_refl |].
  destruct (Hk (length (heap w)) (World (heap w ++ [o]) (trace w))) as [-> | [v ->]].
  - split; [reflexivity | eexists; reflexivity].
  - cbn [heap trace]. rewrite insert_snoc.
    split; [reflexivity | eexists; reflexivity].
Qed.

(** Whatever the state it is called in and whatever it is given,
    [__getitem__] only appends fresh objects to the heap: the one array it
    updates in place is the array it has just allocated. *)
Lemma LazyMeshGrid_getitem_appends (self : ref) (indices : ndarray Z) :
  appends (LazyMeshGrid_getitem self indices).
Proof.
  unfold LazyMeshGrid_getitem.
  apply appends_bind; [apply appends_allocates, allocates_alloc | intros idx].
  destruct (negb _); [apply appends_reads, reads_raise |].
  do 3 (apply appends_bind; [apply appends_reads, reads_grid_vector | intros ?];
        apply appends_bind; [apply appends_reads, reads_row | intros ?];
        apply appends_bind; [apply appends_allocates, allocates_fancy_index | intros ?]).
  apply appends_bind; [apply appends_allocates, allocates_stack3_axis1 | intros gp].
  apply appends_bind; [apply appends_reads, reads_load_instance | intros g].
  apply appends_allocates_updates; [apply allocates_dot | intros gp'].
  apply updates_bind_reads; [apply reads_load_instance | intros g'].
  apply updates_iadd.
Qed.

(** ** [LazyMeshGrid]: frame, determinism, accepted indices, positions *)

Lemma mapM_lookup_grows (w w' : world) (l : list ref) (vs : list pyobj) :
  grows w w' ->
  mapM (fun v => heap w !! v) l = Some vs ->
  mapM (fun v => heap w' !! v) l = Some vs.
Proof.
  intros Hg. rewrite !mapM_Some. intros H.
  induction H as [| v o l vs Hv _ IH]; constructor; [| assumption].
  eapply grows_lookup; eassumption.
Qed.

Lemma grid_state_grows (w w' : world) (self : ref) (st : GridState) :
  grows w w' -> grid_state w self = Some st -> grid_state w' self = Some st.
Proof.
  intros Hg. unfold grid_state.
  destruct (heap w !! self) as [[| | | | g] |] eqn:Hs; try discriminate.
  rewrite (grows_lookup _ _ _ _ Hg Hs).
  destruct (heap w !! cell g) as [c |] eqn:Hc; [| discriminate].
  rewrite (grows_lookup _ _ _ _ Hg Hc). cbn.
  destruct (heap w !! scaled_grid_vectors g) as [[| | | l |] |] eqn:Hl; try discriminate.
  rewrite (grows_lookup _ _ _ _ Hg Hl).
  destruct (mapM _ l) as [vs |] eqn:Hvs; [| discriminate].
  rewrite (mapM_lookup_grows _ _ _ _ Hg Hvs). cbn.
  destruct (heap w !! shape g) as [sh |] eqn:Hsh; [| discriminate].
  rewrite (grows_lookup _ _ _ _ Hg Hsh). cbn.
  destruct (heap w !! origin g) as [o |] eqn:Ho; [| discriminate].
  rewrite (grows_lookup _ _ _ _ Hg Ho). cbn. trivial.
Qed.

(** C7.  Indexing leaves the grid unchanged: for every state [w] in which
    [self] is a [LazyMeshGrid] and for every [indices], whether the call
    returns or raises, the attributes [cell], [scaled_grid_vectors],
    [shape] and [origin] and the objects they refer to are the same after
    [self[indices]] as before; so is every other object that existed
    before the call. *)
Theorem getitem_leaves_grid_unchanged (w : world) (self : ref)
        (indices : ndarray Z) (st : GridState) :
  grid_state w self = Some st ->
  let w' := (LazyMeshGrid_getitem self indices w).2 in
  grid_state w' self = Some st
  /\ (forall r o, heap w !! r = Some o -> heap w' !! r = Some o)
  /\ trace w' = trace w.
Proof.
  intros Hst w'. pose proof (LazyMeshGrid_getitem_appends self indices w) as Hg.
  fold w' in Hg. split; [| split].
  - eapply grid_state_grows; eassumption.
  - intros r o. now apply grows_lookup.
  - apply Hg.
Qed.

(** C4.  The coordinate transform is deterministic: the outcome of
    [self[indices]] (the array of positions returned, or the exception
    raised) is [getitem_value c grid_step o indices], a function of the
    cell, the step, the origin array and the indices alone.  Hence two
    calls with equal indices, in any two states in which the grid is
    intact (for instance one call after the other), have equal outcomes. *)
Theorem getitem_deterministic (w1 w2 : world) (self1 self2 : ref) (c : Cell)
        (grid_step : Q) (o : ndarray Q) (indices : ndarray Z) :
  is_grid (heap w1) self1 c grid_step o ->
  is_grid (heap w2) self2 c grid_step o ->
  ndarray_ok indices ->
  outcome (LazyMeshGrid_getitem self1 indices) w1
  = outcome (LazyMeshGrid_getitem self2 indices) w2.
Proof.
  intros G1 G2 Hok.
  destruct (LazyMeshGrid_getitem_value w1 self1 c grid_step o indices G1 Hok) as [-> _].
  destruct (LazyMeshGrid_getitem_value w2 self2 c grid_step o indices G2 Hok) as [-> _].
  reflexivity.
Qed.

(** *** From the constructor to the invariant *)

Lemma LazyMeshGrid_init_constructs (w w1 : world) (cell_ : ref) (c : Cell)
      (s : Q) (origin_ : option ref) (o : ndarray Q) (self : ref) :
  heap w !! cell_ = Some (CellObj c) ->
  origin_array w origin_ = Some o ->
  LazyMeshGrid_init cell_ s origin_ w = (Ok self, w1) ->
  ~ s == 0
  /\ grows w w1
  /\ is_grid (heap w1) self c s (NdArray (1%nat :: arr_shape o) (arr_data o)).
Proof.
  intros Hc Ho E.
  assert (Hs : ~ s == 0).
  { intros Hs. rewrite (LazyMeshGrid_init_zero_step _ _ _ _ _ Hc Hs) in E.
    discriminate. }
  destruct (LazyMeshGrid_init_ok w cell_ c s origin_ o Hc Hs Ho) as (self' & l & E' & G).
  rewrite E' in E. injection E as <- <-.
  split; [assumption |].
  split; [split; [reflexivity | eexists; reflexivity] | assumption].
Qed.

(** *** Integer indices *)

Lemma norm_index_nonneg (n : nat) (i : Z) :
  (0 <= i < Z.of_nat n)%Z -> np.norm_index n i = Some (Z.to_nat i).
Proof.
  intros H. unfold np.norm_index.
  destruct (Z.leb_spec 0 i); [| lia]. destruct (Z.ltb_spec i (Z.of_nat n)); [| lia].
  reflexivity.
Qed.

Lemma norm_index_valid (n : nat) (i : Z) :
  valid_index (Z.of_nat n) i ->
  exists k, np.norm_index n i = Some k /\ (k < n)%nat.
Proof.
  intros H. unfold valid_index in H. unfold np.norm_index.
  destruct (Z.leb_spec 0 i); destruct (Z.ltb_spec i (Z.of_nat n)); cbn [andb];
    try (eexists; split; [reflexivity | lia]); try lia.
  - destruct (Z.leb_spec (- Z.of_nat n) i); [| lia].
    destruct (Z.ltb_spec i 0); [| lia]. cbn [andb].
    eexists; split; [reflexivity | lia].
Qed.

Lemma norm_index_invalid (n : nat) (i : Z) :
  ~ valid_index (Z.of_nat n) i -> np.norm_index n i = None.
Proof.
  intros H. unfold valid_index in H. unfold np.norm_index.
  destruct (Z.leb_spec 0 i); destruct (Z.ltb_spec i (Z.of_nat n)); cbn [andb];
    try lia;
    destruct (Z.leb_spec (- Z.of_nat n) i); destruct (Z.ltb_spec i 0); cbn [andb];
    try lia; reflexivity.
Qed.

Lemma index1_valid (v : list Q) (i : Z) :
  valid_index (Z.of_nat (length v)) i -> is_Some (np.index1 v i).
Proof.
  intros H. destruct (norm_index_valid _ _ H) as (k & E & Hk).
  unfold np.index1. rewrite E. cbn. now apply lookup_lt_is_Some.
Qed.

Lemma index1_nonneg (v : list Q) (i : Z) :
  (0 <= i < Z.of_nat (length v))%Z -> np.index1 v i = v !! Z.to_nat i.
Proof. intros H. unfold np.index1. now rewrite norm_index_nonneg. Qed.

Lemma index1_empty (i : Z) : np.index1 [] i = None.
Proof.
  unfold np.index1. rewrite norm_index_invalid; [reflexivity |].
  unfold valid_index. cbn. lia.
Qed.

Lemma mapM_index1_valid (v : list Q) (idx : list Z) :
  Forall (valid_index (Z.of_nat (length v))) idx ->
  is_Some (mapM (np.index1 v) idx).
Proof.
  intros H. apply mapM_is_Some. eapply Forall_impl; [eassumption |].
  intros i Hi. now apply index1_valid.
Qed.

Lemma mapM_index1_empty (idx : list Z) :
  idx <> [] -> mapM (np.index1 []) idx = None.
Proof.
  destruct idx as [| i idx]; [congruence | intros _].
  cbn. now rewrite index1_empty.
Qed.

(** *** The grid vectors *)

Lemma grid_vector_data_length (l s : Q) :
  length (grid_vector_data l s) = np.arange_len 0 l s.
Proof. unfold grid_vector_data. now rewrite length_map, arange_data_length. Qed.

Lemma grid_vector_data_lookup (l s : Q) (i : nat) :
  (i < np.arange_len 0 l s)%nat ->
  grid_vector_data l s !! i = Some ((0 + inject_Z (Z.of_nat i) * s) / l).
Proof.
  intros H. unfold grid_vector_data.
  now rewrite list_lookup_fmap, arange_data_lookup.
Qed.

(** Under the precondition that the length is a multiple of the step, the
    scaled coordinate [index*grid_step/length] is [index/shape]. *)
Lemma scaled_coordinate (l s : Q) (k i : Z) :
  ~ s == 0 -> l == inject_Z k * s ->
  (0 <= i < Z.of_nat (np.arange_len 0 l s))%Z ->
  (0 + inject_Z i * s) / l
  == inject_Z i / inject_Z (Z.of_nat (np.arange_len 0 l s)).
Proof.
  intros Hs Hl Hi. rewrite (arange_len_multiple l s k Hs Hl) in *.
  assert (Hk : (0 < k)%Z) by lia.
  rewrite Z2Nat.id by lia. rewrite Hl.
  assert (Hk' : ~ inject_Z k == 0).
  { intros E. unfold Qeq in E. cbn in E. lia. }
  field. split; assumption.
Qed.

(** *** Rows of flat data *)

Lemma length_flat_map_rows {A : Type} (f : nat -> list A) (m n start : nat) :
  (forall r, length (f r) = m) ->
  length (flat_map f (seq start n)) = (n * m)%nat.
Proof.
  intros Hf. revert start. induction n as [| n IH]; intros start; cbn [seq flat_map].
  - reflexivity.
  - rewrite length_app, Hf, IH. lia.
Qed.

Lemma nth_flat_map_rows {A : Type} (f : nat -> list A) (d : A) (m n : nat) :
  (forall r, length (f r) = m) ->
  forall start r c, (r < n)%nat -> (c < m)%nat ->
  nth (r * m + c) (flat_map f (seq start n)) d = nth c (f (start + r)%nat) d.
Proof.
  intros Hf. induction n as [| n IH]; intros start r c Hr Hc; [lia |].
  cbn [seq flat_map]. destruct r as [| r].
  - rewrite Nat.add_0_r. cbn [Nat.mul Nat.add].
    apply app_nth1. now rewrite Hf.
  - rewrite app_nth2 by (rewrite Hf; lia). rewrite Hf.
    replace (S r * m + c - m)%nat with (r * m + c)%nat by lia.
    rewrite IH by lia. f_equal. f_equal. lia.
Qed.

Lemma iadd_data_length (n m n' m' : nat) (a b : list Q) :
  length (np.iadd_data n m n' m' a b) = (n * m)%nat.
Proof.
  unfold np.iadd_data. apply length_flat_map_rows.
  intros r. now rewrite length_map, length_seq.
Qed.

Lemma broadcast2_row (N : nat) : np.broadcast2 N 3 [1%nat; 3%nat] = Some (1%nat, 3%nat).
Proof. reflexivity. Qed.

Lemma outcome_Ok (m : M ref) (w : world) (o : pyobj) :
  outcome m w = Ok (Some o) ->
  exists r, (m w).1 = Ok r /\ heap (m w).2 !! r = Some o.
Proof.
  unfold outcome. destruct (m w) as [[r | e] w']; [| discriminate].
  intros H. injection H as H. now exists r.
Qed.

Lemma outcome_Raise (m : M ref) (w : world) (e : PyExn) :
  outcome m w = Raise e <-> (m w).1 = Raise e.
Proof.
  unfold outcome. destruct (m w) as [[r | e'] w']; cbn; split; congruence.
Qed.

Lemma getitem_value_in_bounds (c : Cell) (s : Q) (o : ndarray Q)
      (N : nat) (d : list Z) :
  in_bounds (map (fun l => Z.of_nat (np.arange_len 0 l s)) (lengths c) ++ [3%Z])
            (NdArray [3%nat; N] d) ->
  exists A B C,
    mapM (np.index1 (grid_vector_data (cell_lengths c).1.1 s)) (take N (drop (0 * N) d)) = Some A
    /\ mapM (np.index1 (grid_vector_data (cell_lengths c).1.2 s)) (take N (drop (1 * N) d)) = Some B
    /\ mapM (np.index1 (grid_vector_data (cell_lengths c).2 s)) (take N (drop (2 * N) d)) = Some C.
Proof.
  intros H. unfold lengths in H. destruct (cell_lengths c) as [[la lb] lc].
  cbn [vec3_list map app fst snd] in *.
  pose proof (H 0%nat ltac:(lia)) as H0.
  pose proof (H 1%nat ltac:(lia)) as H1.
  pose proof (H 2%nat ltac:(lia)) as H2.
  unfold index_row in H0, H1, H2. cbn [arr_shape arr_data nth] in H0, H1, H2.
  rewrite <- grid_vector_data_length in H0, H1, H2.
  apply mapM_index1_valid in H0 as [A HA].
  apply mapM_index1_valid in H1 as [B HB].
  apply mapM_index1_valid in H2 as [C HC].
  exists A, B, C. auto.
Qed.

(** *** The position of a grid point *)

Lemma interleave3_length (a b c : list Q) :
  length b = length a -> length c = length a ->
  length (np.interleave3 a b c) = (length a * 3)%nat.
Proof.
  revert b c. induction a as [| x a IH]; intros [| y b] [| z c] Hb Hc;
    cbn in *; try lia.
  rewrite IH by lia. lia.
Qed.

Lemma interleave3_nth (a b c : list Q) (n : nat) :
  length b = length a -> length c = length a -> (n < length a)%nat ->
  nth (n * 3 + 0) (np.interleave3 a b c) 0 = nth n a 0
  /\ nth (n * 3 + 1) (np.interleave3 a b c) 0 = nth n b 0
  /\ nth (n * 3 + 2) (np.interleave3 a b c) 0 = nth n c 0.
Proof.
  revert b c n. induction a as [| x a IH]; intros [| y b] [| z c] n Hb Hc Hn;
    cbn [length] in *; try lia.
  destruct n as [| n].
  - cbn. auto.
  - cbn [np.interleave3]. replace (S n * 3 + 0)%nat with (S (S (S (n * 3 + 0)))) by lia.
    replace (S n * 3 + 1)%nat with (S (S (S (n * 3 + 1)))) by lia.
    replace (S n * 3 + 2)%nat with (S (S (S (n * 3 + 2)))) by lia.
    cbn [nth]. apply IH; lia.
Qed.

Lemma matmul_nth (N : nat) (x m : list Q) (n t : nat) :
  (n < N)%nat -> (t < 3)%nat ->
  nth (n * 3 + t) (np.matmul N 3 3 x m) 0
  = 0 + nth (n * 3 + 0) x 0 * nth (0 * 3 + t) m 0
      + nth (n * 3 + 1) x 0 * nth (1 * 3 + t) m 0
      + nth (n * 3 + 2) x 0 * nth (2 * 3 + t) m 0.
Proof.
  intros Hn Ht. unfold np.matmul.
  rewrite (nth_flat_map_rows _ _ 3 N) by
    (try assumption; intros r; unfold np.dot_row; now rewrite length_map, length_seq).
  cbn [Nat.add]. unfold np.dot_row.
  destruct t as [| [| [| t]]]; [reflexivity | reflexivity | reflexivity | lia].
Qed.

Lemma iadd_data_row_nth (N : nat) (x o : list Q) (n t : nat) :
  (n < N)%nat -> (t < 3)%nat ->
  nth (n * 3 + t) (np.iadd_data N 3 1 3 x o) 0
  = nth (n * 3 + t) x 0 + nth t o 0.
Proof.
  intros Hn Ht. unfold np.iadd_data.
  rewrite (nth_flat_map_rows _ _ 3 N) by
    (try assumption; intros r; now rewrite length_map, length_seq).
  cbn [Nat.add].
  destruct t as [| [| [| t]]]; [reflexivity | reflexivity | reflexivity | lia].
Qed.

Lemma mapM_Some_map {A B : Type} (f : A -> option B) (g : A -> B) (l : list A) :
  Forall (fun x => f x = Some (g x)) l -> mapM f l = Some (map g l).
Proof.
  intros H. apply mapM_Some. induction H; constructor; assumption.
Qed.

(** Indexing a grid vector with non-negative indices below its length. *)
Lemma mapM_index1_grid_vector (l s : Q) (idx : list Z) :
  Forall (fun i => (0 <= i < Z.of_nat (np.arange_len 0 l s))%Z) idx ->
  mapM (np.index1 (grid_vector_data l s)) idx
  = Some (map (fun i => (0 + inject_Z i * s) / l) idx).
Proof.
  intros H. apply mapM_Some_map. eapply Forall_impl; [eassumption |].
  intros i Hi. cbn in Hi.
  rewrite index1_nonneg by (rewrite grid_vector_data_length; assumption).
  rewrite grid_vector_data_lookup by lia. now rewrite Z2Nat.id by lia.
Qed.

Lemma nth_map_lt {A : Type} (f : A -> Q) (l : list A) (n : nat) (d : A) :
  (n < length l)%nat -> nth n (map f l) 0 = f (nth n l d).
Proof.
  intros H. rewrite (nth_indep _ 0 (f d)) by (now rewrite length_map).
  apply map_nth.
Qed.

Lemma index_row_length (N : nat) (d : list Z) (t : nat) :
  length d = (3 * N)%nat -> (t < 3)%nat ->
  length (index_row (NdArray [3%nat; N] d) t) = N.
Proof.
  intros Hd Ht. unfold index_row. cbn [arr_shape arr_data nth].
  rewrite length_take, length_drop. nia.
Qed.

(** C1.  For a grid built by the constructor over a cell whose three
    lengths are exact multiples of [grid_step], and an index array
    [indices] of shape 3xN all of whose triples [(i, j, k)] satisfy
    [i < shape[0]], [j < shape[1]], [k < shape[2]], [self[indices]]
    returns an Nx3 array whose row [n] is
    [origin + (i/shape[0], j/shape[1], k/shape[2]) . cell] for the triple
    [(i, j, k)] in column [n] (exact arithmetic, equality of rationals).
    Lengths that are multiples of the step suffice: an axis whose length
    is not positive has no index below its shape entry. *)
Theorem getitem_position (w w1 : world) (cell_ : ref) (c : Cell)
        (grid_step : Q) (origin_ : option ref) (ov : vec3) (self : ref) :
  heap w !! cell_ = Some (CellObj c) ->
  origin_array w origin_ = Some (NdArray [3%nat] (vec3_list ov)) ->
  LazyMeshGrid_init cell_ grid_step origin_ w = (Ok self, w1) ->
  Forall (fun l => exists k : Z, l == inject_Z k * grid_step) (lengths c) ->
  forall (w2 : world) (indices : ndarray Z) (N : nat) (nx ny nz : Z),
    grows w1 w2 ->
    ndarray_ok indices ->
    arr_shape indices = [3%nat; N] ->
    grid_shape w2 self = Some [nx; ny; nz; 3%Z] ->
    Forall (fun i => (0 <= i < nx)%Z) (index_row indices 0) ->
    Forall (fun j => (0 <= j < ny)%Z) (index_row indices 1) ->
    Forall (fun k => (0 <= k < nz)%Z) (index_row indices 2) ->
    exists (r : ref) (data : list Q),
      (LazyMeshGrid_getitem self indices w2).1 = Ok r
      /\ heap (LazyMeshGrid_getitem self indices w2).2 !! r
         = Some (FloatArray (NdArray [N; 3%nat] data))
      /\ forall n, (n < N)%nat ->
           let '(i, j, k) := column indices n in
           vec3_eq (row3 data n)
                   (vec3_add ov
                      (vec3_matmul (fraction i nx, fraction j ny, fraction k nz)
                                   (cell_rows c))).
Proof.
  intros Hc Ho E Hmul w2 indices N nx ny nz Hg Hok Hsh Hgs H0 H1 H2.
  destruct (LazyMeshGrid_init_constructs _ _ _ _ _ _ _ _ Hc Ho E) as (Hs & Hg1 & G).
  cbn [arr_shape arr_data] in G.
  apply (is_grid_grows _ _ _ _ _ _ Hg) in G.
  rewrite (is_grid_shape _ _ _ _ _ G) in Hgs.
  destruct indices as [sh d]. cbn [arr_shape] in Hsh. subst sh.
  assert (Hd : length d = (3 * N)%nat).
  { unfold ndarray_ok in Hok. cbn in Hok. lia. }
  pose proof (index_row_length N d 0 Hd ltac:(lia)) as L0.
  pose proof (index_row_length N d 1 Hd ltac:(lia)) as L1.
  pose proof (index_row_length N d 2 Hd ltac:(lia)) as L2.
  unfold column.
  set (R0 := index_row (NdArray [3%nat; N] d) 0) in *.
  set (R1 := index_row (NdArray [3%nat; N] d) 1) in *.
  set (R2 := index_row (NdArray [3%nat; N] d) 2) in *.
  unfold lengths in Hgs, Hmul.
  destruct c as [[[[[ax ay] az] [[bx by_] bz]] [[cx cy] cz]] [[la lb] lc]].
  cbn [cell_lengths vec3_list map app cell_rows] in *.
  injection Hgs as <- <- <-.
  apply Forall_cons in Hmul as [[ka Hka] Hmul].
  apply Forall_cons in Hmul as [[kb Hkb] Hmul].
  apply Forall_cons in Hmul as [[kc Hkc] _].
  pose proof (mapM_index1_grid_vector la grid_step R0 H0) as HA.
  pose proof (mapM_index1_grid_vector lb grid_step R1 H1) as HB.
  pose proof (mapM_index1_grid_vector lc grid_step R2 H2) as HC.
  destruct (LazyMeshGrid_getitem_ok w2 self _ grid_step _ N d _ _ _ 1 3 G Hd HA HB HC
              (broadcast2_row N)) as (r & l & Eg & Hr).
  rewrite Eg. cbn [fst snd heap]. exists r. eexists. split; [reflexivity |].
  split; [exact Hr |].
  intros n Hn. destruct ov as [[ox oy] oz]. unfold row3.
  rewrite !iadd_data_row_nth, !matmul_nth by lia.
  edestruct (interleave3_nth
               (map (fun i : Z => (0 + inject_Z i * grid_step) / la) R0)
               (map (fun i : Z => (0 + inject_Z i * grid_step) / lb) R1)
               (map (fun i : Z => (0 + inject_Z i * grid_step) / lc) R2) n)
    as (-> & -> & ->); rewrite ?length_map; try lia.
  rewrite (nth_map_lt _ R0 n 0%Z), (nth_map_lt _ R1 n 0%Z), (nth_map_lt _ R2 n 0%Z) by lia.
  assert (B0 : (0 <= nth n R0 0 < Z.of_nat (np.arange_len 0 la grid_step))%Z)
    by (apply (proj1 (List.Forall_nth _ R0) H0); lia).
  assert (B1 : (0 <= nth n R1 0 < Z.of_nat (np.arange_len 0 lb grid_step))%Z)
    by (apply (proj1 (List.Forall_nth _ R1) H1); lia).
  assert (B2 : (0 <= nth n R2 0 < Z.of_nat (np.arange_len 0 lc grid_step))%Z)
    by (apply (proj1 (List.Forall_nth _ R2) H2); lia).
  pose proof (scaled_coordinate la grid_step ka _ Hs Hka B0) as S0.
  pose proof (scaled_coordinate lb grid_step kb _ Hs Hkb B1) as S1.
  pose proof (scaled_coordinate lc grid_step kc _ Hs Hkc B2) as S2.
  cbn [vec3_add vec3_matmul vec3_eq nth Nat.mul Nat.add Cell_array cell_rows
       arr_data vec3_list app].
  unfold fraction. rewrite S0, S1, S2.
  repeat split; ring.
Qed.

(** *** Accepted indices, and the positions they are answered with *)

Lemma broadcast2_origin (N k : nat) :
  np.broadcast2 N 3 [1%nat; k]
  = if (k =? 1)%nat || (k =? 3)%nat then Some (1%nat, k) else None.
Proof. reflexivity. Qed.

Lemma iadd_data_origin_nth (N k : nat) (x o : list Q) (n t : nat) :
  (n < N)%nat -> (t < 3)%nat ->
  nth (n * 3 + t) (np.iadd_data N 3 1 k x o) 0
  = nth (n * 3 + t) x 0 + nth (if (k =? 1)%nat then 0%nat else t) o 0.
Proof.
  intros Hn Ht. unfold np.iadd_data.
  rewrite (nth_flat_map_rows _ _ 3 N) by
    (try assumption; intros r; now rewrite length_map, length_seq).
  cbn [Nat.add].
  destruct t as [| [| [| t]]]; [| | | lia]; cbn; destruct (k =? 1)%nat; reflexivity.
Qed.

Lemma mapM_index1_nth (v : list Q) (idx : list Z) (A : list Q) (n : nat) :
  mapM (np.index1 v) idx = Some A -> (n < length idx)%nat ->
  length A = length idx /\ np.index1 v (nth n idx 0%Z) = Some (nth n A 0).
Proof.
  intros H Hn. apply mapM_Some in H.
  pose proof (Forall2_length _ _ _ H) as HL. split; [now symmetry |].
  destruct (lookup_lt_is_Some_2 idx n Hn) as [x Hx].
  destruct (lookup_lt_is_Some_2 A n ltac:(lia)) as [y Hy].
  rewrite (nth_lookup_Some _ _ 0%Z _ Hx), (nth_lookup_Some _ _ 0 _ Hy).
  exact (Forall2_lookup_lr _ idx A n x y H Hx Hy).
Qed.

Lemma broadcast2_origin_coordinates (N : nat) (o : ndarray Q) :
  np.broadcast2 N 3 (1%nat :: arr_shape o)
  = match origin_coordinates o with
    | Some k => Some (1%nat, k)
    | None => None
    end.
Proof.
  unfold origin_coordinates. destruct (arr_shape o) as [| k [| k' sh]]; try reflexivity.
  rewrite broadcast2_origin. now destruct ((k =? 1)%nat || (k =? 3)%nat).
Qed.

(** C6.  [__getitem__] raises [NotImplementedError] exactly when
    [indices] is not a two-dimensional array whose first dimension is 3,
    whatever the origin of the grid.  For a 3xN array whose entries are
    all in bounds it returns an Nx3 array whose row [n] is the position of
    column [n] of [indices]: for the index triple [(i, j, k)] of the
    column, [origin + (A[i], B[j], C[k]) . cell] with [A], [B], [C] the
    scaled grid vectors of the three axes, negative indices counting from
    the end.  This holds for a grid whose origin has three coordinates or
    one (or is a scalar); with any other origin the call raises
    [ValueError].  (Stated for a grid built by the constructor, in any
    later state [w2] in which the objects of the grid are intact.) *)
Theorem getitem_accepts_exactly_3xN (w w1 : world) (cell_ : ref) (c : Cell)
        (grid_step : Q) (origin_ : option ref) (o : ndarray Q) (self : ref) :
  heap w !! cell_ = Some (CellObj c) ->
  origin_array w origin_ = Some o ->
  LazyMeshGrid_init cell_ grid_step origin_ w = (Ok self, w1) ->
  forall (w2 : world) (indices : ndarray Z),
    grows w1 w2 -> ndarray_ok indices ->
    ((LazyMeshGrid_getitem self indices w2).1 = Raise NotImplementedError
     <-> ~ exists N, arr_shape indices = [3%nat; N])
    /\ (forall (N : nat) (sh : list Z),
          arr_shape indices = [3%nat; N] ->
          grid_shape w2 self = Some sh ->
          in_bounds sh indices ->
          match origin_coordinates o with
          | Some k =>
            exists (r : ref) (data : list Q),
              (LazyMeshGrid_getitem self indices w2).1 = Ok r
              /\ heap (LazyMeshGrid_getitem self indices w2).2 !! r
                 = Some (FloatArray (NdArray [N; 3%nat] data))
              /\ length data = (N * 3)%nat
              /\ forall n, (n < N)%nat ->
                   let '(i, j, k') := column indices n in
                   let '(la, lb, lc) := cell_lengths c in
                   exists x y z : Q,
                     np.index1 (grid_vector_data la grid_step) i = Some x
                     /\ np.index1 (grid_vector_data lb grid_step) j = Some y
                     /\ np.index1 (grid_vector_data lc grid_step) k' = Some z
                     /\ vec3_eq (row3 data n)
                                (vec3_add (origin_row k (arr_data o))
                                          (vec3_matmul (x, y, z) (cell_rows c)))
          | None => (LazyMeshGrid_getitem self indices w2).1 = Raise ValueError
          end).
Proof.
  intros Hc Ho E w2 indices Hg Hok.
  destruct (LazyMeshGrid_init_constructs _ _ _ _ _ _ _ _ Hc Ho E) as (Hs & Hg1 & G).
  apply (is_grid_grows _ _ _ _ _ _ Hg) in G.
  destruct (LazyMeshGrid_getitem_value w2 self c grid_step _ indices G Hok) as [Hv _].
  split.
  - rewrite <- outcome_Raise, Hv, <- is_3xN_shape. unfold getitem_value.
    destruct (is_3xN indices); cbn [negb result_map].
    + split; [| congruence]. destruct (cell_lengths c) as [[la lb] lc].
      repeat (match goal with
              | |- context [match ?x with _ => _ end] => destruct x
              end; cbn [result_map]); discriminate.
    + split; [congruence | reflexivity].
  - intros N sh Hsh Hgs Hb.
    rewrite (is_grid_shape _ _ _ _ _ G) in Hgs. injection Hgs as <-.
    destruct indices as [sh' d]. cbn [arr_shape] in Hsh. subst sh'.
    assert (Hd : length d = (3 * N)%nat).
    { unfold ndarray_ok in Hok. cbn in Hok. lia. }
    destruct (getitem_value_in_bounds c grid_step
                (NdArray (1%nat :: arr_shape o) (arr_data o)) N d Hb)
      as (A & B & C & HA & HB & HC).
    unfold getitem_value in Hv.
    assert (E3 : is_3xN (NdArray [3%nat; N] d) = true) by (apply is_3xN_shape; eauto).
    rewrite E3 in Hv. cbn [negb arr_shape arr_data nth] in Hv.
    destruct c as [[[[[ax ay] az] [[bx by_] bz]] [[cx cy] cz]] [[la lb] lc]].
    cbn [cell_lengths cell_rows fst snd] in *.
    rewrite HA, HB, HC, broadcast2_origin_coordinates in Hv.
    destruct (origin_coordinates o) as [k |]; cbn [result_map] in Hv;
      [| now apply outcome_Raise].
    apply outcome_Ok in Hv as (r & Hr1 & Hr2).
    exists r. eexists. split; [exact Hr1 |]. split; [exact Hr2 |].
    split; [apply iadd_data_length |].
    intros n Hn. unfold column.
    pose proof (index_row_length N d 0 Hd ltac:(lia)) as L0.
    pose proof (index_row_length N d 1 Hd ltac:(lia)) as L1.
    pose proof (index_row_length N d 2 Hd ltac:(lia)) as L2.
    change (take N (drop (0 * N) d)) with (index_row (NdArray [3%nat; N] d) 0) in HA.
    change (take N (drop (1 * N) d)) with (index_row (NdArray [3%nat; N] d) 1) in HB.
    change (take N (drop (2 * N) d)) with (index_row (NdArray [3%nat; N] d) 2) in HC.
    destruct (mapM_index1_nth _ _ _ n HA ltac:(lia)) as [LA IA].
    destruct (mapM_index1_nth _ _ _ n HB ltac:(lia)) as [LB IB].
    destruct (mapM_index1_nth _ _ _ n HC ltac:(lia)) as [LC IC].
    exists (nth n A 0), (nth n B 0), (nth n C 0).
    split; [exact IA |]. split; [exact IB |]. split; [exact IC |].
    unfold row3, origin_row.
    rewrite !iadd_data_origin_nth, !matmul_nth by lia.
    destruct (interleave3_nth A B C n) as (-> & -> & ->); try lia.
    cbn [vec3_add vec3_matmul vec3_eq nth Nat.mul Nat.add Cell_array cell_rows
         arr_data vec3_list app].
    repeat split; ring.
Qed.

(** *** An axis without grid points *)

Lemma arange_len_nonpos_length (c : Cell) (s : Q) (t : nat) :
  Cell_ok c \/ 0 < s ->
  (t < 3)%nat -> nth t (lengths c) 0 <= 0 ->
  np.arange_len 0 (nth t (lengths c) 0) s = 0%nat.
Proof.
  intros [Hok | Hs] Ht Hl; [| now apply arange_nonpos_stop].
  apply arange_zero_stop. apply Qle_antisym; [assumption |].
  unfold Cell_ok, lengths in *.
  destruct c as [[[[[ax ay] az] [[bx by_] bz]] [[cx cy] cz]] [[la lb] lc]].
  cbn [cell_rows cell_lengths norm_of vec3_list] in *.
  destruct Hok as ((Ha & _) & (Hb & _) & (Hc & _)).
  destruct t as [| [| [| t]]]; cbn [nth]; (assumption || lia).
Qed.

Lemma grid_vector_data_empty (l s : Q) :
  np.arange_len 0 l s = 0%nat -> grid_vector_data l s = [].
Proof.
  intros H. apply length_zero_iff_nil. now rewrite grid_vector_data_length.
Qed.

Lemma is_grid_state (w : world) (self : ref) (c : Cell) (s : Q) (o : ndarray Q) :
  is_grid (heap w) self c s o ->
  exists st, grid_state w self = Some st
             /\ (gs_scaled_grid_vectors st).2
                = map (fun l => grid_vector_obj l s) (lengths c).
Proof.
  intros (g & v0 & v1 & v2 & oo & G). unfold lengths.
  destruct (cell_lengths c) as [[la lb] lc].
  destruct G as (H1 & H2 & H3 & H4 & H5 & H6 & H7 & H8 & H9).
  unfold grid_state. rewrite H1, H2. cbn. rewrite H3. cbn.
  rewrite H4, H5, H6. cbn. rewrite H7, H8. cbn.
  eexists. split; reflexivity.
Qed.

(** C3.  The grid indexer fails if a grid dimension is not positive: when
    the cell of a grid has a non-positive length on axis [t], the grid
    vector of that axis is empty and [shape[t]] is 0, and [self[indices]]
    raises [IndexError] for every 3xN index array with at least one
    column, whatever its entries.  (Cell lengths are norms, [Cell_ok]; the
    statement also holds for any cell when the step is positive.) *)
Theorem getitem_fails_on_empty_axis (w w1 : world) (cell_ : ref) (c : Cell)
        (grid_step : Q) (origin_ : option ref) (o : ndarray Q) (self : ref)
        (t : nat) :
  heap w !! cell_ = Some (CellObj c) ->
  origin_array w origin_ = Some o ->
  LazyMeshGrid_init cell_ grid_step origin_ w = (Ok self, w1) ->
  Cell_ok c \/ 0 < grid_step ->
  (t < 3)%nat ->
  nth t (lengths c) 0 <= 0 ->
  forall w2 : world,
    grows w1 w2 ->
    (exists st, grid_state w2 self = Some st
                /\ (gs_scaled_grid_vectors st).2 !! t
                   = Some (FloatArray (NdArray [0%nat] [])))
    /\ (exists sh, grid_shape w2 self = Some sh /\ sh !! t = Some 0%Z)
    /\ forall (indices : ndarray Z) (N : nat),
         ndarray_ok indices ->
         arr_shape indices = [3%nat; N] ->
         (0 < N)%nat ->
         (LazyMeshGrid_getitem self indices w2).1 = Raise IndexError.
Proof.
  intros Hc Ho E Hcs Ht Hl w2 Hg.
  destruct (LazyMeshGrid_init_constructs _ _ _ _ _ _ _ _ Hc Ho E) as (Hs & Hg1 & G).
  apply (is_grid_grows _ _ _ _ _ _ Hg) in G.
  pose proof (arange_len_nonpos_length c grid_step t Hcs Ht Hl) as Hlen.
  pose proof (grid_vector_data_empty _ _ Hlen) as Hempty.
  split; [| split].
  - destruct (is_grid_state _ _ _ _ _ G) as (st & Hst & Hvs).
    exists st. split; [assumption |]. rewrite Hvs. unfold lengths in *.
    destruct (cell_lengths c) as [[la lb] lc]. cbn [vec3_list map nth] in *.
    destruct t as [| [| [| t]]]; [| | | lia]; cbn [nth] in *; cbn;
      unfold grid_vector_obj; now rewrite Hlen, Hempty.
  - rewrite (is_grid_shape _ _ _ _ _ G). eexists. split; [reflexivity |].
    unfold lengths in *.
    destruct (cell_lengths c) as [[la lb] lc]. cbn [vec3_list map nth app] in *.
    destruct t as [| [| [| t]]]; [| | | lia]; cbn [nth] in *; cbn; now rewrite Hlen.
  - intros indices N Hok Hsh HN.
    destruct (LazyMeshGrid_getitem_value w2 self c grid_step _ indices G Hok) as [Hv _].
    apply outcome_Raise. rewrite Hv. unfold getitem_value.
    assert (E3 : is_3xN indices = true) by (apply is_3xN_shape; eauto).
    rewrite E3. cbn [negb]. rewrite Hsh. cbn [nth].
    assert (Hd : length (arr_data indices) = (3 * N)%nat).
    { unfold ndarray_ok in Hok. rewrite Hsh in Hok. cbn in Hok. lia. }
    assert (Hrow : forall u, (u < 3)%nat ->
                             take N (drop (u * N) (arr_data indices)) <> []).
    { intros u Hu Hnil. apply (f_equal length) in Hnil.
      rewrite length_take, length_drop in Hnil. cbn in Hnil. nia. }
    unfold lengths in *.
    destruct (cell_lengths c) as [[la lb] lc]. cbn [vec3_list nth] in *.
    destruct t as [| [| [| t]]]; [| | | lia]; cbn [nth] in *; rewrite Hempty.
    + rewrite (mapM_index1_empty _ (Hrow 0%nat ltac:(lia))). reflexivity.
    + destruct (mapM _ (take N (drop (0 * N) _))); [| reflexivity].
      rewrite (mapM_index1_empty _ (Hrow 1%nat ltac:(lia))). reflexivity.
    + destruct (mapM _ (take N (drop (0 * N) _))); [| reflexivity].
      destruct (mapM _ (take N (drop (1 * N) _))); [| reflexivity].
      rewrite (mapM_index1_empty _ (Hrow 2%nat ltac:(lia))). reflexivity.
Qed.

Lemma lift_bind {A B : Type} (r : result A) (k : A -> M B) (w : world) :
  (lift r ≫= k) w = match r with
                    | Ok a => k a w
                    | Raise e => (Raise e, w)
                    end.
Proof. destruct r; reflexivity. Qed.

Lemma Qceiling_nonneg (x : Q) : 0 <= x -> (0 <= Qceiling x)%Z.
Proof.
  intros H. rewrite Zle_Qle. eapply Qle_trans; [exact H | apply Qle_ceiling].
Qed.

(** ** [load_molecule]: cell lengths and grid sizes *)

Section LoadMoleculeGrid.

Variable ase_io_read : string -> result Atoms.
Variable center : Q -> Atoms -> Atoms.
Variable cell_angles : Cell -> vec3.
Variable cellpar_to_cell : vec3 -> vec3 -> Cell.

(** Cell lengths are norms. *)
Hypothesis center_Cell_ok :
  forall vacuum atoms, Cell_ok (atoms_cell (center vacuum atoms)).

(** The cell built from lengths [a], [b], [c] and three angles has
    vectors of lengths [a], [b], [c]. *)
Hypothesis cellpar_lengths :
  forall abc angles,
    Forall (Qle 0) (vec3_list abc) ->
    vec3_eq (cell_lengths (cellpar_to_cell abc angles)) abc.

(** In exact arithmetic [ceil_float x step_size] is the least multiple of
    [step_size] that is at least [x], for every [x] and every positive
    [step_size]; and a molecule [load_molecule] returns has, for a centred
    cell of lengths [a], [b], [c], the cell lengths
    [ceil(a/grid_step) * grid_step], ... and a grid of exactly
    [ceil(a/grid_step)], ... points along its axes.  On binary64 numbers
    the second part fails, see [ceil_float_binary64_extra_grid_point]. *)
Lemma ceil_float_exact_grid_lengths (grid_step : Q) :
  0 < grid_step ->
  (forall x : Q,
      exists (y : Q) (k : Z),
        ceil_float x grid_step = Ok y
        /\ y = inject_Z k * grid_step
        /\ x <= y
        /\ forall k' : Z, x <= inject_Z k' * grid_step -> y <= inject_Z k' * grid_step)
  /\ (forall (atomspath : string) (vacuum : Q) (w w' : world) (md : MoleculeDict),
         load_molecule ase_io_read center cell_angles cellpar_to_cell
                       atomspath vacuum grid_step w = (Ok md, w') ->
         exists atoms : Atoms,
           ase_io_read atomspath = Ok atoms
           /\ let '(a, b, c) := cell_lengths (atoms_cell (center vacuum atoms)) in
              let na := Qceiling (a / grid_step) in
              let nb := Qceiling (b / grid_step) in
              let nc := Qceiling (c / grid_step) in
              vec3_eq (cell_lengths (atoms_cell (md_atoms md)))
                      (inject_Z na * grid_step, inject_Z nb * grid_step,
                       inject_Z nc * grid_step)
              /\ grid_shape w' (md_grid_position md) = Some [na; nb; nc; 3%Z]).
Proof.
  intros Hs.
  assert (Hs0 : ~ grid_step == 0).
  { intros E. rewrite E in Hs. now apply Qlt_irrefl in Hs. }
  split.
  - intros x. exists (inject_Z (Qceiling (x / grid_step)) * grid_step),
                     (Qceiling (x / grid_step)).
    split; [now apply ceil_float_Ok |]. split; [reflexivity |].
    split; [now apply ceil_float_ge |]. intros k'. now apply ceil_float_least.
  - intros atomspath vacuum w w' md E. unfold load_molecule in E.
    rewrite lift_bind in E. destruct (ase_io_read atomspath) as [atoms |]; [| discriminate].
    exists atoms. split; [reflexivity |].
    rewrite lift_bind in E.
    destruct (positions_extent (positions atoms)) as [diff |]; [| discriminate].
    pose proof (center_Cell_ok vacuum atoms) as Hok.
    set (atoms1 := center vacuum atoms) in *.
    unfold Cell_ok in Hok.
    destruct (cell_rows (atoms_cell atoms1)) as [[ra rb] rc].
    destruct (cell_lengths (atoms_cell atoms1)) as [[a b] c].
    destruct ra as [[? ?] ?], rb as [[? ?] ?], rc as [[? ?] ?].
    destruct Hok as ((Ha & _) & (Hb & _) & (Hc & _)).
    do 3 (rewrite ceil_float_Ok, lift_bind in E by assumption).
    set (na := Qceiling (a / grid_step)) in *.
    set (nb := Qceiling (b / grid_step)) in *.
    set (nc := Qceiling (c / grid_step)) in *.
    assert (Hna : (0 <= na)%Z)
      by (apply Qceiling_nonneg, Qle_shift_div_l; [assumption | now rewrite Qmult_0_l]).
    assert (Hnb : (0 <= nb)%Z)
      by (apply Qceiling_nonneg, Qle_shift_div_l; [assumption | now rewrite Qmult_0_l]).
    assert (Hnc : (0 <= nc)%Z)
      by (apply Qceiling_nonneg, Qle_shift_div_l; [assumption | now rewrite Qmult_0_l]).
    set (cell1 := cellpar_to_cell _ _) in E.
    assert (Hlen : vec3_eq (cell_lengths cell1)
                     (inject_Z na * grid_step, inject_Z nb * grid_step,
                      inject_Z nc * grid_step)).
    { apply cellpar_lengths. cbn [vec3_list].
      repeat constructor; apply Qmult_le_0_compat;
        try (now apply Qlt_le_weak); now rewrite <- (Zle_Qle 0). }
    destruct w as [h t].
    revert E. run ltac:(reflexivity). run ltac:(reflexivity). intros E.
    match type of E with
    | context [(LazyMeshGrid_init ?r _ _ ≫= _) ?W] =>
        destruct (LazyMeshGrid_init_ok W r cell1 grid_step None
                    (NdArray [3%nat] [0; 0; 0])) as (self & l & Ei & G);
          [cbn [heap set_cell atoms_cell]; heap_lookup | assumption | reflexivity |]
    end.
    revert E. run ltac:(exact Ei). intros E.
    injection E as <- <-. cbn [md_atoms md_grid_position set_cell atoms_cell].
    split; [exact Hlen |].
    etransitivity; [eapply (is_grid_shape (World _ t)); exact G |].
    unfold lengths.
    destruct (cell_lengths cell1) as [[la lb] lc]. cbn [vec3_eq] in Hlen.
    destruct Hlen as (Ea & Eb & Ec). cbn [vec3_list map app].
    rewrite (arange_len_multiple la grid_step na Hs0 Ea).
    rewrite (arange_len_multiple lb grid_step nb Hs0 Eb).
    rewrite (arange_len_multiple lc grid_step nc Hs0 Ec).
    now rewrite !Z2Nat.id by assumption.
Qed.

End LoadMoleculeGrid.

(** *** The same code on binary64 numbers *)

#[local] Set Warnings "-inexact-float".

(** C5.  On binary64 numbers the code does not do what the claim says.
    With the step 0.05 of the dimer cells, [ceil_float(10.06, 0.05)]
    takes the 202 steps that exact arithmetic takes, but the product
    [202 * 0.05] is rounded up to 10.100000000000001, which lies strictly
    between 202 and 203 steps and is no multiple of the step.  The grid
    vector [np.arange(0, 10.100000000000001, 0.05)] of the constructor
    then has 203 points where the claim has 202, and the last of them,
    scaled by the length, is 1.0: a point on the far face of the cell. *)
Theorem ceil_float_binary64_extra_grid_point :
  binary64.ceil_float 10.06 0.05 = Ok 10.100000000000001%float
  /\ ceil_float (binary64.to_Q 10.06) (binary64.to_Q 0.05)
     = Ok (inject_Z 202 * binary64.to_Q 0.05)
  /\ inject_Z 202 * binary64.to_Q 0.05 < binary64.to_Q 10.100000000000001
  /\ binary64.to_Q 10.100000000000001 < inject_Z 203 * binary64.to_Q 0.05
  /\ (10.100000000000001 / 0.05)%float = 202.00000000000003%float
  /\ binary64.arange_len 0 10.100000000000001 0.05 = Ok 203%nat
  /\ exists v : list float,
       binary64.grid_vector 10.100000000000001 0.05 = Ok v
       /\ length v = 203%nat
       /\ last v = Some 1%float.
Proof.
  repeat split; try (vm_compute; reflexivity).
  eexists. split; [vm_compute; reflexivity |]. split; vm_compute; reflexivity.
Qed.

(** [ceil_float] on binary64 numbers: a result below its argument, a
    result that a second call changes, a negative step that rounds up,
    and the exceptions of [math.ceil]. *)
Example example_binary64_ceil_float :
  binary64.ceil_float 0.45000000000000007 0.05 = Ok 0.45000000000000001%float
  /\ binary64.ceil_float 0.15 0.05 = Ok 0.15000000000000002%float
  /\ binary64.ceil_float 0.15000000000000002 0.05 = Ok 0.2%float
  /\ binary64.ceil_float 1.7 (-0.05) = Ok 1.7000000000000002%float
  /\ binary64.ceil_float 1e308 0.5 = Raise OverflowError
  /\ binary64.ceil_float 2 0 = Raise OverflowError
  /\ binary64.ceil_float 0 0 = Raise ValueError.
Proof. repeat split; vm_compute; reflexivity. Qed.

(** ** The element filter of the embedding loop *)

Section EmbeddingFilter.

Context {Mol : Type}.
Variable GetAtomSymbols : Mol -> list string.
Variable GetNumHeavyAtoms : Mol -> nat.
Variable AddHs : Mol -> Mol.
Variable EmbedMolecule : Mol -> Mol.
Variable MMFFOptimizeMolecule : Mol -> result Mol.

Local Abbreviation embed_loop' :=
  (embed_loop GetAtomSymbols GetNumHeavyAtoms AddHs EmbedMolecule
              MMFFOptimizeMolecule).

Lemma py_in_elem (x : string) (l : list string) : In x l -> py_in x l = true.
Proof.
  intros H. unfold py_in. apply existsb_exists. exists x.
  split; [assumption | apply String.eqb_refl].
Qed.

Lemma any_map_false {A : Type} (f : A -> bool) (l : list A) :
  (forall x, In x l -> f x = false) -> any (map f l) = false.
Proof.
  intros H. unfold any. induction l as [| x l IH]; [reflexivity |].
  cbn. rewrite (H x) by now left. apply IH. intros y Hy. apply H. now right.
Qed.

Lemma has_not_allowed_atoms_false (mol : Mol) (allowed_elements : list string) :
  has_not_allowed_atoms GetAtomSymbols mol allowed_elements = false.
Proof.
  unfold has_not_allowed_atoms. rewrite any_map_false; [reflexivity |].
  intros x Hx. now rewrite py_in_elem.
Qed.

Lemma embed_loop_keeps (smi : list (option Mol)) (acc out : list Mol) (u : Mol) :
  embed_loop' smi acc = Ok out -> In u acc -> In u out.
Proof.
  revert acc. induction smi as [| [i |] smi IH]; intros acc E Hu; cbn [embed_loop] in E.
  - now injection E as <-.
  - destruct (30 <? GetNumHeavyAtoms i)%nat; [eauto |].
    rewrite has_not_allowed_atoms_false in E.
    destruct (MMFFOptimizeMolecule _) as [u' | []]; try discriminate; eauto.
    apply (IH _ E). apply in_or_app. now left.
  - discriminate.
Qed.

(** C9.  [has_not_allowed_atoms] returns [False] for every molecule and
    every list of allowed elements: it tests the allowed elements
    against the list they come from and never looks at [symbols].  So
    the embedding loop excludes no molecule for its elements: whenever
    the loop completes, every molecule of [smi] with at most 30 heavy
    atoms whose optimisation returns is in [embed_mols], whatever its
    atoms. *)
Theorem has_not_allowed_atoms_never_filters :
  (forall (mol : Mol) (allowed_elements : list string),
      has_not_allowed_atoms GetAtomSymbols mol allowed_elements = false)
  /\ (forall (smi : list (option Mol)) (embed_mols : list Mol) (i u : Mol),
         embed_loop' smi [] = Ok embed_mols ->
         In (Some i) smi ->
         (GetNumHeavyAtoms i <= 30)%nat ->
         MMFFOptimizeMolecule (EmbedMolecule (AddHs i)) = Ok u ->
         In u embed_mols).
Proof.
  split; [apply has_not_allowed_atoms_false |].
  intros smi. generalize (@nil Mol).
  induction smi as [| [j |] smi IH]; intros acc out i u E Hi Hn Hopt.
  - destruct Hi.
  - cbn [embed_loop] in E. destruct Hi as [Hi | Hi].
    + injection Hi as ->.
      destruct (Nat.ltb_spec 30 (GetNumHeavyAtoms i)); [lia |].
      rewrite has_not_allowed_atoms_false, Hopt in E.
      eapply embed_loop_keeps; [exact E |]. apply in_or_app. right. now left.
    + destruct (30 <? GetNumHeavyAtoms j)%nat; [eauto |].
      rewrite has_not_allowed_atoms_false in E.
      destruct (MMFFOptimizeMolecule _) as [u' | []]; try discriminate; eauto.
  - discriminate.
Qed.

End EmbeddingFilter.

(** ** The cube-generation loops *)

(** *** Row-major order and slices *)

Lemma flat_map_ext_In {A B : Type} (f g : A -> list B) (l : list A) :
  (forall a, In a l -> f a = g a) -> flat_map f l = flat_map g l.
Proof.
  intros H. induction l as [| a l IH]; [reflexivity |].
  cbn. rewrite (H a) by now left. f_equal. apply IH. intros b Hb. apply H. now right.
Qed.

Lemma map_seq_shift {A : Type} (f : nat -> A) (a n : nat) :
  map f (seq a n) = map (fun r => f (a + r)%nat) (seq 0 n).
Proof.
  rewrite <- (Nat.add_0_r a) at 1. rewrite <- fmap_add_seq.
  now rewrite <- list_fmap_compose.
Qed.

Lemma map_seq_blocks {A : Type} (f : nat -> A) (n m : nat) :
  map f (seq 0 (n * m))
  = flat_map (fun i => map (fun r => f (i * m + r)%nat) (seq 0 m)) (seq 0 n).
Proof.
  induction n as [| n IH]; [reflexivity |].
  replace (S n * m)%nat with (n * m + m)%nat by lia.
  rewrite seq_app, map_app, IH, seq_S, flat_map_app. cbn [flat_map Nat.add].
  rewrite app_nil_r. f_equal. apply map_seq_shift.
Qed.

Lemma unravel_index_block (ny nz i j k : nat) :
  (j < ny)%nat -> (k < nz)%nat ->
  unravel_index ny nz (i * (ny * nz) + (j * nz + k)) = (i, j, k).
Proof.
  intros Hj Hk. unfold unravel_index.
  assert (Hjk : (j * nz + k < ny * nz)%nat) by nia.
  f_equal; [f_equal |].
  - rewrite Nat.div_add_l by lia. rewrite (Nat.div_small _ _ Hjk). lia.
  - replace (i * (ny * nz) + (j * nz + k))%nat with ((i * ny + j) * nz + k)%nat by lia.
    rewrite Nat.div_add_l by lia. rewrite (Nat.div_small _ _ Hk), Nat.add_0_r.
    rewrite Nat.add_comm, Nat.Div0.mod_add. now apply Nat.mod_small.
  - replace (i * (ny * nz) + (j * nz + k))%nat with (k + (i * ny + j) * nz)%nat by lia.
    rewrite Nat.Div0.mod_add. now apply Nat.mod_small.
Qed.

(** Unravelling the flat indices [0, 1, ...] walks the grid in row-major
    order. *)
Lemma unravel_index_row_major (nx ny nz : nat) :
  map (unravel_index ny nz) (seq 0 (nx * ny * nz)) = row_major nx ny nz.
Proof.
  rewrite <- Nat.mul_assoc, map_seq_blocks. unfold row_major.
  apply flat_map_ext. intros i.
  rewrite map_seq_blocks. apply flat_map_ext_In. intros j Hj.
  apply map_ext_in. intros k Hk.
  apply in_seq in Hj, Hk. apply unravel_index_block; lia.
Qed.

(** The slices, one after the other, are the flat indices [0 .. n-1]. *)
Lemma slices_concat_upto (pc n m : nat) :
  concat (map (slice_flat_indices pc n) (seq 0 m)) = seq 0 (Nat.min (m * pc) n).
Proof.
  induction m as [| m IH]; [reflexivity |].
  rewrite seq_S, map_app, concat_app, IH. cbn [map concat Nat.add].
  rewrite app_nil_r. unfold slice_flat_indices.
  destruct (Nat.le_gt_cases (m * pc) n) as [H | H].
  - rewrite (Nat.min_l (m * pc) n) by assumption.
    rewrite <- (Nat.add_0_l (m * pc)) at 2. rewrite <- seq_app. f_equal. lia.
  - rewrite (Nat.min_r (m * pc) n) by lia.
    replace (Nat.min ((m + 1) * pc) n - m * pc)%nat with 0%nat by lia.
    cbn [seq]. rewrite app_nil_r. f_equal. lia.
Qed.

Lemma num_slices_covers (pc n : nat) :
  (0 < pc)%nat -> (n <= num_slices pc n * pc)%nat.
Proof.
  intros Hpc. unfold num_slices.
  pose proof (Nat.div_mod_eq (n + pc - 1) pc) as E.
  pose proof (Nat.mod_upper_bound (n + pc - 1) pc ltac:(lia)) as Hm. nia.
Qed.

Lemma slices_concat (pc n : nat) :
  (0 < pc)%nat ->
  concat (map (slice_flat_indices pc n) (seq 0 (num_slices pc n))) = seq 0 n.
Proof.
  intros Hpc. rewrite slices_concat_upto. f_equal.
  apply Nat.min_r. now apply num_slices_covers.
Qed.

Lemma concat_map_map {A B C : Type} (f : B -> C) (g : A -> list B) (l : list A) :
  concat (map (fun a => map f (g a)) l) = map f (concat (map g l)).
Proof.
  induction l as [| a l IH]; [reflexivity |]. cbn. now rewrite IH, map_app.
Qed.

(** The slices of the iterator, one after the other, are the grid in
    row-major order (x slowest, z fastest). *)
Lemma grid_slices_row_major (pc nx ny nz : nat) :
  (0 < pc)%nat -> concat (grid_slices pc nx ny nz) = row_major nx ny nz.
Proof.
  intros Hpc. unfold grid_slices.
  rewrite (concat_map_map (unravel_index ny nz)
             (slice_flat_indices pc (nx * ny * nz))).
  rewrite slices_concat by assumption. apply unravel_index_row_major.
Qed.

Lemma unravel_index_bounds (nx ny nz f : nat) :
  (f < nx * ny * nz)%nat ->
  let '(i, j, k) := unravel_index ny nz f in
  (i < nx)%nat /\ (j < ny)%nat /\ (k < nz)%nat.
Proof.
  intros Hf. unfold unravel_index.
  assert (Hy : (0 < ny)%nat) by nia. assert (Hz : (0 < nz)%nat) by nia.
  split; [| split].
  - apply Nat.Div0.div_lt_upper_bound. nia.
  - apply Nat.mod_upper_bound. lia.
  - apply Nat.mod_upper_bound. lia.
Qed.

Lemma slice_flat_indices_bound (pc n s f : nat) :
  In f (slice_flat_indices pc n s) -> (f < n)%nat.
Proof. unfold slice_flat_indices. rewrite in_seq. lia. Qed.

(** *** Running the iterator and the loops *)

Lemma index_array_ok (l : list (nat * nat * nat)) : ndarray_ok (index_array l).
Proof.
  unfold ndarray_ok, index_array. cbn. rewrite !length_app, !length_map. lia.
Qed.

Lemma index_array_rows (l : list (nat * nat * nat)) :
  index_row (index_array l) 0 = map (fun p => Z.of_nat p.1.1) l
  /\ index_row (index_array l) 1 = map (fun p => Z.of_nat p.1.2) l
  /\ index_row (index_array l) 2 = map (fun p => Z.of_nat p.2) l.
Proof.
  unfold index_row, index_array. cbn [arr_shape arr_data nth].
  set (a := map (fun p => Z.of_nat p.1.1) l).
  set (b := map (fun p => Z.of_nat p.1.2) l).
  set (c := map (fun p => Z.of_nat p.2) l).
  assert (La : length a = length l) by apply length_map.
  assert (Lb : length b = length l) by apply length_map.
  assert (Lc : length c = length l) by apply length_map.
  repeat split.
  - cbn [Nat.mul drop]. rewrite <- La. apply take_app_length.
  - rewrite Nat.mul_1_l, <- La, drop_app_length, La, <- Lb. apply take_app_length.
  - replace (2 * length l)%nat with (length (a ++ b)) by (rewrite length_app; lia).
    rewrite app_assoc, drop_app_length. rewrite <- Lc. apply firstn_all.
Qed.

Lemma index_array_in_bounds (nx ny nz : nat) (l : list (nat * nat * nat)) :
  Forall (fun p => (p.1.1 < nx)%nat /\ (p.1.2 < ny)%nat /\ (p.2 < nz)%nat) l ->
  in_bounds [Z.of_nat nx; Z.of_nat ny; Z.of_nat nz; 3%Z] (index_array l).
Proof.
  intros H t Ht. destruct (index_array_rows l) as (E0 & E1 & E2).
  destruct t as [| [| [| t]]]; [rewrite E0 | rewrite E1 | rewrite E2 | lia];
    cbn [nth]; apply Forall_map; (eapply Forall_impl; [exact H |]);
    intros p (H0 & H1 & H2); unfold valid_index; cbn; lia.
Qed.

(** For indices in bounds and an origin of three coordinates,
    [__getitem__] returns. *)
Lemma LazyMeshGrid_getitem_returns (w : world) (self : ref) (c : Cell) (s : Q)
      (ov : list Q) (indices : ndarray Z) :
  is_grid (heap w) self c s (NdArray [1%nat; 3%nat] ov) ->
  ndarray_ok indices ->
  (exists N, arr_shape indices = [3%nat; N]) ->
  in_bounds (map (fun l => Z.of_nat (np.arange_len 0 l s)) (lengths c) ++ [3%Z])
            indices ->
  exists (r : ref) (pos : ndarray Q) (w' : world),
    LazyMeshGrid_getitem self indices w = (Ok r, w')
    /\ grows w w'
    /\ heap w' !! r = Some (FloatArray pos)
    /\ getitem_value c s (NdArray [1%nat; 3%nat] ov) indices = Ok pos.
Proof.
  intros G Hok [N Hsh] Hb.
  destruct (LazyMeshGrid_getitem_value w self c s _ indices G Hok) as [Hv Hg].
  destruct indices as [sh d]. cbn [arr_shape] in Hsh. subst sh.
  destruct (getitem_value_in_bounds c s (NdArray [1%nat; 3%nat] ov) N d Hb)
    as (A & B & C & HA & HB & HC).
  assert (Ev : exists pos, getitem_value c s (NdArray [1%nat; 3%nat] ov)
                                         (NdArray [3%nat; N] d) = Ok pos).
  { unfold getitem_value.
    assert (E3 : is_3xN (NdArray [3%nat; N] d) = true) by (apply is_3xN_shape; eauto).
    rewrite E3. cbn [negb arr_shape arr_data nth].
    destruct (cell_lengths c) as [[la lb] lc]. cbn [fst snd] in HA, HB, HC.
    rewrite HA, HB, HC, broadcast2_row. eauto. }
  destruct Ev as [pos Ev]. rewrite Ev in Hv. cbn [result_map] in Hv.
  unfold outcome in Hv.
  destruct (LazyMeshGrid_getitem self (NdArray [3%nat; N] d) w) as [[r | e] w'];
    [| discriminate].
  injection Hv as Hv. exists r, pos, w'. auto.
Qed.

Lemma emit_run (e : event) (w : world) :
  emit e w = (Ok tt, World (heap w) (trace w ++ [e])).
Proof. reflexivity. Qed.

Lemma heap_grows_refl (w : world) : heap_grows w w.
Proof. exists []. now rewrite app_nil_r. Qed.

Lemma heap_grows_trans (w1 w2 w3 : world) :
  heap_grows w1 w2 -> heap_grows w2 w3 -> heap_grows w1 w3.
Proof.
  intros [l1 E1] [l2 E2]. exists (l1 ++ l2). now rewrite E2, E1, app_assoc.
Qed.

Lemma molecule_ok_heap_grows (w w' : world) (dd : MoleculeDict) (c : Cell)
      (s : Q) (ov : list Q) (od : ndarray Q) :
  heap_grows w w' -> molecule_ok w dd c s ov od -> molecule_ok w' dd c s ov od.
Proof.
  intros [l E] [G (oo & Ho & Hoo)]. split.
  - rewrite E. now apply is_grid_extend.
  - exists oo. split; [| assumption]. rewrite E. now apply lookup_app_l_Some.
Qed.

Section CubeLoopsRun.

Context {Graph ProbeGraph ProbeBatch Repr : Type}.
Variable collate_fn : list MoleculeDict -> Graph.
Variable atom_model : Graph -> Repr.
Variable probes_to_graph : Atoms -> ndarray Q -> Q -> ProbeGraph.
Variable collate_list_of_dicts : list ProbeGraph -> ProbeBatch.
Variable probe_model : Graph -> ProbeBatch -> Repr -> list Q.
Variable cutoff : Q.
Variable writable : string -> bool.

Lemma grid_shape3_ok (w : world) (dd : MoleculeDict) (c : Cell) (s : Q)
      (o : ndarray Q) :
  is_grid (heap w) (md_grid_position dd) c s o ->
  grid_shape3 dd w
  = (Ok [Z.of_nat (grid_dims c s).1.1; Z.of_nat (grid_dims c s).1.2;
         Z.of_nat (grid_dims c s).2], w).
Proof.
  intros (g & v0 & v1 & v2 & oo & G). unfold grid_dims.
  destruct (cell_lengths c) as [[la lb] lc].
  destruct G as (H1 & H2 & H3 & H4 & H5 & H6 & H7 & H8 & H9).
  unfold grid_shape3.
  rewrite (bind_Ok _ _ _ _ _ (load_instance_ok _ _ _ H1)).
  rewrite (bind_Ok _ _ _ _ _ (load_int_ok _ _ _ H7)). reflexivity.
Qed.

Lemma num_positions_dims (nx ny nz : nat) :
  Z.to_nat (fold_right Z.mul 1%Z [Z.of_nat nx; Z.of_nat ny; Z.of_nat nz])
  = (nx * ny * nz)%nat.
Proof. cbn [fold_right]. lia. Qed.

Lemma DensityGridIterator_next_ok (w : world) (dd : MoleculeDict) (c : Cell)
      (s : Q) (ov : list Q) (pc slice_index nx ny nz : nat) :
  is_grid (heap w) (md_grid_position dd) c s (NdArray [1%nat; 3%nat] ov) ->
  grid_dims c s = (nx, ny, nz) ->
  exists (pos : ndarray Q) (w' : world),
    DensityGridIterator_next probes_to_graph dd pc cutoff slice_index w
    = (Ok (probes_to_graph (md_atoms dd) pos cutoff), w')
    /\ grows w w'
    /\ getitem_value c s (NdArray [1%nat; 3%nat] ov)
         (index_array (map (unravel_index ny nz)
                           (slice_flat_indices pc (nx * ny * nz) slice_index)))
       = Ok pos.
Proof.
  intros G Hdims. pose proof (grid_shape3_ok w dd c s _ G) as Hsh.
  pose proof (fun idx => LazyMeshGrid_getitem_returns w _ c s ov idx G) as Hget.
  rewrite Hdims in Hsh. cbn [fst snd] in Hsh.
  unfold grid_dims in Hdims. unfold lengths in Hget.
  destruct (cell_lengths c) as [[la lb] lc]. cbn [vec3_list map app] in Hget.
  injection Hdims as Hx Hy Hz. rewrite Hx, Hy, Hz in Hget.
  set (slice := map (unravel_index ny nz) _).
  destruct (Hget (index_array slice)) as (r & pos & w' & E & Hg & Hr & Hv).
  { apply index_array_ok. }
  { eexists. reflexivity. }
  { apply index_array_in_bounds. subst slice. apply Forall_map.
    apply Forall_forall. intros f Hf. apply list_elem_of_In in Hf.
    apply slice_flat_indices_bound in Hf.
    pose proof (unravel_index_bounds nx ny nz f Hf) as Hb.
    destruct (unravel_index ny nz f) as [[i j] k]. exact Hb. }
  exists pos, w'. split; [| split; assumption].
  unfold DensityGridIterator_next.
  rewrite (bind_Ok _ _ _ _ _ Hsh). cbn [nth].
  rewrite num_positions_dims, !Nat2Z.id. fold slice.
  rewrite (bind_Ok _ _ _ _ _ E).
  rewrite (bind_Ok _ _ _ _ _ (load_float_ok _ _ _ _ Hr eq_refl)).
  reflexivity.
Qed.

Lemma predict_slice_run (path : string) (repr : Repr)
      (db : @DeviceBatch Graph ProbeBatch) (pg : ProbeGraph) (w : world) :
  predict_slice collate_list_of_dicts probe_model path repr db pg w
  = (Ok (db.1, Some (collate_list_of_dicts [pg])),
     World (heap w)
           (trace w ++ [EvWrite path
                          (map (Qmult bohr2angp3)
                               (probe_model db.1 (collate_list_of_dicts [pg]) repr))])).
Proof. reflexivity. Qed.

Lemma predict_slices_loop (dd : MoleculeDict) (path : string) (c : Cell)
      (s : Q) (ov : list Q) (nx ny nz : nat) (idxs : list nat) :
  grid_dims c s = (nx, ny, nz) ->
  forall (w : world) (probe : option ProbeBatch),
    is_grid (heap w) (md_grid_position dd) c s (NdArray [1%nat; 3%nat] ov) ->
    exists (db' : @DeviceBatch Graph ProbeBatch) (w' : world) (writes : list event),
      for_fold idxs
        (fun device_batch slice_index =>
           probe_graph_dict ←
             DensityGridIterator_next probes_to_graph dd 1000 cutoff slice_index;
           predict_slice collate_list_of_dicts probe_model path
                         (atom_model (collate_fn [dd])) device_batch
                         probe_graph_dict)
        (collate_fn [dd], probe) w
      = (Ok db', w')
      /\ heap_grows w w'
      /\ trace w' = trace w ++ writes
      /\ Forall2 (write_event collate_fn atom_model probes_to_graph
                              collate_list_of_dicts probe_model cutoff
                              path dd c s ov)
                 (map (fun i => map (unravel_index ny nz)
                                    (slice_flat_indices 1000 (nx * ny * nz) i))
                      idxs)
                 writes.
Proof.
  intros Hdims.
  induction idxs as [| i idxs IH]; intros w probe G.
  - exists (collate_fn [dd], probe), w, []. cbn [for_fold map].
    split; [reflexivity |]. split; [apply heap_grows_refl |].
    split; [now rewrite app_nil_r | constructor].
  - destruct (DensityGridIterator_next_ok w dd c s ov 1000 i nx ny nz G Hdims)
      as (pos & w1 & E1 & Hg1 & Hv).
    cbn [for_fold]. run_norm. rewrite (bind_Ok _ _ _ _ _ E1).
    rewrite (bind_Ok _ _ _ _ _ (predict_slice_run _ _ _ _ _)). cbn [fst].
    match goal with
    | |- context [for_fold idxs _ _ ?W] =>
        destruct (IH W (Some (collate_list_of_dicts
                                [probes_to_graph (md_atoms dd) pos cutoff])))
          as (db' & w' & writes & E & Hg & Ht & Hw)
    end.
    { cbn [heap]. eapply is_grid_grows; eassumption. }
    eexists db', w', (_ :: writes). split; [exact E |].
    split; [| split].
    + destruct Hg1 as [_ [l1 E1']]. destruct Hg as [l E']. cbn [heap] in E'.
      exists (l1 ++ l). now rewrite E', E1', app_assoc.
    + rewrite Ht. cbn [trace]. destruct Hg1 as [-> _].
      rewrite <- app_assoc. reflexivity.
    + cbn [map]. constructor; [| exact Hw]. exists pos. split; [exact Hv |].
      reflexivity.
Qed.

End CubeLoopsRun.

Lemma for_each_app {A : Type} (l1 l2 : list A) (body : A -> M unit) (w w1 : world) :
  for_each l1 body w = (Ok tt, w1) ->
  for_each (l1 ++ l2) body w = for_each l2 body w1.
Proof.
  revert w. induction l1 as [| x l1 IH]; intros w E; cbn [for_each app] in *.
  - now injection E as <-.
  - unfold mbind, M_bind, bind in *.
    destruct (body x w) as [[[] | e] w']; [| discriminate]. now apply IH.
Qed.

(** *** The protocol of the two loops *)

Section CubeLoopsProtocol.

Context {Graph ProbeGraph ProbeBatch Repr : Type}.
Variable collate_fn : list MoleculeDict -> Graph.
Variable atom_model : Graph -> Repr.
Variable probes_to_graph : Atoms -> ndarray Q -> Q -> ProbeGraph.
Variable collate_list_of_dicts : list ProbeGraph -> ProbeBatch.
Variable probe_model : Graph -> ProbeBatch -> Repr -> list Q.
Variable cutoff : Q.
Variable writable : string -> bool.

Local Abbreviation sugbench_body' :=
  (sugbench_body collate_fn atom_model probes_to_graph collate_list_of_dicts
                 probe_model cutoff writable).
Local Abbreviation dimer_body' :=
  (dimer_body collate_fn atom_model probes_to_graph collate_list_of_dicts
              probe_model cutoff writable).
Local Abbreviation sugbench_loop' :=
  (sugbench_loop collate_fn atom_model probes_to_graph collate_list_of_dicts
                 probe_model cutoff writable).
Local Abbreviation dimer_loop' :=
  (dimer_loop collate_fn atom_model probes_to_graph collate_list_of_dicts
              probe_model cutoff writable).
Local Abbreviation write_event' :=
  (write_event collate_fn atom_model probes_to_graph collate_list_of_dicts
               probe_model cutoff).
Local Abbreviation cube_protocol' :=
  (cube_protocol collate_fn atom_model probes_to_graph collate_list_of_dicts
                 probe_model cutoff).

Lemma CubeWriter_ok (w : world) (path : string) (atoms : Atoms) (sh : list Z)
      (origin_ : ref) (comment : string) (oo : pyobj) (od : ndarray Q) :
  heap w !! origin_ = Some oo -> as_float oo = Some od ->
  writable path = true ->
  CubeWriter writable path atoms sh origin_ comment w
  = (Ok path, World (heap w)
                    (trace w ++ [EvCubeWriter path atoms sh (arr_data od) comment])).
Proof.
  intros Ho Hoo Hw. unfold CubeWriter.
  rewrite (bind_Ok _ _ _ _ _ (load_float_ok _ _ _ _ Ho Hoo)). now rewrite Hw.
Qed.

Lemma CubeWriter_unwritable (w : world) (path : string) (atoms : Atoms)
      (sh : list Z) (origin_ : ref) (comment : string) :
  writable path = false ->
  exists e, CubeWriter writable path atoms sh origin_ comment w = (Raise e, w)
            /\ (is_Some (heap w !! origin_ ≫= as_float) -> e = OSError).
Proof.
  intros Hw. unfold CubeWriter, mbind at 1, M_bind, bind.
  destruct (load_float origin_ w) as [[o | e] w1] eqn:E.
  - pose proof (reads_load_float origin_ w) as Hr. rewrite E in Hr. cbn in Hr.
    subst w1. rewrite Hw. exists OSError. split; [reflexivity | trivial].
  - pose proof (reads_load_float origin_ w) as Hr. rewrite E in Hr. cbn in Hr.
    subst w1. exists e. split; [reflexivity |]. intros [a Ha].
    unfold load_float, load, mbind, M_bind, bind in E.
    destruct (heap w !! origin_) as [oo |]; [| discriminate].
    cbn in Ha. rewrite Ha in E. discriminate.
Qed.

Lemma reads_grid_shape3 (dd : MoleculeDict) : reads (grid_shape3 dd).
Proof.
  unfold grid_shape3. apply reads_bind; [apply reads_load_instance | intros g].
  apply reads_bind; [apply reads_load_int | intros sh]. apply reads_ret.
Qed.

(** The part the two loop bodies share, run on a molecule whose grid is
    intact and whose cube path is writable; [K] is the rest of the
    body. *)
Lemma cube_body_events (w : world) (path : string) (dd : MoleculeDict)
      (c : Cell) (s : Q) (ov : list Q) (od : ndarray Q) (nx ny nz : nat) :
  molecule_ok w dd c s ov od ->
  grid_dims c s = (nx, ny, nz) ->
  writable path = true ->
  exists (db' : @DeviceBatch Graph ProbeBatch) (w' : world) (writes : list event),
    (forall (B : Type) (K : @DeviceBatch Graph ProbeBatch -> M B),
        (sh ← grid_shape3 dd;
         cubewriter ← CubeWriter writable path (md_atoms dd) sh (md_origin dd)
                                 "predicted by DeepDFT model";
         db ← predict_slices probes_to_graph collate_list_of_dicts probe_model
                             cutoff dd cubewriter (atom_model (collate_fn [dd]))
                             (collate_fn [dd], None);
         K db) w
        = K db' w')
    /\ heap_grows w w'
    /\ trace w'
       = trace w
         ++ [EvCubeWriter path (md_atoms dd)
               [Z.of_nat nx; Z.of_nat ny; Z.of_nat nz] (arr_data od)
               "predicted by DeepDFT model"]
         ++ writes
    /\ Forall2 (write_event' path dd c s ov) (grid_slices 1000 nx ny nz) writes.
Proof.
  intros [G (oo & Ho & Hoo)] Hdims Hw.
  pose proof (grid_shape3_ok w dd c s _ G) as Hsh.
  rewrite Hdims in Hsh. cbn [fst snd] in Hsh.
  pose proof (CubeWriter_ok w path (md_atoms dd)
                [Z.of_nat nx; Z.of_nat ny; Z.of_nat nz] (md_origin dd)
                "predicted by DeepDFT model" oo od Ho Hoo Hw) as Hcw.
  set (w1 := World (heap w) _) in Hcw.
  pose proof (grid_shape3_ok w1 dd c s _ G) as Hsh'.
  rewrite Hdims in Hsh'. cbn [fst snd] in Hsh'.
  destruct (predict_slices_loop collate_fn atom_model probes_to_graph
              collate_list_of_dicts probe_model cutoff dd path c s ov nx ny nz
              (seq 0 (num_slices 1000 (nx * ny * nz))) Hdims w1 None G)
    as (db' & w' & writes & E & Hg & Ht & Hf).
  exists db', w', writes. split; [| split; [exact Hg | split; [| exact Hf]]].
  - intros B K.
    rewrite (bind_Ok _ _ _ _ _ Hsh), (bind_Ok _ _ _ _ _ Hcw).
    unfold predict_slices, DensityGridIterator_slices.
    rewrite !bind_assoc, (bind_Ok _ _ _ _ _ Hsh'), num_positions_dims, ret_bind.
    now rewrite (bind_Ok _ _ _ _ _ E).
  - rewrite Ht. subst w1. cbn [trace]. now rewrite <- app_assoc.
Qed.

Lemma sugbench_body_ok (w : world) (i : string) (dd : MoleculeDict)
      (c : Cell) (s : Q) (ov : list Q) (od : ndarray Q) (nx ny nz : nat) :
  molecule_ok w dd c s ov od ->
  grid_dims c s = (nx, ny, nz) ->
  writable ("./cube/" ++ i ++ ".deepdft.cube") = true ->
  exists (w' : world) (writes : list event),
    sugbench_body' i dd w = (Ok tt, w')
    /\ heap_grows w w'
    /\ trace w'
       = trace w
         ++ [EvPrint ("processing " ++ i)]
         ++ [EvCubeWriter ("./cube/" ++ i ++ ".deepdft.cube") (md_atoms dd)
               [Z.of_nat nx; Z.of_nat ny; Z.of_nat nz] (arr_data od)
               "predicted by DeepDFT model"]
         ++ writes
         ++ [EvAseWrite ("./cube/" ++ i ++ ".xyz") (md_atoms dd);
             EvPrint "-- DONE"]
    /\ Forall2 (write_event' ("./cube/" ++ i ++ ".deepdft.cube") dd c s ov)
               (grid_slices 1000 nx ny nz) writes.
Proof.
  intros Hok Hdims Hw. unfold sugbench_body.
  rewrite (bind_Ok _ _ _ _ _ (emit_run _ _)).
  destruct (cube_body_events (World (heap w) (trace w ++ [EvPrint ("processing " ++ i)]))
              ("./cube/" ++ i ++ ".deepdft.cube") dd c s ov od nx ny nz)
    as (db' & w' & writes & E & Hg & Ht & Hf);
    [exact Hok | exact Hdims | exact Hw |].
  cbn [fst snd heap trace] in *.
  rewrite E. rewrite (bind_Ok _ _ _ _ _ (emit_run _ _)), emit_run. cbn [heap trace].
  eexists _, writes. split; [reflexivity |]. split; [| split; [| exact Hf]].
  - exact Hg.
  - cbn [trace]. rewrite Ht. rewrite <- !app_assoc. reflexivity.
Qed.

Lemma dimer_body_ok (w : world) (i : string) (dd : MoleculeDict)
      (c : Cell) (s : Q) (ov : list Q) (od : ndarray Q) (nx ny nz : nat) :
  molecule_ok w dd c s ov od ->
  grid_dims c s = (nx, ny, nz) ->
  writable ("./dimers/" ++ i ++ ".cube") = true ->
  exists (w' : world) (writes : list event),
    dimer_body' i dd w = (Ok tt, w')
    /\ heap_grows w w'
    /\ trace w'
       = trace w
         ++ [EvPrint ("processing " ++ i)]
         ++ [EvCubeWriter ("./dimers/" ++ i ++ ".cube") (md_atoms dd)
               [Z.of_nat nx; Z.of_nat ny; Z.of_nat nz] (arr_data od)
               "predicted by DeepDFT model"]
         ++ writes
         ++ [EvPrint "-- DONE"]
    /\ Forall2 (write_event' ("./dimers/" ++ i ++ ".cube") dd c s ov)
               (grid_slices 1000 nx ny nz) writes.
Proof.
  intros Hok Hdims Hw. unfold dimer_body.
  rewrite (bind_Ok _ _ _ _ _ (emit_run _ _)).
  destruct (cube_body_events (World (heap w) (trace w ++ [EvPrint ("processing " ++ i)]))
              ("./dimers/" ++ i ++ ".cube") dd c s ov od nx ny nz)
    as (db' & w' & writes & E & Hg & Ht & Hf);
    [exact Hok | exact Hdims | exact Hw |].
  cbn [fst snd heap trace] in *.
  rewrite E. rewrite emit_run. cbn [heap trace].
  eexists _, writes. split; [reflexivity |]. split; [| split; [| exact Hf]].
  - exact Hg.
  - cbn [trace]. rewrite Ht. rewrite <- !app_assoc. reflexivity.
Qed.

Lemma dimer_loop_ok (w0 : world) (dimer : list (string * MoleculeDict)) :
  Forall (fun '(i, dd) =>
            (exists c s ov od, molecule_ok w0 dd c s ov od)
            /\ writable ("./dimers/" ++ i ++ ".cube") = true) dimer ->
  forall w, heap_grows w0 w ->
  exists (w' : world) (evss : list (list event)),
    dimer_loop' dimer w = (Ok tt, w')
    /\ heap_grows w0 w'
    /\ trace w' = trace w ++ concat evss
    /\ Forall2 (fun '(i, dd) evs =>
                  cube_protocol' w0 ("./dimers/" ++ i ++ ".cube")
                                 [EvPrint ("processing " ++ i)]
                                 [EvPrint "-- DONE"] dd evs)
               dimer evss.
Proof.
  intros H. induction H as [| [i dd] dimer [(c & s & ov & od & Hok) Hw] _ IH];
    intros w Hg.
  - exists w, []. cbn. repeat split; [assumption | now rewrite app_nil_r | constructor].
  - destruct (grid_dims c s) as [[nx ny] nz] eqn:Hdims.
    destruct (dimer_body_ok w i dd c s ov od nx ny nz
                (molecule_ok_heap_grows _ _ _ _ _ _ _ Hg Hok) Hdims Hw)
      as (w1 & writes & E1 & Hg1 & Ht1 & Hf1).
    destruct (IH w1 (heap_grows_trans _ _ _ Hg Hg1)) as (w' & evss & E & Hg' & Ht & Hf).
    unfold dimer_loop in *. cbn [for_each].
    rewrite (bind_Ok _ _ _ _ _ E1).
    exists w',
      (([EvPrint ("processing " ++ i)]
        ++ [EvCubeWriter ("./dimers/" ++ i ++ ".cube") (md_atoms dd)
              [Z.of_nat nx; Z.of_nat ny; Z.of_nat nz] (arr_data od)
              "predicted by DeepDFT model"]
        ++ writes ++ [EvPrint "-- DONE"]) :: evss).
    split; [exact E |]. split; [exact Hg' |].
    split.
    + rewrite Ht, Ht1. cbn [concat]. rewrite <- !app_assoc. reflexivity.
    + constructor; [| exact Hf].
      exists c, s, ov, od, (grid_slices 1000 nx ny nz), writes.
      split; [exact Hok |]. rewrite Hdims. split; [| exact Hf1].
      split; [apply grid_slices_row_major; lia | reflexivity].
Qed.

(** C2.  In both cube-generation loops, for every molecule whose grid is
    intact and whose cube path is writable, the events of the molecule
    follow [cube_protocol]: the cube writer is constructed exactly once,
    with the path, the atoms, the first three entries of the grid
    shape, the origin and the comment, before any value is written;
    after that the densities are appended by successive [write] calls,
    one per slice of the iterator, and the slices one after the other
    are the voxel grid in row-major order (x slowest, z fastest).  The
    first loop leaves after its first molecule; the second processes
    them all. *)
Theorem cube_loops_follow_protocol :
  (forall (w : world) (i : string) (dd : MoleculeDict)
          (rest : list (string * MoleculeDict)),
      (exists c s ov od, molecule_ok w dd c s ov od) ->
      writable ("./cube/" ++ i ++ ".deepdft.cube") = true ->
      exists (w' : world) (evs : list event),
        sugbench_loop' ((i, dd) :: rest) w = (Ok tt, w')
        /\ trace w' = trace w ++ evs
        /\ cube_protocol' w ("./cube/" ++ i ++ ".deepdft.cube")
                          [EvPrint ("processing " ++ i)]
                          [EvAseWrite ("./cube/" ++ i ++ ".xyz") (md_atoms dd);
                           EvPrint "-- DONE"]
                          dd evs)
  /\ (forall (w : world) (dimer : list (string * MoleculeDict)),
         Forall (fun '(i, dd) =>
                   (exists c s ov od, molecule_ok w dd c s ov od)
                   /\ writable ("./dimers/" ++ i ++ ".cube") = true) dimer ->
         exists (w' : world) (evss : list (list event)),
           dimer_loop' dimer w = (Ok tt, w')
           /\ trace w' = trace w ++ concat evss
           /\ Forall2 (fun '(i, dd) evs =>
                         cube_protocol' w ("./dimers/" ++ i ++ ".cube")
                                        [EvPrint ("processing " ++ i)]
                                        [EvPrint "-- DONE"] dd evs)
                      dimer evss).
Proof.
  split.
  - intros w i dd rest (c & s & ov & od & Hok) Hw.
    destruct (grid_dims c s) as [[nx ny] nz] eqn:Hdims.
    destruct (sugbench_body_ok w i dd c s ov od nx ny nz Hok Hdims Hw)
      as (w' & writes & E & Hg & Ht & Hf).
    exists w'. eexists. split; [exact E |]. split; [exact Ht |].
    exists c, s, ov, od, (grid_slices 1000 nx ny nz), writes.
    split; [exact Hok |]. rewrite Hdims. split; [| exact Hf].
    split; [apply grid_slices_row_major; lia | reflexivity].
  - intros w dimer H.
    destruct (dimer_loop_ok w dimer H w (heap_grows_refl w))
      as (w' & evss & E & _ & Ht & Hf).
    exists w', evss. auto.
Qed.

Lemma sugbench_body_unwritable (w : world) (i : string) (dd : MoleculeDict) :
  writable ("./cube/" ++ i ++ ".deepdft.cube") = false ->
  exists e,
    sugbench_body' i dd w
    = (Raise e, World (heap w) (trace w ++ [EvPrint ("processing " ++ i)])).
Proof.
  intros Hw. unfold sugbench_body.
  rewrite (bind_Ok _ _ _ _ _ (emit_run _ _)).
  set (w1 := World _ _).
  destruct (reads_cases _ w1 (reads_grid_shape3 dd)) as [[sh | e] E].
  - rewrite (bind_Ok _ _ _ _ _ E).
    destruct (CubeWriter_unwritable w1 _ (md_atoms dd) sh (md_origin dd)
                "predicted by DeepDFT model" Hw) as (e & Ee & _).
    exists e. now rewrite (bind_Raise _ _ _ _ _ Ee).
  - exists e. now rewrite (bind_Raise _ _ _ _ _ E).
Qed.

Lemma dimer_body_unwritable (w : world) (i : string) (dd : MoleculeDict) :
  writable ("./dimers/" ++ i ++ ".cube") = false ->
  exists e,
    dimer_body' i dd w
    = (Raise e, World (heap w) (trace w ++ [EvPrint ("processing " ++ i)])).
Proof.
  intros Hw. unfold dimer_body.
  rewrite (bind_Ok _ _ _ _ _ (emit_run _ _)).
  set (w1 := World _ _).
  destruct (reads_cases _ w1 (reads_grid_shape3 dd)) as [[sh | e] E].
  - rewrite (bind_Ok _ _ _ _ _ E).
    destruct (CubeWriter_unwritable w1 _ (md_atoms dd) sh (md_origin dd)
                "predicted by DeepDFT model" Hw) as (e & Ee & _).
    exists e. now rewrite (bind_Raise _ _ _ _ _ Ee).
  - exists e. now rewrite (bind_Raise _ _ _ _ _ E).
Qed.

(** C8.  The cube-writing glue fails if the file path is not writable:
    constructing the cube writer on such a path raises ([OSError], once
    the origin is an array) and writes nothing; in both loops the
    exception ends the loop at that molecule, for which no write event
    and no header is recorded: the trace gains the progress message and
    nothing else. *)
Theorem cube_writer_fails_on_unwritable_path :
  (forall (w : world) (path : string) (atoms : Atoms) (sh : list Z)
          (origin_ : ref) (comment : string),
      writable path = false ->
      exists e, CubeWriter writable path atoms sh origin_ comment w = (Raise e, w)
                /\ (is_Some (heap w !! origin_ ≫= as_float) -> e = OSError))
  /\ (forall (w : world) (i : string) (dd : MoleculeDict)
             (rest : list (string * MoleculeDict)),
         writable ("./cube/" ++ i ++ ".deepdft.cube") = false ->
         exists e,
           sugbench_loop' ((i, dd) :: rest) w
           = (Raise e, World (heap w) (trace w ++ [EvPrint ("processing " ++ i)])))
  /\ (forall (w w1 : world) (i : string) (dd : MoleculeDict)
             (done rest : list (string * MoleculeDict)),
         dimer_loop' done w = (Ok tt, w1) ->
         writable ("./dimers/" ++ i ++ ".cube") = false ->
         exists e,
           dimer_loop' (done ++ (i, dd) :: rest) w
           = (Raise e, World (heap w1) (trace w1 ++ [EvPrint ("processing " ++ i)]))).
Proof.
  split; [| split].
  - intros w path atoms sh origin_ comment Hw. now apply CubeWriter_unwritable.
  - intros w i dd rest Hw. cbn [sugbench_loop].
    now apply sugbench_body_unwritable.
  - intros w w1 i dd done rest Hdone Hw. unfold dimer_loop in *.
    rewrite (for_each_app _ _ _ _ _ Hdone). cbn [for_each].
    destruct (dimer_body_unwritable w1 i dd Hw) as [e E].
    exists e. now rewrite (bind_Raise _ _ _ _ _ E).
Qed.

End CubeLoopsProtocol.

(** ** [LazyMeshGrid]: the constructor, bounds, negative indices, the origin *)

(** *** What the constructor may write *)

Lemma reads_load_cell (r : ref) : reads (load_cell r).
Proof. unfold load_cell. solve_reads. Qed.

Lemma reads_len (a : ref) : reads (np.len a).
Proof. unfold np.len. solve_reads. Qed.

Lemma allocates_arange (a b s : Q) : allocates (np.arange a b s).
Proof. unfold np.arange. solve_allocates. Qed.

Lemma allocates_true_divide (a : ref) (l : Q) : allocates (np.true_divide a l).
Proof.
  unfold np.true_divide. apply allocates_bind; [apply reads_load_float | intros x].
  apply allocates_alloc.
Qed.

Lemma allocates_expand_dims0 (a : ref) : allocates (np.expand_dims0 a).
Proof.
  unfold np.expand_dims0. apply allocates_bind; [apply reads_load | intros o].
  solve_allocates.
Qed.

Lemma appends_ret {A : Type} (a : A) : appends (mret a : M A).
Proof. apply appends_reads, reads_ret. Qed.

Lemma appends_mapM {A B : Type} (f : A -> M B) (l : list A) :
  (forall x, appends (f x)) -> appends (mapM f l).
Proof.
  intros Hf. induction l as [| x l IH]; cbn [mapM].
  - apply appends_ret.
  - apply appends_bind; [apply Hf | intros y].
    apply appends_bind; [exact IH | intros k]. apply appends_ret.
Qed.

Lemma reads_mapM {A B : Type} (f : A -> M B) (l : list A) :
  (forall x, reads (f x)) -> reads (mapM f l).
Proof.
  intros Hf. induction l as [| x l IH]; cbn [mapM].
  - apply reads_ret.
  - apply reads_bind; [apply Hf | intros y].
    apply reads_bind; [exact IH | intros k]. apply reads_ret.
Qed.

Lemma LazyMeshGrid_init_appends (cell_ : ref) (s : Q) (origin_ : option ref) :
  appends (LazyMeshGrid_init cell_ s origin_).
Proof.
  unfold LazyMeshGrid_init.
  apply appends_bind; [apply appends_reads, reads_load_cell | intros c].
  apply appends_bind; [| intros vectors].
  { apply appends_mapM. intros l.
    apply appends_bind; [apply appends_allocates, allocates_arange | intros g].
    apply appends_allocates, allocates_true_divide. }
  apply appends_bind; [apply appends_allocates, allocates_alloc | intros sgv].
  apply appends_bind; [apply appends_reads, reads_load_list | intros gs].
  apply appends_bind; [apply appends_reads, reads_mapM; intros ?; apply reads_len | intros lens].
  apply appends_bind; [apply appends_allocates, allocates_alloc | intros shape_].
  apply appends_bind; [| intros o].
  { destruct origin_; [apply appends_ret | apply appends_allocates, allocates_alloc]. }
  apply appends_bind; [apply appends_allocates, allocates_expand_dims0 | intros o'].
  apply appends_allocates, allocates_alloc.
Qed.

Lemma bind_Ok_inv {A B : Type} (m : M A) (k : A -> M B) (w w' : world) (b : B) :
  (m ≫= k) w = (Ok b, w') ->
  exists a w1, m w = (Ok a, w1) /\ k a w1 = (Ok b, w').
Proof.
  unfold mbind, M_bind, bind. destruct (m w) as [[a | e] w1]; [eauto | discriminate].
Qed.

Lemma grows_length (w w' : world) :
  grows w w' -> (length (heap w) <= length (heap w'))%nat.
Proof. intros [_ [l ->]]. rewrite length_app. lia. Qed.

Lemma returns_fresh_allocates (m : M ref) : allocates m -> returns_fresh m.
Proof.
  intros H w r w' E. destruct (H w) as [[e E'] | [o E']]; rewrite E' in E.
  - discriminate.
  - injection E as <- <-. cbn [heap]. rewrite length_app. cbn. lia.
Qed.

Lemma returns_fresh_bind {A : Type} (m : M A) (k : A -> M ref) :
  appends m -> (forall a, returns_fresh (k a)) -> returns_fresh (m ≫= k).
Proof.
  intros Hm Hk w r w' E. apply bind_Ok_inv in E as (a & w1 & E1 & E2).
  specialize (Hm w). rewrite E1 in Hm. apply grows_length in Hm.
  specialize (Hk a w1 r w' E2). cbn [snd] in Hm. lia.
Qed.

(** The reference [m >>= k] returns when [m] allocates it and [k] hands
    it on, updating at most the new object. *)
Lemma returns_fresh_allocates_bind (m : M ref) (k : ref -> M ref) :
  allocates m ->
  (forall r, updates r (k r)) ->
  (forall r w a w', k r w = (Ok a, w') -> a = r) ->
  returns_fresh (m ≫= k).
Proof.
  intros Hm Hu Hk w r w' E. apply bind_Ok_inv in E as (a & w1 & E1 & E2).
  pose proof (Hk _ _ _ _ E2) as ->.
  pose proof (returns_fresh_allocates m Hm w a w1 E1) as Ha.
  destruct (Hu a w1) as [Hw | [v Hw]]; rewrite E2 in Hw; cbn [snd] in Hw; subst w'.
  - exact Ha.
  - cbn [heap]. now rewrite length_insert.
Qed.

Lemma LazyMeshGrid_init_fresh (cell_ : ref) (s : Q) (origin_ : option ref) :
  returns_fresh (LazyMeshGrid_init cell_ s origin_).
Proof.
  unfold LazyMeshGrid_init.
  apply returns_fresh_bind; [apply appends_reads, reads_load_cell | intros c].
  apply returns_fresh_bind; [| intros vectors].
  { apply appends_mapM. intros l.
    apply appends_bind; [apply appends_allocates, allocates_arange | intros g].
    apply appends_allocates, allocates_true_divide. }
  apply returns_fresh_bind; [apply appends_allocates, allocates_alloc | intros sgv].
  apply returns_fresh_bind; [apply appends_reads, reads_load_list | intros gs].
  apply returns_fresh_bind;
    [apply appends_reads, reads_mapM; intros ?; apply reads_len | intros lens].
  apply returns_fresh_bind; [apply appends_allocates, allocates_alloc | intros shape_].
  apply returns_fresh_bind; [| intros o].
  { destruct origin_; [apply appends_ret | apply appends_allocates, allocates_alloc]. }
  apply returns_fresh_bind; [apply appends_allocates, allocates_expand_dims0 | intros o'].
  apply returns_fresh_allocates, allocates_alloc.
Qed.

Lemma LazyMeshGrid_init_instance (w w1 : world) (cell_ : ref) (s : Q)
      (origin_ : option ref) (self : ref) :
  LazyMeshGrid_init cell_ s origin_ w = (Ok self, w1) ->
  exists g, heap w1 !! self = Some (Instance g) /\ cell g = cell_.
Proof.
  intros E. unfold LazyMeshGrid_init in E.
  repeat (apply bind_Ok_inv in E as (? & ? & _ & E)).
  unfold alloc in E. injection E as <- <-. cbn [heap] in *.
  eexists. split; [apply lookup_snoc_new | reflexivity].
Qed.

Lemma LazyMeshGrid_getitem_fresh (self : ref) (indices : ndarray Z) :
  returns_fresh (LazyMeshGrid_getitem self indices).
Proof.
  unfold LazyMeshGrid_getitem.
  apply returns_fresh_bind; [apply appends_allocates, allocates_alloc | intros idx].
  destruct (negb _); [intros w r w' E; discriminate |].
  do 3 (apply returns_fresh_bind; [apply appends_reads, reads_grid_vector | intros ?];
        apply returns_fresh_bind; [apply appends_reads, reads_row | intros ?];
        apply returns_fresh_bind; [apply appends_allocates, allocates_fancy_index | intros ?]).
  apply returns_fresh_bind; [apply appends_allocates, allocates_stack3_axis1 | intros gp].
  apply returns_fresh_bind; [apply appends_reads, reads_load_instance | intros g].
  apply returns_fresh_allocates_bind; [apply allocates_dot | intros gp' | intros gp' w ret_ w' E].
  - apply updates_bind_reads; [apply reads_load_instance | intros g'].
    apply updates_iadd.
  - apply bind_Ok_inv in E as (g' & w1 & _ & E).
    apply bind_Ok_inv in E as ([] & w2 & _ & E). now injection E as <-.
Qed.

(** X1. [LazyMeshGrid.__init__] only adds objects: whether it returns or
    raises, every object of the heap is what it was and nothing is printed
    or written; the instance it returns is a new object, and its [cell]
    is the constructor's argument. *)
Theorem init_keeps_existing_objects (w : world) (cell_ : ref) (grid_step : Q)
        (origin_ : option ref) :
  let res := LazyMeshGrid_init cell_ grid_step origin_ w in
  (forall r o, heap w !! r = Some o -> heap res.2 !! r = Some o)
  /\ trace res.2 = trace w
  /\ forall self, res.1 = Ok self ->
       heap w !! self = None
       /\ exists g, heap res.2 !! self = Some (Instance g) /\ cell g = cell_.
Proof.
  intros res. pose proof (LazyMeshGrid_init_appends cell_ grid_step origin_ w) as Hg.
  fold res in Hg. split; [intros r o; now apply grows_lookup |].
  split; [apply Hg |]. intros self E.
  assert (E' : LazyMeshGrid_init cell_ grid_step origin_ w = (Ok self, res.2)).
  { subst res. destruct (LazyMeshGrid_init _ _ _ w) as [r w']. cbn in *. now subst. }
  split.
  - apply lookup_ge_None. apply (LazyMeshGrid_init_fresh _ _ _ _ _ _ E').
  - exact (LazyMeshGrid_init_instance _ _ _ _ _ _ E').
Qed.

(** *** Indices out of bounds and negative indices *)

Lemma norm_index_Some_valid (n : nat) (i : Z) (k : nat) :
  np.norm_index n i = Some k -> valid_index (Z.of_nat n) i.
Proof.
  unfold np.norm_index, valid_index.
  destruct (Z.leb_spec 0 i); destruct (Z.ltb_spec i (Z.of_nat n)); cbn [andb];
    try (intros _; lia);
    destruct (Z.leb_spec (- Z.of_nat n) i); destruct (Z.ltb_spec i 0); cbn [andb];
    try discriminate; intros _; lia.
Qed.

Lemma index1_Some_valid (v : list Q) (i : Z) :
  is_Some (np.index1 v i) -> valid_index (Z.of_nat (length v)) i.
Proof.
  intros [x H]. unfold np.index1 in H.
  destruct (np.norm_index (length v) i) as [k |] eqn:E; [| discriminate].
  eapply norm_index_Some_valid; eassumption.
Qed.

Lemma mapM_index1_Some_iff (v : list Q) (idx : list Z) :
  is_Some (mapM (np.index1 v) idx)
  <-> Forall (valid_index (Z.of_nat (length v))) idx.
Proof.
  split; [| apply mapM_index1_valid].
  intros H. apply mapM_is_Some in H. eapply Forall_impl; [exact H |].
  intros i Hi. now apply index1_Some_valid.
Qed.

Lemma norm_index_mod (n : nat) (i : Z) :
  valid_index (Z.of_nat n) i ->
  np.norm_index n i = Some (Z.to_nat (i mod Z.of_nat n)).
Proof.
  intros H. unfold valid_index in H. unfold np.norm_index.
  destruct (Z.leb_spec 0 i); destruct (Z.ltb_spec i (Z.of_nat n)); cbn [andb];
    try lia.
  - now rewrite Z.mod_small by lia.
  - destruct (Z.leb_spec (- Z.of_nat n) i); [| lia].
    destruct (Z.ltb_spec i 0); [| lia]. cbn [andb]. do 2 f_equal.
    rewrite <- (Z_mod_plus_full i 1 (Z.of_nat n)).
    rewrite Z.mod_small by lia. lia.
Qed.

(** Two in-bounds indices that agree modulo the length of the axis pick
    the same element. *)
Lemma index1_congruent (v : list Q) (i j : Z) :
  valid_index (Z.of_nat (length v)) i -> valid_index (Z.of_nat (length v)) j ->
  (i mod Z.of_nat (length v) = j mod Z.of_nat (length v))%Z ->
  np.index1 v i = np.index1 v j.
Proof.
  intros Hi Hj E. unfold np.index1.
  now rewrite (norm_index_mod _ _ Hi), (norm_index_mod _ _ Hj), E.
Qed.

(** The three rows of a 3xN index array are all in bounds exactly when
    the three look-ups of [__getitem__] succeed. *)
Lemma in_bounds_rows (c : Cell) (s : Q) (N : nat) (d : list Z) :
  in_bounds (map (fun l => Z.of_nat (np.arange_len 0 l s)) (lengths c) ++ [3%Z])
            (NdArray [3%nat; N] d)
  <-> is_Some (mapM (np.index1 (grid_vector_data (cell_lengths c).1.1 s))
                    (take N (drop (0 * N) d)))
      /\ is_Some (mapM (np.index1 (grid_vector_data (cell_lengths c).1.2 s))
                       (take N (drop (1 * N) d)))
      /\ is_Some (mapM (np.index1 (grid_vector_data (cell_lengths c).2 s))
                       (take N (drop (2 * N) d))).
Proof.
  rewrite !mapM_index1_Some_iff, !grid_vector_data_length.
  unfold in_bounds, lengths, index_row. destruct (cell_lengths c) as [[la lb] lc].
  cbn [vec3_list map app fst snd arr_shape arr_data nth]. split.
  - intros H. split; [| split].
    + apply (H 0%nat). lia.
    + apply (H 1%nat). lia.
    + apply (H 2%nat). lia.
  - intros (H0 & H1 & H2) t Ht.
    destruct t as [| [| [| t]]]; [assumption | assumption | assumption | lia].
Qed.

Lemma getitem_value_index_error (c : Cell) (s : Q) (o : ndarray Q)
      (N : nat) (d : list Z) :
  getitem_value c s o (NdArray [3%nat; N] d) = Raise IndexError
  <-> ~ in_bounds (map (fun l => Z.of_nat (np.arange_len 0 l s)) (lengths c) ++ [3%Z])
                  (NdArray [3%nat; N] d).
Proof.
  rewrite in_bounds_rows. unfold getitem_value.
  assert (E3 : is_3xN (NdArray [3%nat; N] d) = true) by (apply is_3xN_shape; eauto).
  rewrite E3. cbn [negb arr_shape arr_data nth].
  destruct (cell_lengths c) as [[la lb] lc]. cbn [fst snd].
  destruct (mapM _ (take N (drop (0 * N) d))) as [A |].
  2:{ split; [| reflexivity]. intros _ ([x Hx] & _). discriminate. }
  destruct (mapM _ (take N (drop (1 * N) d))) as [B |].
  2:{ split; [| reflexivity]. intros _ (_ & [x Hx] & _). discriminate. }
  destruct (mapM _ (take N (drop (2 * N) d))) as [C |].
  2:{ split; [| reflexivity]. intros _ (_ & _ & [x Hx]). discriminate. }
  split.
  - destruct (np.broadcast2 N 3 (arr_shape o)) as [[n' m'] |]; discriminate.
  - intros H. exfalso. apply H. repeat split; eexists; reflexivity.
Qed.

(** X3. On a 3xN index array, [__getitem__] raises [IndexError] exactly
    when some index is outside the bounds numpy accepts for its axis:
    [-n <= i < n] for an axis of [n] grid points. *)
Theorem getitem_index_error_iff (w : world) (self : ref) (c : Cell)
        (grid_step : Q) (o : ndarray Q) (indices : ndarray Z) (N : nat)
        (sh : list Z) :
  is_grid (heap w) self c grid_step o ->
  ndarray_ok indices ->
  arr_shape indices = [3%nat; N] ->
  grid_shape w self = Some sh ->
  ((LazyMeshGrid_getitem self indices w).1 = Raise IndexError
   <-> ~ in_bounds sh indices).
Proof.
  intros G Hok Hsh Hgs.
  destruct (LazyMeshGrid_getitem_value w self c grid_step o indices G Hok) as [Hv _].
  rewrite (is_grid_shape _ _ _ _ _ G) in Hgs. injection Hgs as <-.
  destruct indices as [sh' d]. cbn [arr_shape] in Hsh. subst sh'.
  rewrite <- getitem_value_index_error with (o := o).
  rewrite <- outcome_Raise, Hv.
  destruct (getitem_value c grid_step o (NdArray [3%nat; N] d)); cbn [result_map];
    split; congruence.
Qed.

Lemma getitem_value_congruent (c : Cell) (s : Q) (o : ndarray Q) (N : nat)
      (d1 d2 : list Z) :
  let sh := map (fun l => Z.of_nat (np.arange_len 0 l s)) (lengths c) ++ [3%Z] in
  in_bounds sh (NdArray [3%nat; N] d1) ->
  in_bounds sh (NdArray [3%nat; N] d2) ->
  (forall t, (t < 3)%nat ->
             Forall2 (fun i j => (i mod nth t sh 0 = j mod nth t sh 0)%Z)
                     (index_row (NdArray [3%nat; N] d1) t)
                     (index_row (NdArray [3%nat; N] d2) t)) ->
  getitem_value c s o (NdArray [3%nat; N] d1)
  = getitem_value c s o (NdArray [3%nat; N] d2).
Proof.
  intros sh H1 H2 Hc. subst sh. unfold getitem_value.
  assert (E1 : is_3xN (NdArray [3%nat; N] d1) = true) by (apply is_3xN_shape; eauto).
  assert (E2 : is_3xN (NdArray [3%nat; N] d2) = true) by (apply is_3xN_shape; eauto).
  rewrite E1, E2. cbn [negb arr_shape arr_data nth].
  unfold in_bounds, index_row, lengths in *.
  destruct (cell_lengths c) as [[la lb] lc].
  cbn [vec3_list map app arr_shape arr_data] in *.
  change (nth 1 [3%nat; N] 0%nat) with N in *.
  assert (R : forall t l,
             (t < 3)%nat -> nth t [la; lb; lc] 0 = l ->
             mapM (np.index1 (grid_vector_data l s)) (take N (drop (t * N) d1))
             = mapM (np.index1 (grid_vector_data l s)) (take N (drop (t * N) d2))).
  { intros t l Ht El. apply Forall2_mapM_ext.
    specialize (H1 t Ht). specialize (H2 t Ht). specialize (Hc t Ht).
    assert (En : nth t [Z.of_nat (np.arange_len 0 la s);
                        Z.of_nat (np.arange_len 0 lb s);
                        Z.of_nat (np.arange_len 0 lc s); 3%Z] 0%Z
                 = Z.of_nat (length (grid_vector_data l s))).
    { rewrite grid_vector_data_length. subst l.
      destruct t as [| [| [| t]]]; [reflexivity | reflexivity | reflexivity | lia]. }
    rewrite En in *. clear En.
    induction Hc as [| i j r1 r2 Hij _ IH]; [constructor |].
    apply Forall_cons in H1 as [Hi H1]. apply Forall_cons in H2 as [Hj H2].
    constructor; [now apply index1_congruent | now apply IH]. }
  rewrite (R 0%nat la), (R 1%nat lb), (R 2%nat lc) by (lia || reflexivity).
  reflexivity.
Qed.

(** X4. Negative indices count from the end of their axis: two 3xN index
    arrays within bounds whose entries agree modulo the number of grid
    points of their axis have the same outcome, the same positions. *)
Theorem getitem_congruent_indices (w : world) (self : ref) (c : Cell)
        (grid_step : Q) (o : ndarray Q) (indices1 indices2 : ndarray Z)
        (N : nat) (sh : list Z) :
  is_grid (heap w) self c grid_step o ->
  ndarray_ok indices1 -> ndarray_ok indices2 ->
  arr_shape indices1 = [3%nat; N] -> arr_shape indices2 = [3%nat; N] ->
  grid_shape w self = Some sh ->
  in_bounds sh indices1 -> in_bounds sh indices2 ->
  (forall t, (t < 3)%nat ->
             Forall2 (fun i j => (i mod nth t sh 0 = j mod nth t sh 0)%Z)
                     (index_row indices1 t) (index_row indices2 t)) ->
  outcome (LazyMeshGrid_getitem self indices1) w
  = outcome (LazyMeshGrid_getitem self indices2) w.
Proof.
  intros G Hok1 Hok2 Hsh1 Hsh2 Hgs Hb1 Hb2 Hc.
  destruct (LazyMeshGrid_getitem_value w self c grid_step o indices1 G Hok1) as [-> _].
  destruct (LazyMeshGrid_getitem_value w self c grid_step o indices2 G Hok2) as [-> _].
  rewrite (is_grid_shape _ _ _ _ _ G) in Hgs. injection Hgs as <-.
  destruct indices1 as [sh1 d1], indices2 as [sh2 d2]. cbn [arr_shape] in *. subst.
  f_equal. now apply getitem_value_congruent.
Qed.

(** *** The position of a grid point, whatever the cell lengths *)

(** X5. Whatever the cell lengths, row [n] of [grid[indices]] is
    [origin + (i * step / la, j * step / lb, k * step / lc) . cell] for the
    index triple [(i, j, k)] of column [n], for indices from 0 up to the
    grid's own shape (exact arithmetic, equality of rationals). *)
Theorem getitem_scaled_position (w w1 : world) (cell_ : ref) (c : Cell)
        (grid_step : Q) (origin_ : option ref) (ov : vec3) (self : ref) :
  heap w !! cell_ = Some (CellObj c) ->
  origin_array w origin_ = Some (NdArray [3%nat] (vec3_list ov)) ->
  LazyMeshGrid_init cell_ grid_step origin_ w = (Ok self, w1) ->
  forall (w2 : world) (indices : ndarray Z) (N : nat) (nx ny nz : Z),
    grows w1 w2 ->
    ndarray_ok indices ->
    arr_shape indices = [3%nat; N] ->
    grid_shape w2 self = Some [nx; ny; nz; 3%Z] ->
    Forall (fun i => (0 <= i < nx)%Z) (index_row indices 0) ->
    Forall (fun j => (0 <= j < ny)%Z) (index_row indices 1) ->
    Forall (fun k => (0 <= k < nz)%Z) (index_row indices 2) ->
    exists (r : ref) (data : list Q),
      (LazyMeshGrid_getitem self indices w2).1 = Ok r
      /\ heap (LazyMeshGrid_getitem self indices w2).2 !! r
         = Some (FloatArray (NdArray [N; 3%nat] data))
      /\ forall n, (n < N)%nat ->
           let '(i, j, k) := column indices n in
           let '(la, lb, lc) := cell_lengths c in
           let fa := inject_Z i * grid_step / la in
           let fb := inject_Z j * grid_step / lb in
           let fc := inject_Z k * grid_step / lc in
           vec3_eq (row3 data n)
                   (vec3_add ov (vec3_matmul (fa, fb, fc) (cell_rows c))).
Proof.
  intros Hc Ho E w2 indices N nx ny nz Hg Hok Hsh Hgs H0 H1 H2.
  destruct (LazyMeshGrid_init_constructs _ _ _ _ _ _ _ _ Hc Ho E) as (Hs & Hg1 & G).
  cbn [arr_shape arr_data] in G.
  apply (is_grid_grows _ _ _ _ _ _ Hg) in G.
  rewrite (is_grid_shape _ _ _ _ _ G) in Hgs.
  destruct indices as [sh d]. cbn [arr_shape] in Hsh. subst sh.
  assert (Hd : length d = (3 * N)%nat).
  { unfold ndarray_ok in Hok. cbn in Hok. lia. }
  pose proof (index_row_length N d 0 Hd ltac:(lia)) as L0.
  pose proof (index_row_length N d 1 Hd ltac:(lia)) as L1.
  pose proof (index_row_length N d 2 Hd ltac:(lia)) as L2.
  unfold column.
  set (R0 := index_row (NdArray [3%nat; N] d) 0) in *.
  set (R1 := index_row (NdArray [3%nat; N] d) 1) in *.
  set (R2 := index_row (NdArray [3%nat; N] d) 2) in *.
  unfold lengths in Hgs.
  destruct c as [[[[[ax ay] az] [[bx by_] bz]] [[cx cy] cz]] [[la lb] lc]].
  cbn [cell_lengths vec3_list map app cell_rows] in *.
  injection Hgs as <- <- <-.
  pose proof (mapM_index1_grid_vector la grid_step R0 H0) as HA.
  pose proof (mapM_index1_grid_vector lb grid_step R1 H1) as HB.
  pose proof (mapM_index1_grid_vector lc grid_step R2 H2) as HC.
  destruct (LazyMeshGrid_getitem_ok w2 self _ grid_step _ N d _ _ _ 1 3 G Hd HA HB HC
              (broadcast2_row N)) as (r & l & Eg & Hr).
  rewrite Eg. cbn [fst snd heap]. exists r. eexists. split; [reflexivity |].
  split; [exact Hr |].
  intros n Hn. destruct ov as [[ox oy] oz]. unfold row3.
  rewrite !iadd_data_row_nth, !matmul_nth by lia.
  edestruct (interleave3_nth
               (map (fun i : Z => (0 + inject_Z i * grid_step) / la) R0)
               (map (fun i : Z => (0 + inject_Z i * grid_step) / lb) R1)
               (map (fun i : Z => (0 + inject_Z i * grid_step) / lc) R2) n)
    as (-> & -> & ->); rewrite ?length_map; try lia.
  rewrite (nth_map_lt _ R0 n 0%Z), (nth_map_lt _ R1 n 0%Z), (nth_map_lt _ R2 n 0%Z) by lia.
  cbn [vec3_add vec3_matmul vec3_eq nth Nat.mul Nat.add Cell_array cell_rows
       arr_data vec3_list app].
  unfold Qdiv. repeat split; ring.
Qed.

(** *** An origin that does not broadcast *)

(** X6. The constructor takes an origin of any length [k]. On indices
    within bounds [__getitem__] then returns when [k] is 1 or 3, and
    raises [ValueError] otherwise: the origin does not broadcast against
    the Nx3 positions. *)
Theorem getitem_origin_length (w : world) (cell_ : ref) (c : Cell)
        (grid_step : Q) (origin_ : option ref) (k : nat) (ov : list Q) :
  heap w !! cell_ = Some (CellObj c) ->
  origin_array w origin_ = Some (NdArray [k] ov) ->
  ~ grid_step == 0 ->
  exists (self : ref) (w1 : world),
    LazyMeshGrid_init cell_ grid_step origin_ w = (Ok self, w1)
    /\ forall (w2 : world) (indices : ndarray Z) (N : nat) (sh : list Z),
         grows w1 w2 ->
         ndarray_ok indices ->
         arr_shape indices = [3%nat; N] ->
         grid_shape w2 self = Some sh ->
         in_bounds sh indices ->
         if (k =? 1)%nat || (k =? 3)%nat
         then exists r, (LazyMeshGrid_getitem self indices w2).1 = Ok r
         else (LazyMeshGrid_getitem self indices w2).1 = Raise ValueError.
Proof.
  intros Hc Ho Hs.
  destruct (LazyMeshGrid_init_ok w cell_ c grid_step origin_ _ Hc Hs Ho)
    as (self & l & E & G).
  exists self. eexists. split; [exact E |].
  intros w2 indices N sh Hg Hok Hsh Hgs Hb. cbn [arr_shape arr_data] in G.
  assert (G2 : is_grid (heap w2) self c grid_step (NdArray [1%nat; k] ov)).
  { eapply is_grid_grows; [exact Hg | exact G]. }
  destruct (LazyMeshGrid_getitem_value w2 self c grid_step _ indices G2 Hok) as [Hv _].
  rewrite (is_grid_shape _ _ _ _ _ G2) in Hgs. injection Hgs as <-.
  destruct indices as [sh' d]. cbn [arr_shape] in Hsh. subst sh'.
  destruct (getitem_value_in_bounds c grid_step (NdArray [1%nat; k] ov) N d Hb)
    as (A & B & C & HA & HB & HC).
  unfold getitem_value in Hv.
  assert (E3 : is_3xN (NdArray [3%nat; N] d) = true) by (apply is_3xN_shape; eauto).
  rewrite E3 in Hv. cbn [negb arr_shape arr_data nth] in Hv.
  destruct (cell_lengths c) as [[la lb] lc]. cbn [fst snd] in HA, HB, HC.
  rewrite HA, HB, HC, broadcast2_origin in Hv.
  destruct ((k =? 1)%nat || (k =? 3)%nat); cbn [result_map] in Hv.
  - apply outcome_Ok in Hv as (r & Hr & _). now exists r.
  - now apply outcome_Raise.
Qed.

(** X7. The array [__getitem__] returns is a new object: its reference
    is not in the heap before the call, so it is neither the origin nor a
    grid vector of any grid, and it is in the heap afterwards. *)
Theorem getitem_returns_new_array (w w' : world) (self : ref)
        (indices : ndarray Z) (r : ref) :
  LazyMeshGrid_getitem self indices w = (Ok r, w') ->
  heap w !! r = None /\ is_Some (heap w' !! r).
Proof.
  intros E. pose proof (LazyMeshGrid_getitem_fresh _ _ _ _ _ E) as H. split.
  - apply lookup_ge_None. lia.
  - apply lookup_lt_is_Some. lia.
Qed.

(** *** No index triples *)

(** X8. A 3x0 index array is answered with an empty 0x3 array of
    positions, on every grid, also on one with an axis without grid
    points. *)
Theorem getitem_empty_indices (w : world) (self : ref) (c : Cell)
        (grid_step : Q) (ov : list Q) :
  is_grid (heap w) self c grid_step (NdArray [1%nat; 3%nat] ov) ->
  exists r : ref,
    (LazyMeshGrid_getitem self (NdArray [3%nat; 0%nat] []) w).1 = Ok r
    /\ heap (LazyMeshGrid_getitem self (NdArray [3%nat; 0%nat] []) w).2 !! r
       = Some (FloatArray (NdArray [0%nat; 3%nat] [])).
Proof.
  intros G.
  destruct (LazyMeshGrid_getitem_ok w self c grid_step _ 0 [] [] [] [] 1 3 G)
    as (r & l & E & Hr); try reflexivity.
  rewrite E. exists r. split; [reflexivity | exact Hr].
Qed.

(** ** [load_molecule]: failures, the dictionary, a negative step *)

(** *** The extent of the positions *)

Lemma fold_left_Qmax_ge (l : list Q) (x : Q) :
  x <= fold_left Qmax l x /\ forall y, In y l -> y <= fold_left Qmax l x.
Proof.
  revert x. induction l as [| a l IH]; intros x; cbn [fold_left].
  - split; [apply Qle_refl | intros y []].
  - destruct (IH (Qmax x a)) as [H1 H2]. split.
    + eapply Qle_trans; [apply Q.le_max_l | exact H1].
    + intros y [<- | Hy]; [| now apply H2].
      eapply Qle_trans; [apply Q.le_max_r | exact H1].
Qed.

Lemma fold_left_Qmin_le (l : list Q) (x : Q) :
  fold_left Qmin l x <= x /\ forall y, In y l -> fold_left Qmin l x <= y.
Proof.
  revert x. induction l as [| a l IH]; intros x; cbn [fold_left].
  - split; [apply Qle_refl | intros y []].
  - destruct (IH (Qmin x a)) as [H1 H2]. split.
    + eapply Qle_trans; [exact H1 | apply Q.le_min_l].
    + intros y [<- | Hy]; [| now apply H2].
      eapply Qle_trans; [exact H1 | apply Q.le_min_r].
Qed.

(** The extent of a coordinate bounds the difference of any two of its
    values. *)
Lemma extent_spread (xs : list Q) (d : Q) :
  extent xs = Ok d -> forall x y, In x xs -> In y xs -> x - y <= d.
Proof.
  destruct xs as [| a xs]; [discriminate |]. cbn [extent]. intros E. injection E as <-.
  destruct (fold_left_Qmax_ge xs a) as [M1 M2].
  destruct (fold_left_Qmin_le xs a) as [m1 m2].
  intros x y Hx Hy.
  assert (Hx' : x <= fold_left Qmax xs a) by (destruct Hx as [<- | Hx]; auto).
  assert (Hy' : fold_left Qmin xs a <= y) by (destruct Hy as [<- | Hy]; auto).
  unfold Qminus. apply Qplus_le_compat; [assumption | now apply Qopp_le_compat].
Qed.

Lemma extent_Ok (xs : list Q) : xs <> [] -> exists d, extent xs = Ok d.
Proof. destruct xs; [congruence | eexists; reflexivity]. Qed.

Lemma positions_extent_Ok (ps : list vec3) :
  ps <> [] -> exists d, positions_extent ps = Ok d.
Proof.
  intros H. unfold positions_extent.
  destruct ps as [| p ps]; [congruence |]. cbn [map extent]. eexists. reflexivity.
Qed.

Lemma positions_extent_empty : positions_extent [] = Raise ValueError.
Proof. reflexivity. Qed.

Lemma positions_extent_spread (ps : list vec3) (d : vec3) :
  positions_extent ps = Ok d ->
  forall p q, In p ps -> In q ps ->
    p.1.1 - q.1.1 <= d.1.1 /\ p.1.2 - q.1.2 <= d.1.2 /\ p.2 - q.2 <= d.2.
Proof.
  unfold positions_extent. intros E p q Hp Hq.
  destruct (extent (map _ ps)) as [dx |] eqn:Ex; [| discriminate].
  destruct (extent (map (fun p : vec3 => p.1.2) ps)) as [dy |] eqn:Ey; [| discriminate].
  destruct (extent (map (fun p : vec3 => p.2) ps)) as [dz |] eqn:Ez; [| discriminate].
  injection E as <-. cbn [fst snd].
  repeat split.
  - apply (extent_spread _ _ Ex);
      [exact (in_map (fun p : vec3 => p.1.1) _ _ Hp)
      | exact (in_map (fun p : vec3 => p.1.1) _ _ Hq)].
  - apply (extent_spread _ _ Ey);
      [exact (in_map (fun p : vec3 => p.1.2) _ _ Hp)
      | exact (in_map (fun p : vec3 => p.1.2) _ _ Hq)].
  - apply (extent_spread _ _ Ez);
      [exact (in_map (fun p : vec3 => p.2) _ _ Hp)
      | exact (in_map (fun p : vec3 => p.2) _ _ Hq)].
Qed.

(** *** Running [load_molecule] *)

Section LoadMoleculeRun.

Variable ase_io_read : string -> result Atoms.
Variable center : Q -> Atoms -> Atoms.
Variable cell_angles : Cell -> vec3.
Variable cellpar_to_cell : vec3 -> vec3 -> Cell.

Local Abbreviation load_molecule' :=
  (load_molecule ase_io_read center cell_angles cellpar_to_cell).

Local Abbreviation rounded_cell' :=
  (rounded_cell center cell_angles cellpar_to_cell).

Lemma load_molecule_run (atomspath : string) (vacuum grid_step : Q) (w : world)
      (atoms : Atoms) (diff : vec3) :
  ase_io_read atomspath = Ok atoms ->
  positions_extent (positions atoms) = Ok diff ->
  ~ grid_step == 0 ->
  exists (self : ref) (l : list pyobj),
    load_molecule' atomspath vacuum grid_step w
    = (Ok {| md_atoms := set_cell (center vacuum atoms)
                                  (rounded_cell' atoms vacuum grid_step);
             md_origin := length (heap w);
             md_grid_position := self;
             md_metadata := atomspath;
             md_diff := diff |},
       World (heap w ++ FloatArray (NdArray [3%nat] [0; 0; 0]) :: l) (trace w))
    /\ is_grid (heap w ++ FloatArray (NdArray [3%nat] [0; 0; 0]) :: l) self
               (rounded_cell' atoms vacuum grid_step) grid_step
               (NdArray [1%nat; 3%nat] [0; 0; 0])
    /\ (length (heap w) < self)%nat.
Proof.
  intros Hread Hdiff Hs. unfold load_molecule, rounded_cell.
  rewrite lift_bind, Hread, lift_bind, Hdiff.
  destruct (cell_lengths (atoms_cell (center vacuum atoms))) as [[a b] c].
  do 3 (rewrite ceil_float_Ok, lift_bind by assumption).
  set (cell1 := cellpar_to_cell _ _).
  destruct w as [h t].
  run ltac:(reflexivity). run ltac:(reflexivity).
  match goal with
  | |- context [(LazyMeshGrid_init ?r _ _ ≫= _) ?W] =>
      destruct (LazyMeshGrid_init_ok W r cell1 grid_step None
                  (NdArray [3%nat] [0; 0; 0])) as (self & l & Ei & G);
        [cbn [heap set_cell atoms_cell]; heap_lookup | assumption | reflexivity |];
      pose proof (LazyMeshGrid_init_fresh _ _ _ _ _ _ Ei) as Hfresh
  end.
  run ltac:(exact Ei). cbn [heap trace arr_shape arr_data] in *.
  exists self, (CellObj cell1 :: l). rewrite <- !app_assoc in *. cbn [app] in *.
  split; [reflexivity |]. split; [exact G |].
  rewrite !length_app in Hfresh. cbn [length] in Hfresh. lia.
Qed.

Lemma load_molecule_inv (atomspath : string) (vacuum grid_step : Q)
      (w w' : world) (md : MoleculeDict) :
  load_molecule' atomspath vacuum grid_step w = (Ok md, w') ->
  exists (atoms : Atoms) (diff : vec3) (self : ref) (l : list pyobj),
    ase_io_read atomspath = Ok atoms
    /\ positions_extent (positions atoms) = Ok diff
    /\ ~ grid_step == 0
    /\ md = {| md_atoms := set_cell (center vacuum atoms)
                                    (rounded_cell' atoms vacuum grid_step);
               md_origin := length (heap w);
               md_grid_position := self;
               md_metadata := atomspath;
               md_diff := diff |}
    /\ w' = World (heap w ++ FloatArray (NdArray [3%nat] [0; 0; 0]) :: l) (trace w)
    /\ is_grid (heap w') self (rounded_cell' atoms vacuum grid_step) grid_step
               (NdArray [1%nat; 3%nat] [0; 0; 0])
    /\ (length (heap w) < self)%nat.
Proof.
  intros E.
  destruct (ase_io_read atomspath) as [atoms | e] eqn:Hread.
  2:{ unfold load_molecule in E. rewrite lift_bind, Hread in E. discriminate. }
  destruct (positions_extent (positions atoms)) as [diff | e] eqn:Hdiff.
  2:{ unfold load_molecule in E. rewrite lift_bind, Hread, lift_bind, Hdiff in E.
      discriminate. }
  destruct (Qeq_dec grid_step 0) as [Hs | Hs].
  { unfold load_molecule in E. rewrite lift_bind, Hread, lift_bind, Hdiff in E.
    destruct (cell_lengths (atoms_cell (center vacuum atoms))) as [[a b] c].
    unfold ceil_float in E. rewrite (Qeq_eq_bool _ _ Hs) in E. discriminate. }
  destruct (load_molecule_run atomspath vacuum grid_step w atoms diff
              Hread Hdiff Hs) as (self & l & E' & G & Hfresh).
  rewrite E' in E. injection E as <- <-.
  exists atoms, diff, self, l. repeat split; assumption.
Qed.

(** X9. [load_molecule] fails early and leaves the world as it was: an
    exception of [ase.io.read] is passed on; a file without atoms raises
    [ValueError] (the maximum of an empty array); a zero [grid_step]
    raises. *)
Theorem load_molecule_fails_cleanly (atomspath : string) (vacuum grid_step : Q)
        (w : world) :
  (forall e, ase_io_read atomspath = Raise e ->
             load_molecule' atomspath vacuum grid_step w = (Raise e, w))
  /\ (forall atoms, ase_io_read atomspath = Ok atoms ->
        (positions atoms = [] ->
         load_molecule' atomspath vacuum grid_step w = (Raise ValueError, w))
        /\ (positions atoms <> [] -> grid_step == 0 ->
            exists e, load_molecule' atomspath vacuum grid_step w = (Raise e, w))).
Proof.
  split.
  - intros e Hread. unfold load_molecule. now rewrite lift_bind, Hread.
  - intros atoms Hread. split.
    + intros Hpos. unfold load_molecule.
      now rewrite lift_bind, Hread, lift_bind, Hpos.
    + intros Hpos Hs. destruct (positions_extent_Ok _ Hpos) as [diff Hdiff].
      unfold load_molecule. rewrite lift_bind, Hread, lift_bind, Hdiff.
      destruct (cell_lengths (atoms_cell (center vacuum atoms))) as [[a b] c].
      unfold ceil_float. rewrite (Qeq_eq_bool _ _ Hs). eexists. reflexivity.
Qed.

Lemma load_molecule_molecule_ok (atomspath : string) (vacuum grid_step : Q)
      (w w' : world) (md : MoleculeDict) :
  load_molecule' atomspath vacuum grid_step w = (Ok md, w') ->
  md_metadata md = atomspath
  /\ grows w w'
  /\ molecule_ok w' md (atoms_cell (md_atoms md)) grid_step [0; 0; 0]
                 (NdArray [3%nat] [0; 0; 0]).
Proof.
  intros E.
  destruct (load_molecule_inv _ _ _ _ _ _ E)
    as (atoms & diff & self & l & Hread & Hdiff & Hs & -> & -> & G & Hfresh).
  unfold molecule_ok.
  cbn [md_atoms md_origin md_grid_position md_metadata set_cell atoms_cell heap] in *.
  split; [reflexivity |].
  split; [split; [reflexivity | eexists; reflexivity] |]. split.
  - exact G.
  - exists (FloatArray (NdArray [3%nat] [0; 0; 0])).
    split; [| reflexivity].
    now rewrite lookup_app_r, Nat.sub_diag by lia.
Qed.

(** X10. The dictionary [load_molecule] returns: its grid is a
    [LazyMeshGrid] over the cell of the returned atoms with step
    [grid_step] and origin (0, 0, 0); its origin is an array (0, 0, 0) of
    its own; both are new objects and the objects of before are unchanged;
    [diff] is the extent of the positions as read, which bounds the
    difference of any two atoms along each coordinate; the positions are
    those of the centred atoms. *)
Theorem load_molecule_result (atomspath : string) (vacuum grid_step : Q)
        (w w' : world) (md : MoleculeDict) :
  load_molecule' atomspath vacuum grid_step w = (Ok md, w') ->
  molecule_ok w' md (atoms_cell (md_atoms md)) grid_step [0; 0; 0]
              (NdArray [3%nat] [0; 0; 0])
  /\ grows w w'
  /\ heap w !! md_origin md = None
  /\ heap w !! md_grid_position md = None
  /\ md_origin md <> md_grid_position md
  /\ exists atoms,
       ase_io_read atomspath = Ok atoms
       /\ positions (md_atoms md) = positions (center vacuum atoms)
       /\ positions_extent (positions atoms) = Ok (md_diff md)
       /\ forall p q, In p (positions atoms) -> In q (positions atoms) ->
            p.1.1 - q.1.1 <= (md_diff md).1.1
            /\ p.1.2 - q.1.2 <= (md_diff md).1.2
            /\ p.2 - q.2 <= (md_diff md).2.
Proof.
  intros E.
  destruct (load_molecule_molecule_ok _ _ _ _ _ _ E) as (_ & Hg & Hok).
  destruct (load_molecule_inv _ _ _ _ _ _ E)
    as (atoms & diff & self & l & Hread & Hdiff & Hs & -> & -> & G & Hfresh).
  cbn [md_atoms md_origin md_grid_position md_diff set_cell atoms_cell heap positions]
    in *.
  split; [exact Hok |]. split; [exact Hg |].
  split; [apply lookup_ge_None; lia |].
  split; [apply lookup_ge_None; lia |].
  split; [lia |].
  exists atoms. split; [exact Hread |]. split; [reflexivity |].
  split; [exact Hdiff |]. now apply positions_extent_spread.
Qed.

(** Cell lengths are norms. *)
Hypothesis center_Cell_ok :
  forall vacuum atoms, Cell_ok (atoms_cell (center vacuum atoms)).

(** The cell built from lengths [a], [b], [c] and three angles has
    vectors of lengths [a], [b], [c]. *)
Hypothesis cellpar_lengths :
  forall abc angles,
    Forall (Qle 0) (vec3_list abc) ->
    vec3_eq (cell_lengths (cellpar_to_cell abc angles)) abc.

Lemma centred_lengths_nonneg (vacuum : Q) (atoms : Atoms) :
  let '(a, b, c) := cell_lengths (atoms_cell (center vacuum atoms)) in
  0 <= a /\ 0 <= b /\ 0 <= c.
Proof.
  pose proof (center_Cell_ok vacuum atoms) as Hok. unfold Cell_ok in Hok.
  destruct (cell_rows _) as [[ra rb] rc].
  destruct (cell_lengths _) as [[a b] c].
  destruct ra as [[? ?] ?], rb as [[? ?] ?], rc as [[? ?] ?].
  destruct Hok as ((Ha & _) & (Hb & _) & (Hc & _)). auto.
Qed.

Lemma ceil_float_nonneg (x s : Q) :
  0 <= x -> ~ s == 0 -> 0 <= inject_Z (Qceiling (x / s)) * s.
Proof.
  intros Hx Hs0.
  destruct (Q_dec s 0) as [[Hs | Hs] | Hs]; [| | contradiction].
  - assert (Hs' : 0 < - s).
    { apply Qlt_minus_iff in Hs. now rewrite Qplus_0_l in Hs. }
    assert (Hk : (Qceiling (x / s) <= 0)%Z).
    { apply Qceiling_least.
      assert (E : x / s == - x / - s) by (field; assumption).
      rewrite E. apply Qle_shift_div_r; [assumption |].
      rewrite Qmult_0_l. apply Qopp_le_compat in Hx. exact Hx. }
    assert (E : inject_Z (Qceiling (x / s)) * s
                == inject_Z (- Qceiling (x / s)) * - s).
    { rewrite inject_Z_opp. ring. }
    rewrite E. apply Qmult_le_0_compat; [| now apply Qlt_le_weak].
    rewrite <- (Zle_Qle 0). lia.
  - eapply Qle_trans; [exact Hx | now apply ceil_float_ge].
Qed.

Lemma rounded_cell_lengths (atoms : Atoms) (vacuum grid_step : Q) :
  ~ grid_step == 0 ->
  let '(a, b, c) := cell_lengths (atoms_cell (center vacuum atoms)) in
  vec3_eq (cell_lengths (rounded_cell' atoms vacuum grid_step))
          (inject_Z (Qceiling (a / grid_step)) * grid_step,
           inject_Z (Qceiling (b / grid_step)) * grid_step,
           inject_Z (Qceiling (c / grid_step)) * grid_step).
Proof.
  intros Hs.
  pose proof (centred_lengths_nonneg vacuum atoms) as Hn. unfold rounded_cell.
  destruct (cell_lengths (atoms_cell (center vacuum atoms))) as [[a b] c].
  destruct Hn as (Ha & Hb & Hc).
  apply cellpar_lengths. cbn [vec3_list].
  repeat constructor; now apply ceil_float_nonneg.
Qed.

(** X12. A negative [grid_step] is not rejected: when [load_molecule]
    returns with one, the grid has no points, shape (0, 0, 0, 3), and
    indexing it with any 3xN array of at least one column raises
    [IndexError]. *)
Theorem load_molecule_negative_step (atomspath : string) (vacuum grid_step : Q)
        (w w' : world) (md : MoleculeDict) :
  grid_step < 0 ->
  load_molecule' atomspath vacuum grid_step w = (Ok md, w') ->
  grid_shape w' (md_grid_position md) = Some [0; 0; 0; 3]%Z
  /\ forall (indices : ndarray Z) (N : nat),
       ndarray_ok indices ->
       arr_shape indices = [3%nat; N] ->
       (0 < N)%nat ->
       (LazyMeshGrid_getitem (md_grid_position md) indices w').1 = Raise IndexError.
Proof.
  intros Hs E.
  assert (Hs0 : ~ grid_step == 0).
  { intros E0. rewrite E0 in Hs. now apply Qlt_irrefl in Hs. }
  destruct (load_molecule_inv _ _ _ _ _ _ E)
    as (atoms & diff & self & l & Hread & _ & _ & -> & -> & G & _).
  pose proof (rounded_cell_lengths atoms vacuum grid_step Hs0) as Hl.
  pose proof (centred_lengths_nonneg vacuum atoms) as Hn.
  cbn [md_atoms md_grid_position set_cell atoms_cell].
  assert (K : forall x, 0 <= x -> (Qceiling (x / grid_step) <= 0)%Z).
  { intros x Hx. apply Qceiling_least.
    assert (Hs' : 0 < - grid_step).
    { apply Qlt_minus_iff in Hs. now rewrite Qplus_0_l in Hs. }
    assert (E0 : x / grid_step == - x / - grid_step) by (field; assumption).
    rewrite E0. apply Qle_shift_div_r; [assumption |].
    rewrite Qmult_0_l. apply Qopp_le_compat in Hx. exact Hx. }
  assert (Hsh : map (fun l => Z.of_nat (np.arange_len 0 l grid_step))
                    (lengths (rounded_cell' atoms vacuum grid_step)) ++ [3%Z]
                = [0; 0; 0; 3]%Z).
  { unfold lengths.
    destruct (cell_lengths (atoms_cell (center vacuum atoms))) as [[a b] c].
    destruct (cell_lengths (rounded_cell' atoms vacuum grid_step)) as [[a' b'] c'].
    destruct Hl as (Ea & Eb & Ec). destruct Hn as (Ha & Hb & Hc).
    cbn [vec3_list map app].
    rewrite (arange_len_multiple a' grid_step _ Hs0 Ea).
    rewrite (arange_len_multiple b' grid_step _ Hs0 Eb).
    rewrite (arange_len_multiple c' grid_step _ Hs0 Ec).
    rewrite !Z2Nat.nonpos by auto. reflexivity. }
  split.
  - now rewrite (is_grid_shape _ _ _ _ _ G), Hsh.
  - intros indices N Hok Hshape HN.
    destruct (LazyMeshGrid_getitem_value _ self _ grid_step _ indices G Hok) as [Hv _].
    apply outcome_Raise. rewrite Hv.
    destruct indices as [sh d]. cbn [arr_shape] in Hshape. subst sh.
    assert (Hd : length d = (3 * N)%nat).
    { unfold ndarray_ok in Hok. cbn in Hok. lia. }
    rewrite (proj2 (getitem_value_index_error _ grid_step _ N d)); [reflexivity |].
    rewrite Hsh. intros Hb. specialize (Hb 0%nat ltac:(lia)).
    pose proof (index_row_length N d 0 Hd ltac:(lia)) as L0.
    destruct (index_row (NdArray [3%nat; N] d) 0) as [| i R]; [cbn in L0; lia |].
    apply Forall_cons in Hb as [Hi _]. unfold valid_index in Hi. cbn in Hi. lia.
Qed.

End LoadMoleculeRun.

(** ** Python strings *)

Section Strings.

Local Open Scope string_scope.

Lemma string_app_cons (c : ascii) (s1 s2 : string) :
  String c s1 ++ s2 = String c (s1 ++ s2).
Proof. reflexivity. Qed.

Lemma string_app_nil_l (s : string) : "" ++ s = s.
Proof. reflexivity. Qed.

Lemma string_app_nil_r (s : string) : s ++ "" = s.
Proof.
  induction s as [| c s IH]; [reflexivity |]. now rewrite string_app_cons, IH.
Qed.

Lemma string_app_assoc (s1 s2 s3 : string) : (s1 ++ s2) ++ s3 = s1 ++ (s2 ++ s3).
Proof.
  induction s1 as [| c s1 IH]; [reflexivity |]. now rewrite !string_app_cons, IH.
Qed.

Lemma list_ascii_app (s1 s2 : string) :
  list_ascii_of_string (s1 ++ s2)
  = (list_ascii_of_string s1 ++ list_ascii_of_string s2)%list.
Proof.
  induction s1 as [| c s1 IH]; [reflexivity |].
  rewrite string_app_cons. cbn [list_ascii_of_string app]. now rewrite IH.
Qed.

(** The parts of a split make up the string again, and no part holds the
    separator. *)
Lemma split_spec (sep : ascii) (s : string) :
  exists (init : list string) (name : string),
    split sep s = (init ++ [name])%list
    /\ s = join sep init name
    /\ Forall (fun p => ~ In sep (list_ascii_of_string p)) (init ++ [name])%list.
Proof.
  induction s as [| c s (init & name & E & Hs & Hn)].
  - exists [], "". repeat split. repeat constructor. intros [].
  - cbn [split]. destruct (Ascii.eqb_spec c sep) as [-> | Hc].
    + exists ("" :: init)%list, name. rewrite E. split; [reflexivity |]. split.
      * cbn [join fold_right]. rewrite string_app_nil_l. f_equal. exact Hs.
      * constructor; [intros [] | exact Hn].
    + rewrite E. destruct init as [| p init]; cbn [app] in *.
      * exists [], (String c name). split; [reflexivity |]. split.
        -- cbn [join fold_right] in *. now subst.
        -- apply Forall_cons in Hn as [Hn _]. repeat constructor.
           cbn [list_ascii_of_string]. intros [H | H]; [congruence | contradiction].
      * exists (String c p :: init)%list, name. split; [reflexivity |]. split.
        -- rewrite Hs. cbn [join fold_right]. now rewrite string_app_cons.
        -- apply Forall_cons in Hn as [Hp Hn]. constructor; [| exact Hn].
           cbn [list_ascii_of_string]. intros [H | H]; [congruence | contradiction].
Qed.

Lemma getitem_last_snoc {A : Type} (l : list A) (x : A) :
  getitem_last (l ++ [x])%list = Ok x.
Proof. unfold getitem_last. now rewrite last_snoc. Qed.

Lemma join_dir (sep : ascii) (init : list string) (name : string) :
  exists dir,
    join sep init name = dir ++ name
    /\ (init = [] -> dir = "")
    /\ (init <> [] -> exists d, dir = d ++ String sep "").
Proof.
  induction init as [| p init (dir & E & H0 & H1)].
  - exists "". repeat split. congruence.
  - exists (p ++ String sep dir). cbn [join fold_right]. fold (join sep init name).
    rewrite E. split; [| split; [congruence | intros _]].
    + now rewrite string_app_assoc, string_app_cons.
    + destruct init as [| q init].
      * rewrite H0 by reflexivity. now exists p.
      * destruct H1 as [d ->]; [congruence |]. exists (p ++ String sep d).
        now rewrite string_app_assoc, string_app_cons.
Qed.

Lemma concat_join (sep : ascii) (init : list string) (name : string) :
  String.concat (String sep "") (init ++ [name])%list = join sep init name.
Proof.
  induction init as [| p init IH]; [reflexivity |].
  cbn [join fold_right]. fold (join sep init name). rewrite <- IH.
  destruct init; reflexivity.
Qed.

(** Where a string starts with [old], it is [old] followed by a rest. *)
Lemma prefix_app (old s : string) :
  String.prefix old s = true <-> exists rest, s = old ++ rest.
Proof.
  revert s. induction old as [| a old IH]; intros s.
  - split; [intros _; now exists s | destruct s; reflexivity].
  - destruct s as [| b s]; cbn [String.prefix].
    + split; [discriminate | intros [rest H]; discriminate].
    + destruct (ascii_dec a b) as [-> | Hab].
      * rewrite IH. split; intros [rest H]; exists rest.
        -- now rewrite string_app_cons, H.
        -- rewrite string_app_cons in H. now injection H.
      * split; [discriminate | intros [rest H]].
        rewrite string_app_cons in H. injection H as H _. congruence.
Qed.

Lemma replace_from_skip (old new s : string) (k : nat) :
  (String.length s <= k)%nat -> replace_from old new s k = "".
Proof.
  revert k. induction s as [| c s IH]; intros k Hk; [reflexivity |].
  cbn [String.length] in Hk. destruct k as [| k]; [lia |].
  cbn [replace_from]. apply IH. lia.
Qed.

(** A name that holds no [.xyz] loses exactly its extension. *)
Lemma replace_xyz_suffix (stem : string) :
  (forall a b, stem <> a ++ ".xyz" ++ b) ->
  replace ".xyz" "" (stem ++ ".xyz") = stem.
Proof.
  unfold replace. induction stem as [| c stem IH]; intros Hno; [reflexivity |].
  rewrite string_app_cons. cbn [replace_from].
  destruct (String.prefix ".xyz" (String c (stem ++ ".xyz"))) eqn:Hp.
  - exfalso. apply prefix_app in Hp as [rest Hp].
    destruct stem as [| c1 [| c2 [| c3 stem]]];
      rewrite ?string_app_cons, ?string_app_nil_l in Hp; try discriminate.
    injection Hp as -> -> -> -> Hp.
    apply (Hno "" stem). reflexivity.
  - f_equal. apply IH. intros a b E. apply (Hno (String c a) b).
    now rewrite string_app_cons, E.
Qed.

End Strings.

(** X13. [i.split('/')[-1]], the name the loops give a molecule, never
    raises; the name holds no '/'; the path is a directory part, empty or
    ending in '/', followed by the name; and joining the parts of the
    split with '/' gives the path back. *)
Theorem split_last_is_file_name (i : string) :
  exists name dir : string,
    getitem_last (split "/" i) = Ok name
    /\ ~ In "/"%char (list_ascii_of_string name)
    /\ i = (dir ++ name)%string
    /\ (dir = ""%string \/ exists d, dir = (d ++ "/")%string)
    /\ String.concat "/" (split "/" i) = i.
Proof.
  destruct (split_spec "/" i) as (init & name & E & Hs & Hn).
  destruct (join_dir "/" init name) as (dir & Hd & H0 & H1).
  exists name, dir. rewrite E, getitem_last_snoc, concat_join.
  split; [reflexivity |]. split.
  - apply Forall_app in Hn as [_ Hn]. now apply Forall_cons in Hn as [Hn _].
  - split; [congruence |]. split; [| now symmetry].
    destruct init as [| p init]; [left; now apply H0 | right; apply H1; congruence].
Qed.

Lemma split_no_sep (sep : ascii) (s : string) :
  ~ In sep (list_ascii_of_string s) -> split sep s = [s].
Proof.
  induction s as [| c s IH]; intros H; [reflexivity |].
  cbn [split]. cbn [list_ascii_of_string] in H.
  destruct (Ascii.eqb_spec c sep) as [-> | Hc]; [exfalso; apply H; now left |].
  rewrite IH; [reflexivity |]. intros Hin. apply H. now right.
Qed.

Lemma split_app_sep (sep : ascii) (dir name : string) :
  ~ In sep (list_ascii_of_string name) ->
  last (split sep (dir ++ String sep name)%string) = Some name.
Proof.
  intros Hn. induction dir as [| c dir IH].
  - rewrite string_app_nil_l. cbn [split]. rewrite Ascii.eqb_refl.
    now rewrite (split_no_sep _ _ Hn).
  - rewrite string_app_cons. cbn [split].
    destruct (Ascii.eqb c sep).
    + destruct (split sep (dir ++ String sep name)%string) as [| p ps] eqn:E;
        [discriminate | exact IH].
    + destruct (split sep (dir ++ String sep name)%string) as [| p ps] eqn:E;
        [discriminate |].
      destruct ps as [| q ps]; [| exact IH].
      exfalso. destruct (split_spec sep (dir ++ String sep name)%string)
        as (init & nm & E' & Hs & Hall).
      rewrite E in E'. destruct init as [| p0 [| p1 init]]; try discriminate.
      cbn in E'. injection E' as ->. cbn [join fold_right] in Hs.
      apply Forall_cons in Hall as [Hall _]. apply Hall.
      rewrite <- Hs, list_ascii_app. apply in_or_app. right. now left.
Qed.

(** ** Loading the data sets *)

Section DatasetsLoaded.

Variable ase_io_read : string -> result Atoms.
Variable center : Q -> Atoms -> Atoms.
Variable cell_angles : Cell -> vec3.
Variable cellpar_to_cell : vec3 -> vec3 -> Cell.

Local Abbreviation load_molecule' :=
  (load_molecule ase_io_read center cell_angles cellpar_to_cell).
Local Abbreviation load_sugbench' :=
  (load_sugbench ase_io_read center cell_angles cellpar_to_cell).
Local Abbreviation load_dimer' :=
  (load_dimer ase_io_read center cell_angles cellpar_to_cell).

Lemma loaded_grows (w w' : world) (s : Q) (i : string) (md : MoleculeDict) :
  grows w w' -> loaded w s i md -> loaded w' s i md.
Proof.
  intros [_ Hg] [Hm Hok]. split; [exact Hm |].
  eapply molecule_ok_heap_grows; [exact Hg | exact Hok].
Qed.

Lemma load_molecule_loaded (i : string) (vacuum s : Q) (w w' : world)
      (md : MoleculeDict) :
  load_molecule' i vacuum s w = (Ok md, w') -> grows w w' /\ loaded w' s i md.
Proof.
  intros E.
  destruct (load_molecule_molecule_ok _ _ _ _ _ _ _ _ _ _ E) as (Hm & Hg & Hok).
  split; [exact Hg |]. split; [exact Hm | exact Hok].
Qed.

Lemma for_fold_datasets (name_of : string -> string) (paths : list string)
      (padding s : Q) :
  forall (acc ds : list (string * MoleculeDict)) (w w' : world),
    for_fold paths
             (fun acc i =>
                mol ← load_molecule' i padding s;
                name ← lift (getitem_last (split "/" i));
                mret (acc ++ [(name_of name, mol)]))
             acc w = (Ok ds, w') ->
    grows w w'
    /\ exists new,
        ds = acc ++ new
        /\ Forall2 (fun i '(name, md) =>
                      (exists n, getitem_last (split "/" i) = Ok n /\ name = name_of n)
                      /\ loaded w' s i md)
                   paths new.
Proof.
  induction paths as [| i paths IH]; intros acc ds w w' E; cbn [for_fold] in E.
  - injection E as <- <-. split; [apply grows_refl |].
    exists []. split; [now rewrite app_nil_r | constructor].
  - apply bind_Ok_inv in E as (acc1 & w1 & E1 & E).
    apply bind_Ok_inv in E1 as (mol & w2 & Em & E1).
    apply bind_Ok_inv in E1 as (name & w3 & En & E1).
    injection E1 as <- <-.
    assert (w3 = w2 /\ getitem_last (split "/" i) = Ok name) as [-> Hn].
    { unfold lift in En. now injection En as -> ->. }
    destruct (load_molecule_loaded _ _ _ _ _ _ Em) as [Hg1 Hl].
    destruct (IH _ _ _ _ E) as (Hg2 & new & -> & HF).
    split; [eapply grows_trans; eassumption |].
    exists ((name_of name, mol) :: new). split; [now rewrite <- app_assoc |].
    constructor; [| exact HF].
    split; [eauto |]. eapply loaded_grows; eassumption.
Qed.

(** X14. When the loop that builds [sugbench], or [dimer], returns, the
    list has one entry for each path, in the order of the paths; the name
    of an entry is the last part of its path (for [dimer] with every
    '.xyz' removed), and its dictionary is intact in the final world,
    whatever the later iterations allocated: its metadata is the path,
    its grid and its origin are as [load_molecule] left them. *)
Theorem datasets_hold_intact_molecules (paths : list string) (padding grid_step : Q)
        (w : world) :
  (forall sugbench w',
      load_sugbench' paths padding grid_step w = (Ok sugbench, w') ->
      grows w w'
      /\ Forall2 (fun i '(name, md) =>
                    getitem_last (split "/" i) = Ok name
                    /\ loaded w' grid_step i md)
                 paths sugbench)
  /\ (forall dimer w',
         load_dimer' paths padding grid_step w = (Ok dimer, w') ->
         grows w w'
         /\ Forall2 (fun i '(name, md) =>
                       (exists n, getitem_last (split "/" i) = Ok n
                                  /\ name = replace ".xyz" "" n)
                       /\ loaded w' grid_step i md)
                    paths dimer).
Proof.
  split.
  - intros ds w' E.
    destruct (for_fold_datasets (fun n => n) paths padding grid_step [] ds w w' E)
      as (Hg & new & -> & HF).
    split; [exact Hg |]. cbn [app].
    eapply Forall2_impl; [exact HF |].
    intros i [name md] [(n & Hn & ->) Hl]. auto.
  - intros ds w' E.
    destruct (for_fold_datasets (replace ".xyz" "") paths padding grid_step [] ds w w' E)
      as (Hg & new & -> & HF).
    split; [exact Hg |]. exact HF.
Qed.

End DatasetsLoaded.

(** X15. For a path [dir/stem.xyz] whose stem holds neither '/' nor
    '.xyz', the sugbench loop names the molecule [stem.xyz] and the dimer
    loop names it [stem]. *)
Theorem dataset_names (dir stem : string) :
  ~ In "/"%char (list_ascii_of_string stem) ->
  (forall a b, stem <> (a ++ ".xyz" ++ b)%string) ->
  getitem_last (split "/" (dir ++ "/" ++ stem ++ ".xyz")%string)
  = Ok (stem ++ ".xyz")%string
  /\ replace ".xyz" "" (stem ++ ".xyz")%string = stem.
Proof.
  intros Hslash Hxyz. split; [| now apply replace_xyz_suffix].
  unfold getitem_last.
  change ("/" ++ stem ++ ".xyz")%string with (String "/" (stem ++ ".xyz"))%string.
  rewrite split_app_sep; [reflexivity |].
  rewrite list_ascii_app. intros H. apply in_app_or in H as [H | H]; [auto |].
  cbn in H. repeat (destruct H as [H | H]; [discriminate |]). exact H.
Qed.

(** ** The embedding loop *)

Section EmbeddingLoop.

Context {Mol : Type}.
Variable GetAtomSymbols : Mol -> list string.
Variable GetNumHeavyAtoms : Mol -> nat.
Variable AddHs : Mol -> Mol.
Variable EmbedMolecule : Mol -> Mol.
Variable MMFFOptimizeMolecule : Mol -> result Mol.

Local Abbreviation embed_loop' :=
  (embed_loop GetAtomSymbols GetNumHeavyAtoms AddHs EmbedMolecule
              MMFFOptimizeMolecule).

(** X17. When the embedding loop returns, [embed_mols] holds, in the
    order of [smi], the optimised embedding of every molecule of at most
    30 heavy atoms whose optimisation did not raise [ValueError]; nothing
    else is left out and nothing is added. *)
Theorem embed_loop_is_filter_map (smi : list (option Mol)) (acc out : list Mol) :
  embed_loop GetAtomSymbols GetNumHeavyAtoms AddHs EmbedMolecule
             MMFFOptimizeMolecule smi acc
  = Ok out ->
  out = acc ++ omap (embedded GetNumHeavyAtoms AddHs EmbedMolecule
                              MMFFOptimizeMolecule) smi.
Proof.
  revert acc. induction smi as [| [i |] smi IH]; intros acc E; cbn [embed_loop] in E.
  - injection E as <-. now rewrite app_nil_r.
  - cbn [omap list_omap embedded].
    destruct (30 <? GetNumHeavyAtoms i)%nat; [now apply IH |].
    rewrite has_not_allowed_atoms_false in E.
    destruct (MMFFOptimizeMolecule _) as [u | e].
    + rewrite (IH _ E). now rewrite <- app_assoc.
    + destruct e; try discriminate. now apply IH.
  - discriminate.
Qed.

(** X18. If [MMFFOptimizeMolecule] raises nothing but [ValueError], the
    embedding loop raises exactly when [smi] holds a [None] (a line rdkit
    could not parse), and then [AttributeError]; otherwise it returns. *)
Theorem embed_loop_fails_on_unparsable_line :
  (forall u e, MMFFOptimizeMolecule u = Raise e -> e = ValueError) ->
  forall (smi : list (option Mol)) (acc : list Mol),
    (In None smi ->
     embed_loop GetAtomSymbols GetNumHeavyAtoms AddHs EmbedMolecule
                MMFFOptimizeMolecule smi acc
     = Raise AttributeError)
    /\ (~ In None smi ->
        exists out,
          embed_loop GetAtomSymbols GetNumHeavyAtoms AddHs EmbedMolecule
                     MMFFOptimizeMolecule smi acc
          = Ok out).
Proof.
  intros Hmmff smi. induction smi as [| [i |] smi IH]; intros acc; cbn [embed_loop].
  - split; [intros [] | intros _; eauto].
  - assert (K : forall acc',
               (In None (Some i :: smi) -> embed_loop' smi acc' = Raise AttributeError)
               /\ (~ In None (Some i :: smi) -> exists out, embed_loop' smi acc' = Ok out)).
    { intros acc'. destruct (IH acc') as [H1 H2]. split.
      - intros [H | H]; [discriminate | auto].
      - intros H. apply H2. intros Hin. apply H. now right. }
    destruct (30 <? GetNumHeavyAtoms i)%nat; [apply K |].
    rewrite has_not_allowed_atoms_false.
    destruct (MMFFOptimizeMolecule _) as [u | e] eqn:E; [apply K |].
    rewrite (Hmmff _ _ E). apply K.
  - split; [reflexivity | intros H; exfalso; apply H; now left].
Qed.

End EmbeddingLoop.

(** ** Numbered file names *)

Section FileNames.

Local Open Scope string_scope.

Lemma int_of_digits_zero (s : string) :
  int_of_digits (String "0" s) = int_of_digits s.
Proof.
  unfold int_of_digits. cbn [NilEmpty.uint_of_string].
  destruct (NilEmpty.uint_of_string s) as [d |]; reflexivity.
Qed.

Lemma int_of_digits_zeros (k : nat) (s : string) :
  int_of_digits (string_of_list_ascii (replicate k "0"%char) ++ s) = int_of_digits s.
Proof.
  induction k as [| k IH]; [reflexivity |].
  cbn [replicate string_of_list_ascii]. now rewrite string_app_cons, int_of_digits_zero.
Qed.

Lemma int_of_digits_str (n : nat) : int_of_digits (str n) = Some n.
Proof.
  unfold int_of_digits, str. rewrite NilEmpty.usu. cbn. now rewrite Unsigned.of_to.
Qed.

(** The number can be read back from its zero-padded name. *)
Lemma int_of_digits_format_06d (n : nat) : int_of_digits (format_06d n) = Some n.
Proof. unfold format_06d, zfill. now rewrite int_of_digits_zeros, int_of_digits_str. Qed.

Lemma format_06d_inj (n m : nat) : format_06d n = format_06d m -> n = m.
Proof.
  intros H. apply (f_equal int_of_digits) in H.
  rewrite !int_of_digits_format_06d in H. now injection H.
Qed.

Lemma string_length_app (s t : string) :
  String.length (s ++ t) = (String.length s + String.length t)%nat.
Proof.
  induction s as [| c s IH]; [reflexivity |].
  rewrite string_app_cons. cbn [String.length]. now rewrite IH.
Qed.

Lemma string_app_inj_r (s1 s2 t : string) : s1 ++ t = s2 ++ t -> s1 = s2.
Proof.
  revert s2. induction s1 as [| c s1 IH]; intros [| c2 s2] H.
  - reflexivity.
  - apply (f_equal String.length) in H.
    rewrite string_app_nil_l, string_app_cons in H. cbn [String.length] in H.
    rewrite string_length_app in H. lia.
  - apply (f_equal String.length) in H.
    rewrite string_app_nil_l, string_app_cons in H. cbn [String.length] in H.
    rewrite string_length_app in H. lia.
  - rewrite !string_app_cons in H. injection H as -> H. f_equal. now apply IH.
Qed.

(** Distinct numbers give distinct names, whatever surrounds the digits. *)
Lemma numbered_path_inj (pre suf : string) (n m : nat) :
  pre ++ format_06d n ++ suf = pre ++ format_06d m ++ suf -> n = m.
Proof.
  intros H. apply String.app_inj in H. apply string_app_inj_r in H.
  now apply format_06d_inj.
Qed.

End FileNames.

(** ** The files the A3MDnet notebook writes *)

Section SavedFilesWritten.

Context {Mol Batch : Type}.
(** The text [Chem.MolToMolFile] writes for a molecule. *)
Variable MolToMolBlock : Mol -> string.
(** [to_xyz_file(u.atomic_numbers, u.coordinates)]: the texts it yields. *)
Variable to_xyz_file : Batch -> list string.

Local Abbreviation save_mols' := (save_mols MolToMolBlock).
Local Abbreviation write_xyz_rotated' := (write_xyz_rotated to_xyz_file).

Lemma enumerate_snoc {A : Type} (l : list A) (x : A) :
  enumerate (l ++ [x]) = enumerate l ++ [(length l, x)].
Proof.
  unfold enumerate. rewrite imap_app. cbn [imap]. now rewrite Nat.add_0_r.
Qed.

Lemma foldl_snoc {A B : Type} (f : A -> B -> A) (a : A) (l : list B) (x : B) :
  foldl f a (l ++ [x]) = f (foldl f a l) x.
Proof. now rewrite foldl_app. Qed.

(** X19. After the saving loop, the file [./mol/sugbench_NNNNNN.mol] of
    molecule number [i] holds the block of that molecule and every other
    path of the file system is as before; the number can be read back
    from its zero-padded name, so no two molecules share a file. *)
Theorem save_mols_files (embed_mols : list Mol) (files : gmap string string) :
  (forall i mol,
      embed_mols !! i = Some mol ->
      save_mols' embed_mols files !! ("./mol/sugbench_" ++ format_06d i ++ ".mol")%string
      = Some (MolToMolBlock mol))
  /\ (forall path,
         (forall i, (i < length embed_mols)%nat ->
                    path <> ("./mol/sugbench_" ++ format_06d i ++ ".mol")%string) ->
         save_mols' embed_mols files !! path = files !! path)
  /\ (forall i, int_of_digits (format_06d i) = Some i).
Proof.
  split; [| split; [| apply int_of_digits_format_06d]].
  - induction embed_mols as [| x l IH] using rev_ind; intros i mol Hi; [discriminate |].
    unfold save_mols in *. rewrite enumerate_snoc, foldl_snoc. unfold MolToMolFile at 1.
    destruct (decide (i = length l)) as [-> | Hne].
    + rewrite lookup_insert_eq.
      rewrite lookup_app_r, Nat.sub_diag in Hi by lia. now injection Hi as ->.
    + rewrite lookup_insert_ne.
      * apply IH. rewrite lookup_app_l in Hi; [exact Hi |].
        apply lookup_lt_Some in Hi. rewrite length_app in Hi. cbn in Hi. lia.
      * intros H. apply numbered_path_inj in H. congruence.
  - induction embed_mols as [| x l IH] using rev_ind; intros path Hp; [reflexivity |].
    unfold save_mols in *. rewrite enumerate_snoc, foldl_snoc. unfold MolToMolFile at 1.
    rewrite lookup_insert_ne.
    + apply IH. intros i Hi. apply Hp. rewrite length_app. cbn. lia.
    + intros H. symmetry in H. revert H. apply Hp. rewrite length_app. cbn. lia.
Qed.

Lemma foldl_write_text (path : string) (texts : list string)
      (files : gmap string string) :
  foldl (fun files xyz => write_text path xyz files) files texts
  = match last texts with
    | Some xyz => <[path := xyz]> files
    | None => files
    end.
Proof.
  induction texts as [| x l IH] using rev_ind; [reflexivity |].
  rewrite foldl_snoc, last_snoc, IH. unfold write_text.
  destruct (last l); [apply insert_insert_eq | reflexivity].
Qed.

Lemma write_xyz_rotated_other (batches : list Batch) (files : gmap string string)
      (path : string) :
  (forall i, (i < length batches)%nat ->
             path <> ("./xyz_rotated/sugbench_" ++ format_06d i ++ ".xyz")%string) ->
  write_xyz_rotated' batches files !! path = files !! path.
Proof.
  induction batches as [| x l IH] using rev_ind; intros Hp; [reflexivity |].
  unfold write_xyz_rotated in *. rewrite enumerate_snoc, foldl_snoc, foldl_write_text.
  assert (Hl : forall i, (i < length l)%nat ->
                         path <> ("./xyz_rotated/sugbench_" ++ format_06d i ++ ".xyz")%string).
  { intros i Hi. apply Hp. rewrite length_app. cbn. lia. }
  destruct (last (to_xyz_file x)); [| now apply IH].
  rewrite lookup_insert_ne; [now apply IH |].
  intros H. symmetry in H. revert H. apply Hp. rewrite length_app. cbn. lia.
Qed.

(** X20. The last cell opens the file of a batch anew for every text
    [to_xyz_file] yields: afterwards the file holds the last text only
    (it is as before when nothing was yielded), and every other path is
    as before. *)
Theorem write_xyz_rotated_files (batches : list Batch) (files : gmap string string) :
  (forall i u,
      batches !! i = Some u ->
      write_xyz_rotated' batches files
        !! ("./xyz_rotated/sugbench_" ++ format_06d i ++ ".xyz")%string
      = match last (to_xyz_file u) with
        | Some xyz => Some xyz
        | None => files !! ("./xyz_rotated/sugbench_" ++ format_06d i ++ ".xyz")%string
        end)
  /\ (forall path,
         (forall i, (i < length batches)%nat ->
                    path <> ("./xyz_rotated/sugbench_" ++ format_06d i ++ ".xyz")%string) ->
         write_xyz_rotated' batches files !! path = files !! path).
Proof.
  split; [| intros path; apply write_xyz_rotated_other].
  induction batches as [| x l IH] using rev_ind; intros i u Hi; [discriminate |].
  destruct (decide (i = length l)) as [-> | Hne].
  - rewrite lookup_app_r, Nat.sub_diag in Hi by lia. injection Hi as ->.
    unfold write_xyz_rotated. rewrite enumerate_snoc, foldl_snoc, foldl_write_text.
    destruct (last (to_xyz_file u)) as [xyz |]; [apply lookup_insert_eq |].
    apply write_xyz_rotated_other. intros i Hi H.
    apply numbered_path_inj in H. lia.
  - assert (Hi' : l !! i = Some u).
    { rewrite lookup_app_l in Hi; [exact Hi |].
      apply lookup_lt_Some in Hi. rewrite length_app in Hi. cbn in Hi. lia. }
    rewrite <- (IH i u Hi').
    unfold write_xyz_rotated. rewrite enumerate_snoc, foldl_snoc, foldl_write_text.
    destruct (last (to_xyz_file x)); [| reflexivity].
    apply lookup_insert_ne. intros H. apply numbered_path_inj in H. congruence.
Qed.

End SavedFilesWritten.

(** ** [process_arbitrary_coordinates] *)

Lemma concatenate_Ok {A : Type} (l : list (ndarray A)) (a : ndarray A) :
  np.concatenate l = Ok a ->
  exists tl,
    l <> []
    /\ Forall (fun b => exists n, arr_shape b = n :: tl) l
    /\ arr_shape a = sum_list (map (fun b => hd 0%nat (arr_shape b)) l) :: tl
    /\ arr_data a = concat (map arr_data l).
Proof.
  unfold np.concatenate. destruct l as [| a0 l]; [discriminate |].
  destruct (arr_shape a0) as [| n0 tl] eqn:E0; [discriminate |].
  destruct (forallb _ _) eqn:Hall; [| discriminate].
  intros H. injection H as <-. exists tl.
  split; [congruence |]. split; [| split; reflexivity].
  rewrite forallb_forall in Hall. apply Forall_forall. intros b Hb.
  apply list_elem_of_In in Hb. specialize (Hall b Hb).
  destruct (arr_shape b) as [| n tl']; [discriminate |].
  apply bool_decide_eq_true in Hall. subst. eauto.
Qed.

Lemma concatenate_ok {A : Type} (l : list (ndarray A)) (a : ndarray A) :
  np.concatenate l = Ok a -> Forall ndarray_ok l -> ndarray_ok a.
Proof.
  intros H Hok. destruct (concatenate_Ok l a H) as (tl & _ & Hsh & Ea & Ed).
  unfold ndarray_ok. rewrite Ea, Ed. cbn [fold_right]. clear H Ea Ed a.
  induction Hok as [| b l Hb _ IH]; [reflexivity |].
  apply Forall_cons in Hsh as [[n Hn] Hsh].
  cbn [map concat sum_list sum_list_with]. rewrite length_app, (IH Hsh).
  unfold ndarray_ok in Hb. rewrite Hb, Hn. cbn [hd fold_right].
  unfold sum_list, id. nia.
Qed.

Lemma concatenate_Raise {A : Type} (l : list (ndarray A)) (e : PyExn) :
  np.concatenate l = Raise e -> e = ValueError.
Proof.
  unfold np.concatenate. destruct l as [| a l]; [congruence |].
  destruct (arr_shape a); [congruence |]. destruct (forallb _ _); congruence.
Qed.

Lemma sum_list_Forall2 {A B : Type} (f : A -> nat) (g : B -> nat)
      (l : list A) (k : list B) :
  Forall2 (fun a b => f a = g b) l k -> sum_list (map f l) = sum_list (map g k).
Proof.
  induction 1 as [| a b l k H _ IH]; [reflexivity |].
  cbn [map]. unfold sum_list in *. cbn [sum_list_with]. now rewrite H, IH.
Qed.

Section ArbitraryCoordinatesProps.

Variable probes_to_graph :
  Atoms -> ndarray Q -> Q -> list (ndarray Z) * list (ndarray Q).

(** X21. [process_arbitrary_coordinates] raises [ValueError] when the
    probe graph has no edge array or no feature array. When it returns,
    [num_probe_edges] is the sum of the first dimensions of the edge
    arrays and the first dimension of [probe_edges], whose data is the
    concatenation of theirs; [probe_edges_features] has second dimension
    1 and, when edges and features agree in length array by array, first
    dimension [num_probe_edges]; [num_probes] is the first dimension of
    [r]; well-formed arrays give well-formed arrays. *)
Theorem process_arbitrary_coordinates_counts (atoms : Atoms) (r : ndarray Q)
        (cutoff : Q) (edges : list (ndarray Z)) (feats : list (ndarray Q)) :
  probes_to_graph atoms r cutoff = (edges, feats) ->
  (edges = [] \/ feats = [] ->
   process_arbitrary_coordinates probes_to_graph atoms r cutoff = Raise ValueError)
  /\ (forall d,
         process_arbitrary_coordinates probes_to_graph atoms r cutoff = Ok d ->
         pd_num_probe_edges d = sum_list (map (fun e => hd 0%nat (arr_shape e)) edges)
         /\ hd_error (arr_shape (pd_probe_edges d)) = Some (pd_num_probe_edges d)
         /\ arr_data (pd_probe_edges d) = concat (map arr_data edges)
         /\ (exists tl, arr_shape (pd_probe_edges_features d)
                        = sum_list (map (fun f => hd 0%nat (arr_shape f)) feats)
                          :: 1%nat :: tl)
         /\ hd_error (arr_shape r) = Some (pd_num_probes d)
         /\ (Forall ndarray_ok edges -> ndarray_ok (pd_probe_edges d))
         /\ (Forall ndarray_ok feats -> ndarray_ok (pd_probe_edges_features d))
         /\ (Forall2 (fun e f => hd 0%nat (arr_shape e) = hd 0%nat (arr_shape f))
                     edges feats ->
             hd_error (arr_shape (pd_probe_edges_features d))
             = Some (pd_num_probe_edges d))).
Proof.
  intros Hg. unfold process_arbitrary_coordinates. rewrite Hg. split.
  - intros [-> | ->]; [reflexivity |].
    destruct (np.concatenate edges) as [pe | e] eqn:Ee; [reflexivity |].
    now rewrite (concatenate_Raise _ _ Ee).
  - intros d E.
    destruct (np.concatenate edges) as [pe |] eqn:Ee; [| discriminate].
    cbn [mbind result_bind] in E.
    destruct (np.concatenate feats) as [pf |] eqn:Ef; [| discriminate].
    cbn [mbind result_bind] in E.
    destruct (concatenate_Ok _ _ Ee) as (tle & _ & _ & She & Ede).
    destruct (concatenate_Ok _ _ Ef) as (tlf & _ & _ & Shf & Edf).
    unfold np.newaxis1, np.shape0 in E. rewrite Shf, She in E.
    cbn [mbind result_bind] in E.
    destruct (arr_shape r) as [| nr tlr] eqn:Sr; [discriminate |].
    cbn [mbind result_bind mret result_ret] in E. injection E as <-.
    cbn [pd_probe_edges pd_probe_edges_features pd_num_probe_edges pd_num_probes
         arr_shape arr_data hd_error].
    split; [reflexivity |]. split; [now rewrite She |]. split; [exact Ede |].
    split; [eauto |]. split; [reflexivity |]. split; [| split].
    + intros Hok. eapply concatenate_ok; eassumption.
    + intros Hok. pose proof (concatenate_ok _ _ Ef Hok) as Hpf.
      unfold ndarray_ok in *. cbn [arr_shape arr_data fold_right].
      rewrite Hpf, Shf. cbn [fold_right]. lia.
    + intros HF. f_equal. symmetry. now apply sum_list_Forall2.
Qed.

End ArbitraryCoordinatesProps.

(** ** The AIM analysis of the dimers *)

Lemma Qmin_cases (x y : Q) : Qmin x y = x \/ Qmin x y = y.
Proof.
  unfold Qmin, GenericMinMax.gmin. destruct (x ?= y); auto.
Qed.

Lemma fold_left_Qmin_In (l : list Q) (x : Q) : In (fold_left Qmin l x) (x :: l).
Proof.
  revert x. induction l as [| a l IH]; intros x; cbn [fold_left]; [now left |].
  destruct (IH (Qmin x a)) as [H | H]; [| right; now right].
  rewrite <- H. destruct (Qmin_cases x a) as [-> | ->]; [now left | right; now left].
Qed.

Lemma min_charge_elem (rows : list AimRow) (r : AimRow) (c : Q) :
  r ∈ rows -> ar_charge r = Some c ->
  exists m, min_charge rows (mr_id (ar_mol r)) = Some m
            /\ m <= c
            /\ exists r', r' ∈ rows /\ mr_id (ar_mol r') = mr_id (ar_mol r)
                          /\ ar_charge r' = Some m.
Proof.
  intros Hr Hc. unfold min_charge.
  set (f := fun r0 : AimRow =>
              if String.eqb (mr_id (ar_mol r0)) (mr_id (ar_mol r)) then ar_charge r0
              else None).
  assert (Hin : c ∈ omap f rows).
  { apply list_elem_of_omap. exists r. split; [exact Hr |].
    unfold f. now rewrite String.eqb_refl. }
  destruct (omap f rows) as [| c0 cs] eqn:E; [now apply elem_of_nil in Hin |].
  exists (fold_left Qmin cs c0). split; [reflexivity |]. split.
  - destruct (fold_left_Qmin_le cs c0) as [H1 H2].
    apply elem_of_cons in Hin as [-> | Hin]; [exact H1 |].
    apply H2. now apply list_elem_of_In.
  - assert (Hm : fold_left Qmin cs c0 ∈ omap f rows).
    { rewrite E. apply list_elem_of_In. apply fold_left_Qmin_In. }
    apply list_elem_of_omap in Hm as (r' & Hr' & Hf). exists r'.
    split; [exact Hr' |]. unfold f in Hf.
    destruct (String.eqb_spec (mr_id (ar_mol r')) (mr_id (ar_mol r))); [auto | discriminate].
Qed.

(** X22. The column [d_charge]: it is missing at a row whose charge is
    missing; at every other row it is non-negative, and some row of the
    same [id] has [d_charge] zero. *)
Theorem d_charge_is_relative_to_minimum (rows : list AimRow) (r : AimRow) :
  r ∈ rows ->
  match ar_charge r with
  | None => d_charge rows r = None
  | Some c =>
      (exists d, d_charge rows r = Some d /\ 0 <= d)
      /\ exists r' d',
           r' ∈ rows /\ mr_id (ar_mol r') = mr_id (ar_mol r)
           /\ d_charge rows r' = Some d' /\ d' == 0
  end.
Proof.
  intros Hr. destruct (ar_charge r) as [c |] eqn:Hc.
  2:{ unfold d_charge. now rewrite Hc. }
  destruct (min_charge_elem rows r c Hr Hc) as (m & Hm & Hle & r' & Hr' & Hid & Hc').
  split.
  - exists (c - m). unfold d_charge. rewrite Hc. cbn. rewrite Hm. cbn.
    split; [reflexivity |]. now apply -> Qle_minus_iff.
  - exists r', (m - m). split; [exact Hr' |]. split; [exact Hid |].
    unfold d_charge. rewrite Hc', Hid. cbn. rewrite Hm. cbn.
    split; [reflexivity | ring].
Qed.

(** *** The ids of the atoms *)

Lemma string_of_uint_digits (d : uint) :
  Forall (fun c => is_digit c = true) (list_ascii_of_string (NilEmpty.string_of_uint d)).
Proof. induction d; cbn; constructor; (reflexivity || assumption). Qed.

Lemma str_digits (n : nat) :
  Forall (fun c => is_digit c = true) (list_ascii_of_string (str n)).
Proof. apply string_of_uint_digits. Qed.

Lemma str_inj (n m : nat) : str n = str m -> n = m.
Proof.
  intros H. apply (f_equal int_of_digits) in H.
  rewrite !int_of_digits_str in H. now injection H.
Qed.

(** An element symbol without digits can be told from the number that
    follows it. *)
Lemma id_inj (e1 e2 : string) (k1 k2 : nat) :
  no_digit e1 -> no_digit e2 ->
  (e1 ++ str k1)%string = (e2 ++ str k2)%string -> e1 = e2 /\ k1 = k2.
Proof.
  unfold no_digit. revert e2.
  induction e1 as [| c1 e1 IH]; intros [| c2 e2] H1 H2 E.
  - split; [reflexivity | now apply str_inj].
  - exfalso. rewrite string_app_nil_l, string_app_cons in E.
    pose proof (str_digits k1) as Hd. rewrite E in Hd.
    cbn [list_ascii_of_string] in Hd, H2.
    apply Forall_cons in Hd as [Hd _]. apply Forall_cons in H2 as [H2 _]. congruence.
  - exfalso. rewrite string_app_nil_l, string_app_cons in E.
    pose proof (str_digits k2) as Hd. rewrite <- E in Hd.
    cbn [list_ascii_of_string] in Hd, H1.
    apply Forall_cons in Hd as [Hd _]. apply Forall_cons in H1 as [H1 _]. congruence.
  - rewrite !string_app_cons in E. injection E as -> E.
    cbn [list_ascii_of_string] in H1, H2.
    apply Forall_cons in H1 as [_ H1]. apply Forall_cons in H2 as [_ H2].
    destruct (IH e2 H1 H2 E) as [-> ->]. auto.
Qed.

Lemma mol_table_lookup (parsed : list (string * vec3)) (k : nat) (r : MolRow) :
  mol_table parsed !! k = Some r <->
  exists e xyz, parsed !! k = Some (e, xyz)
                /\ r = mkMolRow (k + 1) e xyz (e ++ str (k + 1))%string.
Proof.
  unfold mol_table. rewrite list_lookup_imap_Some. split.
  - intros ([e xyz] & H & ->). eauto.
  - intros (e & xyz & H & ->). exists (e, xyz). auto.
Qed.

Lemma mol_table_ids (parsed : list (string * vec3)) :
  Forall (fun p => no_digit p.1) parsed ->
  NoDup (map mr_id (mol_table parsed)).
Proof.
  intros Hnd. apply NoDup_alt. intros i j x Hi Hj.
  apply list_lookup_fmap_Some in Hi as (ri & -> & Hi).
  apply list_lookup_fmap_Some in Hj as (rj & E & Hj).
  apply mol_table_lookup in Hi as (e1 & xyz1 & P1 & ->).
  apply mol_table_lookup in Hj as (e2 & xyz2 & P2 & ->).
  cbn [mr_id] in E.
  assert (N1 : no_digit e1).
  { eapply (proj1 (Forall_lookup _ _) Hnd i (e1, xyz1)); exact P1. }
  assert (N2 : no_digit e2).
  { eapply (proj1 (Forall_lookup _ _) Hnd j (e2, xyz2)); exact P2. }
  destruct (id_inj _ _ _ _ N1 N2 E) as [_ H]. lia.
Qed.

(** *** The rows of [aim_analysis] *)

Lemma enumerate_lookup {A : Type} (l : list A) (i j : nat) (x : A) :
  enumerate l !! i = Some (j, x) <-> j = i /\ l !! i = Some x.
Proof.
  unfold enumerate. rewrite list_lookup_imap_Some. split.
  - intros (y & H & E). injection E as -> ->. auto.
  - intros [-> H]. eauto.
Qed.

Lemma length_enumerate {A : Type} (l : list A) : length (enumerate l) = length l.
Proof. apply length_imap. Qed.

Lemma fst_enumerate {A : Type} (l : list A) :
  map fst (enumerate l) = seq 0 (length l).
Proof.
  apply list_eq. intros i. rewrite list_lookup_fmap.
  destruct (l !! i) as [x |] eqn:E.
  - rewrite (proj2 (enumerate_lookup l i i x) (conj eq_refl E)). cbn.
    symmetry. apply lookup_seq. split; [reflexivity |]. now apply lookup_lt_Some in E.
  - apply lookup_ge_None in E.
    rewrite (proj2 (lookup_ge_None (enumerate l) i)) by (rewrite length_enumerate; lia).
    cbn. symmetry. apply lookup_ge_None. rewrite length_seq. lia.
Qed.

Lemma snd_enumerate {A : Type} (l : list A) : map snd (enumerate l) = l.
Proof.
  apply list_eq. intros i. rewrite list_lookup_fmap.
  destruct (l !! i) as [x |] eqn:E.
  - now rewrite (proj2 (enumerate_lookup l i i x) (conj eq_refl E)).
  - apply lookup_ge_None in E.
    now rewrite (proj2 (lookup_ge_None (enumerate l) i)) by (rewrite length_enumerate; lia).
Qed.

Lemma length_concat_map {A B : Type} (g : A -> list B) (m : nat) (l : list A) :
  (forall a, length (g a) = m) -> length (concat (map g l)) = (length l * m)%nat.
Proof.
  intros Hg. induction l as [| a l IH]; [reflexivity |].
  cbn [map concat length]. rewrite length_app, Hg, IH. lia.
Qed.

Lemma NoDup_concat_pairs {A B C : Type} (ids : list A) (names : list (B * C)) :
  NoDup ids -> NoDup (map fst names) ->
  NoDup (concat (map (fun p : B * C => map (fun a => (a, p.1)) ids) names)).
Proof.
  intros Hids. induction names as [| [i name] names IH]; intros Hn; [constructor |].
  cbn [map concat fst] in *. apply NoDup_cons in Hn as [Hi Hn].
  apply NoDup_app. split; [| split; [| now apply IH]].
  - assert (Hinj : Inj (=) (=) (fun a : A => (a, i)))
      by (intros a b H; now injection H).
    exact (NoDup_fmap_2 (fun a : A => (a, i)) ids Hids).
  - intros [a j] Ha Hb. apply list_elem_of_fmap in Ha as (a' & E & _).
    injection E as -> ->.
    apply list_elem_of_In, in_concat in Hb as (t & Ht & Hb).
    apply in_map_iff in Ht as ([j name'] & <- & Hj).
    apply in_map_iff in Hb as (a'' & E & _). injection E as _ <-.
    apply Hi. apply list_elem_of_fmap. exists (j, name'). split; [reflexivity |].
    now apply list_elem_of_In.
Qed.

Section AimAnalysisProps.

Variable read_charges : string -> gmap nat Q.

(** X23. Without charge files [pd.concat] raises [ValueError]. Otherwise
    the files are numbered from 0 in sorted order, [aim_analysis] has one
    row for every file and atom, no pair of [id] and [scale] occurs twice
    (element symbols holding no digits), and the charge of a row is the
    charge its file of number [scale] gives at the index of the atom,
    missing when the file has no such row. *)
Theorem aim_analysis_rows (parsed : list (string * vec3)) (charge_files : list string) :
  Forall (fun p => no_digit p.1) parsed ->
  (charge_files = [] ->
   aim_analysis read_charges (mol_table parsed) charge_files = Raise ValueError)
  /\ (charge_files <> [] ->
      exists names rows,
        aim_analysis read_charges (mol_table parsed) charge_files = Ok (names, rows)
        /\ map fst names = seq 0 (length charge_files)
        /\ map snd names ≡ₚ charge_files
        /\ Sorted String.le (map snd names)
        /\ length rows = (length charge_files * length parsed)%nat
        /\ NoDup (map (fun r => (mr_id (ar_mol r), ar_scale r)) rows)
        /\ forall r, r ∈ rows ->
             exists name,
               names !! ar_scale r = Some (ar_scale r, name)
               /\ ar_mol r ∈ mol_table parsed
               /\ ar_charge r = read_charges name !! mr_index (ar_mol r)).
Proof.
  intros Hnd. split.
  - intros ->. reflexivity.
  - intros Hne. unfold aim_analysis.
    pose proof (merge_sort_Permutation String.le charge_files) as Hperm.
    fold (sorted charge_files) in Hperm.
    set (sf := sorted charge_files) in *.
    set (G := fun '((i, name) : nat * string) =>
                join_charge (mol_table parsed) (read_charges name) i).
    assert (Hlen : length sf = length charge_files) by now rewrite Hperm.
    exists (enumerate sf), (concat (map G (enumerate sf))).
    split.
    { destruct (map G (enumerate sf)) as [| t ts] eqn:E; [| reflexivity].
      apply (f_equal length) in E. rewrite length_map, length_enumerate, Hlen in E.
      destruct charge_files; [congruence | discriminate]. }
    split; [now rewrite fst_enumerate, Hlen |].
    rewrite snd_enumerate.
    split; [exact Hperm |].
    split; [apply Sorted_merge_sort; apply _ |].
    split; [| split].
    + rewrite (length_concat_map G (length parsed)).
      * now rewrite length_enumerate, Hlen.
      * intros [i name]. unfold G, join_charge, mol_table.
        now rewrite length_map, length_imap.
    + replace (map (fun r => (mr_id (ar_mol r), ar_scale r)) (concat (map G (enumerate sf))))
        with (concat (map (fun p : nat * string =>
                             map (fun a => (a, p.1)) (map mr_id (mol_table parsed)))
                          (enumerate sf))).
      * apply NoDup_concat_pairs; [now apply mol_table_ids |].
        rewrite fst_enumerate. apply NoDup_seq.
      * generalize (enumerate sf). intros l.
        induction l as [| [i name] l IH]; [reflexivity |].
        cbn [map concat]. rewrite map_app, <- IH. f_equal.
        unfold G, join_charge. rewrite !map_map. reflexivity.
    + intros r Hr. apply list_elem_of_In, in_concat in Hr as (t & Ht & Hr).
      apply in_map_iff in Ht as ([i name] & <- & Hi).
      unfold G, join_charge in Hr. apply in_map_iff in Hr as (m & <- & Hm).
      cbn [ar_scale ar_mol ar_charge]. exists name.
      split; [| split; [now apply list_elem_of_In | reflexivity]].
      apply list_elem_of_In, list_elem_of_lookup in Hi as [k Hk].
      pose proof Hk as Hk'. apply enumerate_lookup in Hk' as [-> _]. exact Hk.
Qed.

End AimAnalysisProps.

(** ** The theorems at concrete inputs *)

Lemma example_center_Cell_ok (vacuum : Q) (atoms : Atoms) :
  Cell_ok (atoms_cell (example_center vacuum atoms)).
Proof.
  assert (K : forall a : Q, norm_of (Qabs a) (a, 0, 0)
                            /\ norm_of (Qabs a) (0, a, 0)
                            /\ norm_of (Qabs a) (0, 0, a)).
  { intros a. assert (E : Qabs a * Qabs a == a * a).
    { apply (Qabs_case a (fun y => y * y == a * a)); intros _; ring. }
    unfold norm_of. repeat split; try apply Qabs_nonneg; rewrite E; ring. }
  unfold Cell_ok, example_center. cbn [atoms_cell cell_rows cell_lengths].
  repeat split; apply K.
Qed.

Lemma example_cellpar_lengths (abc angles : vec3) :
  Forall (Qle 0) (vec3_list abc) ->
  vec3_eq (cell_lengths (example_cellpar_to_cell abc angles)) abc.
Proof. destruct abc as [[a b] c]. intros _. cbn. repeat split; reflexivity. Qed.

Lemma example_grid_world_init :
  LazyMeshGrid_init 0%nat (1 # 2) None example_world = (Ok 11%nat, example_grid_world).
Proof. vm_compute. reflexivity. Qed.

Lemma getitem_position_witness :
  exists (r : ref) (data : list Q),
    (LazyMeshGrid_getitem 11%nat example_indices example_grid_world).1 = Ok r
    /\ heap (LazyMeshGrid_getitem 11%nat example_indices example_grid_world).2 !! r
       = Some (FloatArray (NdArray [2%nat; 3%nat] data))
    /\ forall n, (n < 2)%nat ->
         let '(i, j, k) := column example_indices n in
         vec3_eq (row3 data n)
                 (vec3_add (0, 0, 0)
                    (vec3_matmul (fraction i 4, fraction j 6, fraction k 2)
                                 (cell_rows example_cell))).
Proof.
  apply (getitem_position example_world example_grid_world 0%nat example_cell
           (1 # 2) None (0, 0, 0) 11%nat).
  - reflexivity.
  - reflexivity.
  - vm_compute. reflexivity.
  - repeat constructor; [exists 4%Z | exists 6%Z | exists 2%Z]; reflexivity.
  - split; [reflexivity | exists []; reflexivity].
  - reflexivity.
  - reflexivity.
  - reflexivity.
  - repeat constructor; lia.
  - repeat constructor; lia.
  - repeat constructor; lia.
Defined.

Lemma getitem_fails_on_empty_axis_witness :
  (exists st, grid_state example_flat_grid_world 11%nat = Some st
              /\ (gs_scaled_grid_vectors st).2 !! 2%nat
                 = Some (FloatArray (NdArray [0%nat] [])))
  /\ (exists sh, grid_shape example_flat_grid_world 11%nat = Some sh
                 /\ sh !! 2%nat = Some 0%Z)
  /\ forall (indices : ndarray Z) (N : nat),
       ndarray_ok indices ->
       arr_shape indices = [3%nat; N] ->
       (0 < N)%nat ->
       (LazyMeshGrid_getitem 11%nat indices example_flat_grid_world).1
       = Raise IndexError.
Proof.
  apply (getitem_fails_on_empty_axis example_flat_world example_flat_grid_world
           0%nat example_flat_cell (1 # 2) None (NdArray [3%nat] [0; 0; 0])
           11%nat 2%nat).
  - reflexivity.
  - reflexivity.
  - vm_compute. reflexivity.
  - right. reflexivity.
  - lia.
  - vm_compute. discriminate.
  - split; [reflexivity | exists []; reflexivity].
Defined.

Lemma example_is_grid :
  is_grid (heap example_grid_world) 11%nat example_cell (1 # 2)
          (NdArray [1%nat; 3%nat] [0; 0; 0]).
Proof.
  exists (mkLazyMeshGrid 0%nat 7%nat 8%nat 10%nat), 2%nat, 4%nat, 6%nat,
         (FloatArray (NdArray [1%nat; 3%nat] [0; 0; 0])).
  vm_compute. repeat split.
Defined.

Lemma example_is_grid_later :
  is_grid (heap example_later_world) 11%nat example_cell (1 # 2)
          (NdArray [1%nat; 3%nat] [0; 0; 0]).
Proof.
  exists (mkLazyMeshGrid 0%nat 7%nat 8%nat 10%nat), 2%nat, 4%nat, 6%nat,
         (FloatArray (NdArray [1%nat; 3%nat] [0; 0; 0])).
  vm_compute. repeat split.
Defined.

Lemma getitem_deterministic_witness :
  outcome (LazyMeshGrid_getitem 11%nat example_indices) example_grid_world
  = outcome (LazyMeshGrid_getitem 11%nat example_indices) example_later_world.
Proof.
  apply (getitem_deterministic example_grid_world example_later_world 11%nat 11%nat
           example_cell (1 # 2) (NdArray [1%nat; 3%nat] [0; 0; 0]) example_indices).
  - exact example_is_grid.
  - exact example_is_grid_later.
  - reflexivity.
Defined.

Lemma getitem_accepts_exactly_3xN_witness :
  ((LazyMeshGrid_getitem 11%nat example_indices example_grid_world).1
   = Raise NotImplementedError
   <-> ~ exists N, arr_shape example_indices = [3%nat; N])
  /\ (forall (N : nat) (sh : list Z),
        arr_shape example_indices = [3%nat; N] ->
        grid_shape example_grid_world 11%nat = Some sh ->
        in_bounds sh example_indices ->
        exists (r : ref) (data : list Q),
          (LazyMeshGrid_getitem 11%nat example_indices example_grid_world).1 = Ok r
          /\ heap (LazyMeshGrid_getitem 11%nat example_indices example_grid_world).2 !! r
             = Some (FloatArray (NdArray [N; 3%nat] data))
          /\ length data = (N * 3)%nat
          /\ forall n, (n < N)%nat ->
               let '(i, j, k) := column example_indices n in
               let '(la, lb, lc) := cell_lengths example_cell in
               exists x y z : Q,
                 np.index1 (grid_vector_data la (1 # 2)) i = Some x
                 /\ np.index1 (grid_vector_data lb (1 # 2)) j = Some y
                 /\ np.index1 (grid_vector_data lc (1 # 2)) k = Some z
                 /\ vec3_eq (row3 data n)
                            (vec3_add (origin_row 3 [0; 0; 0])
                                      (vec3_matmul (x, y, z) (cell_rows example_cell)))).
Proof.
  apply (getitem_accepts_exactly_3xN example_world example_grid_world 0%nat
           example_cell (1 # 2) None (NdArray [3%nat] [0; 0; 0]) 11%nat).
  - reflexivity.
  - reflexivity.
  - vm_compute. reflexivity.
  - split; [reflexivity | exists []; reflexivity].
  - reflexivity.
Defined.

(** C6 as the claim states it, for every grid, fails on a grid whose
    origin has two coordinates: the constructor accepts the origin, the
    index triples (1, 2, 0) and (3, 5, 1) are a valid 3x2 array within the
    bounds of the 4 x 6 x 2 grid, and [__getitem__] raises [ValueError]
    instead of returning positions. *)
Lemma getitem_accepts_exactly_3xN_counterexample :
  exists (self : ref) (w1 : world),
    LazyMeshGrid_init 0%nat (1 # 2) (Some 1%nat) example_origin_world = (Ok self, w1)
    /\ ndarray_ok example_indices
    /\ arr_shape example_indices = [3%nat; 2%nat]
    /\ grid_shape w1 self = Some [4; 6; 2; 3]%Z
    /\ in_bounds [4; 6; 2; 3]%Z example_indices
    /\ (LazyMeshGrid_getitem self example_indices w1).1 = Raise ValueError.
Proof.
  eexists _, _. split; [vm_compute; reflexivity |].
  split; [reflexivity |]. split; [reflexivity |]. split; [reflexivity |].
  split; [| reflexivity].
  intros [| [| [| t]]] Ht; try lia; repeat constructor; cbn; lia.
Qed.

Lemma getitem_leaves_grid_unchanged_witness :
  let w' := (LazyMeshGrid_getitem 11%nat example_indices example_grid_world).2 in
  grid_state w' 11%nat = Some example_grid_state
  /\ (forall r o, heap example_grid_world !! r = Some o -> heap w' !! r = Some o)
  /\ trace w' = trace example_grid_world.
Proof.
  apply (getitem_leaves_grid_unchanged example_grid_world 11%nat example_indices
           example_grid_state).
  vm_compute. reflexivity.
Defined.

Example example_molecule_grid :
  example_molecule_run = (Ok example_molecule, example_molecule_world)
  /\ grid_shape example_molecule_world (md_grid_position example_molecule)
     = Some [7; 5; 4; 3]%Z.
Proof. split; vm_compute; reflexivity. Qed.

Lemma has_not_allowed_atoms_never_filters_witness :
  In ["C"; "S"; "H"]%string
     (default [] (match embed_loop (fun m : list string => m)
                          (fun m => length m) (fun m => m ++ ["H"]%string)
                          (fun m => m) (fun m => Ok m) example_smiles [] with
                  | Ok l => Some l
                  | Raise _ => None
                  end)).
Proof.
  apply (proj2 (has_not_allowed_atoms_never_filters
                  (fun m : list string => m) (fun m => length m)
                  (fun m => m ++ ["H"]%string) (fun m => m) (fun m => Ok m))
               example_smiles _ ["C"; "S"]%string).
  - vm_compute. reflexivity.
  - vm_compute. auto.
  - vm_compute. lia.
  - reflexivity.
Defined.

Lemma example_molecule_ok :
  molecule_ok example_molecule_world example_molecule
              (atoms_cell (md_atoms example_molecule)) (1 # 2) [0; 0; 0]
              (NdArray [3%nat] [0; 0; 0]).
Proof.
  split.
  - exists (mkLazyMeshGrid 1%nat 8%nat 9%nat 11%nat), 3%nat, 5%nat, 7%nat,
           (FloatArray (NdArray [1%nat; 3%nat] [0; 0; 0])).
    vm_compute. repeat split.
  - exists (FloatArray (NdArray [3%nat] [0; 0; 0])). vm_compute. split; reflexivity.
Defined.

Lemma cube_loops_follow_protocol_witness :
  exists (w' : world) (evss : list (list event)),
    dimer_loop (fun _ => tt) (fun _ => tt) (fun _ pos _ => pos) (fun l => l)
               example_probe_model 4 (fun _ => true)
               [("water"%string, example_molecule); ("again"%string, example_molecule)]
               example_molecule_world
    = (Ok tt, w')
    /\ trace w' = trace example_molecule_world ++ concat evss
    /\ Forall2 (fun '(i, dd) evs =>
                  cube_protocol (fun _ => tt) (fun _ => tt) (fun _ pos _ => pos)
                                (fun l => l) example_probe_model 4
                                example_molecule_world
                                ("./dimers/" ++ i ++ ".cube")
                                [EvPrint ("processing " ++ i)]
                                [EvPrint "-- DONE"] dd evs)
               [("water"%string, example_molecule); ("again"%string, example_molecule)]
               evss.
Proof.
  apply (proj2 (cube_loops_follow_protocol
                  (fun _ => tt) (fun _ => tt) (fun _ pos _ => pos) (fun l => l)
                  example_probe_model 4 (fun _ => true))).
  repeat constructor; eexists _, _, _, _; exact example_molecule_ok.
Defined.

Lemma cube_writer_fails_on_unwritable_path_witness :
  exists e,
    sugbench_loop (fun _ => tt) (fun _ => tt) (fun _ pos _ => pos) (fun l => l)
                  example_probe_model 4 (fun _ => false)
                  [("water"%string, example_molecule)] example_molecule_world
    = (Raise e,
       World (heap example_molecule_world)
             (trace example_molecule_world ++ [EvPrint "processing water"])).
Proof.
  apply (proj1 (proj2 (cube_writer_fails_on_unwritable_path
                         (fun _ => tt) (fun _ => tt) (fun _ pos _ => pos)
                         (fun l => l) example_probe_model 4 (fun _ => false)))).
  reflexivity.
Defined.

(** The two loops on the example molecule: the writer's header comes
    first and once, then one write of the 140 densities of the 7 x 5 x 4
    grid; an unwritable path raises [OSError] before anything is
    written. *)
Example example_sugbench_trace :
  match sugbench_loop (fun _ => tt) (fun _ => tt) (fun _ pos _ => pos) (fun l => l)
                      example_probe_model 4 (fun _ => true)
                      [("water"%string, example_molecule)] example_molecule_world with
  | (Ok tt, w') =>
      match trace w' with
      | [EvPrint p; EvCubeWriter path _ sh o _; EvWrite path' values;
         EvAseWrite xyz _; EvPrint d] =>
          p = "processing water"%string
          /\ path = "./cube/water.deepdft.cube"%string /\ path' = path
          /\ sh = [7; 5; 4]%Z /\ o = [0; 0; 0] /\ length values = 140%nat
          /\ xyz = "./cube/water.xyz"%string /\ d = "-- DONE"%string
      | _ => False
      end
  | _ => False
  end.
Proof. vm_compute. repeat split. Qed.

Example example_unwritable :
  (sugbench_loop (fun _ => tt) (fun _ => tt) (fun _ pos _ => pos) (fun l => l)
                 example_probe_model 4 (fun _ => false)
                 [("water"%string, example_molecule)] example_molecule_world).1
  = Raise OSError.
Proof. vm_compute. reflexivity. Qed.

Example example_fine_trace :
  match dimer_loop (fun _ => tt) (fun _ => tt) (fun _ pos _ => pos) (fun l => l)
                   example_probe_model 4 (fun _ => true)
                   [("water"%string, example_fine_molecule)] example_fine_run.2 with
  | (Ok tt, w') =>
      map (fun e => match e with
                    | EvWrite _ values => Some (length values)
                    | _ => None
                    end) (trace w')
      = [None; None; Some 1000%nat; Some 120%nat; None]
  | _ => False
  end.
Proof. vm_compute. reflexivity. Qed.

(** The positions of the index triples (1, 2, 0) and (3, 5, 1) on the
    2 x 3 x 1 cell with step 0.5: (0.5, 1, 0) and (1.5, 2.5, 0.5). *)
Example example_positions :
  match outcome (LazyMeshGrid_getitem 11%nat example_indices) example_grid_world with
  | Ok (Some (FloatArray a)) =>
      arr_shape a = [2%nat; 3%nat]
      /\ Forall2 Qeq (arr_data a) [1 # 2; 1; 0; 3 # 2; 5 # 2; 1 # 2]
  | _ => False
  end.
Proof. vm_compute. repeat constructor. Qed.

(** Negative indices count from the end; an index beyond the axis raises
    [IndexError]; a flat triple is not a 3xN array. *)
Example example_negative_index :
  match outcome (LazyMeshGrid_getitem 11%nat (NdArray [3%nat; 1%nat] [-1; -6; -2]%Z))
                example_grid_world with
  | Ok (Some (FloatArray a)) => Forall2 Qeq (arr_data a) [3 # 2; 0; 0]
  | _ => False
  end.
Proof. vm_compute. repeat constructor. Qed.

Example example_index_error :
  outcome (LazyMeshGrid_getitem 11%nat (NdArray [3%nat; 1%nat] [4; 0; 0]%Z))
          example_grid_world
  = Raise IndexError.
Proof. reflexivity. Qed.

Example example_flat_triple :
  outcome (LazyMeshGrid_getitem 11%nat (NdArray [3%nat] [1; 2; 0]%Z))
          example_grid_world
  = Raise NotImplementedError.
Proof. reflexivity. Qed.

Example example_zero_step :
  (LazyMeshGrid_init 0%nat 0 None example_world).1 = Raise ValueError.
Proof. reflexivity. Qed.

Lemma getitem_index_error_iff_witness :
  (LazyMeshGrid_getitem 11%nat (NdArray [3%nat; 1%nat] [4; 0; 0]%Z)
                        example_grid_world).1
  = Raise IndexError
  <-> ~ in_bounds [4; 6; 2; 3]%Z (NdArray [3%nat; 1%nat] [4; 0; 0]%Z).
Proof.
  apply (getitem_index_error_iff example_grid_world 11%nat example_cell (1 # 2)
           (NdArray [1%nat; 3%nat] [0; 0; 0]) (NdArray [3%nat; 1%nat] [4; 0; 0]%Z)
           1%nat).
  - exact example_is_grid.
  - reflexivity.
  - reflexivity.
  - reflexivity.
Defined.

Lemma getitem_congruent_indices_witness :
  outcome (LazyMeshGrid_getitem 11%nat (NdArray [3%nat; 1%nat] [-1; -6; -2]%Z))
          example_grid_world
  = outcome (LazyMeshGrid_getitem 11%nat (NdArray [3%nat; 1%nat] [3; 0; 0]%Z))
            example_grid_world.
Proof.
  apply (getitem_congruent_indices example_grid_world 11%nat example_cell (1 # 2)
           (NdArray [1%nat; 3%nat] [0; 0; 0]) _ _ 1%nat [4; 6; 2; 3]%Z).
  - exact example_is_grid.
  - reflexivity.
  - reflexivity.
  - reflexivity.
  - reflexivity.
  - reflexivity.
  - intros [| [| [| t]]] Ht; try lia; repeat constructor; cbn; lia.
  - intros [| [| [| t]]] Ht; try lia; repeat constructor; cbn; lia.
  - intros [| [| [| t]]] Ht; try lia; repeat constructor.
Defined.

Lemma getitem_scaled_position_witness :
  exists (r : ref) (data : list Q),
    (LazyMeshGrid_getitem 11%nat example_indices example_grid_world).1 = Ok r
    /\ heap (LazyMeshGrid_getitem 11%nat example_indices example_grid_world).2 !! r
       = Some (FloatArray (NdArray [2%nat; 3%nat] data))
    /\ forall n, (n < 2)%nat ->
         let '(i, j, k) := column example_indices n in
         let '(la, lb, lc) := cell_lengths example_cell in
         let fa := inject_Z i * (1 # 2) / la in
         let fb := inject_Z j * (1 # 2) / lb in
         let fc := inject_Z k * (1 # 2) / lc in
         vec3_eq (row3 data n)
                 (vec3_add (0, 0, 0) (vec3_matmul (fa, fb, fc) (cell_rows example_cell))).
Proof.
  refine (getitem_scaled_position example_world example_grid_world 0%nat example_cell
            (1 # 2) None (0, 0, 0) 11%nat _ _ _
            example_grid_world example_indices 2%nat 4%Z 6%Z 2%Z _ _ _ _ _ _ _).
  - reflexivity.
  - reflexivity.
  - vm_compute. reflexivity.
  - split; [reflexivity | exists []; reflexivity].
  - reflexivity.
  - reflexivity.
  - reflexivity.
  - repeat constructor; lia.
  - repeat constructor; lia.
  - repeat constructor; lia.
Defined.

Lemma getitem_origin_length_witness :
  exists (self : ref) (w1 : world),
    LazyMeshGrid_init 0%nat (1 # 2) (Some 1%nat) example_origin_world = (Ok self, w1)
    /\ forall (w2 : world) (indices : ndarray Z) (N : nat) (sh : list Z),
         grows w1 w2 ->
         ndarray_ok indices ->
         arr_shape indices = [3%nat; N] ->
         grid_shape w2 self = Some sh ->
         in_bounds sh indices ->
         (LazyMeshGrid_getitem self indices w2).1 = Raise ValueError.
Proof.
  apply (getitem_origin_length example_origin_world 0%nat example_cell (1 # 2)
           (Some 1%nat) 2%nat [0; 0]).
  - reflexivity.
  - reflexivity.
  - vm_compute. discriminate.
Defined.

Lemma getitem_returns_new_array_witness :
  heap example_grid_world !! 17%nat = None
  /\ is_Some (heap example_later_world !! 17%nat).
Proof.
  apply (getitem_returns_new_array example_grid_world example_later_world 11%nat
           example_indices 17%nat).
  vm_compute. reflexivity.
Defined.

Lemma example_flat_is_grid :
  is_grid (heap example_flat_grid_world) 11%nat example_flat_cell (1 # 2)
          (NdArray [1%nat; 3%nat] [0; 0; 0]).
Proof.
  exists (mkLazyMeshGrid 0%nat 7%nat 8%nat 10%nat), 2%nat, 4%nat, 6%nat,
         (FloatArray (NdArray [1%nat; 3%nat] [0; 0; 0])).
  vm_compute. repeat split.
Defined.

Lemma getitem_empty_indices_witness :
  exists r : ref,
    (LazyMeshGrid_getitem 11%nat (NdArray [3%nat; 0%nat] []) example_flat_grid_world).1
    = Ok r
    /\ heap (LazyMeshGrid_getitem 11%nat (NdArray [3%nat; 0%nat] [])
                                  example_flat_grid_world).2 !! r
       = Some (FloatArray (NdArray [0%nat; 3%nat] [])).
Proof.
  apply (getitem_empty_indices example_flat_grid_world 11%nat example_flat_cell
           (1 # 2) [0; 0; 0]).
  exact example_flat_is_grid.
Defined.

Lemma load_molecule_result_witness :
  molecule_ok example_molecule_world example_molecule
              (atoms_cell (md_atoms example_molecule)) (1 # 2) [0; 0; 0]
              (NdArray [3%nat] [0; 0; 0])
  /\ grows (World [] []) example_molecule_world
  /\ heap (World [] []) !! md_origin example_molecule = None
  /\ heap (World [] []) !! md_grid_position example_molecule = None
  /\ md_origin example_molecule <> md_grid_position example_molecule
  /\ exists atoms,
       example_read "water.xyz" = Ok atoms
       /\ positions (md_atoms example_molecule) = positions (example_center 1 atoms)
       /\ positions_extent (positions atoms) = Ok (md_diff example_molecule)
       /\ forall p q, In p (positions atoms) -> In q (positions atoms) ->
            p.1.1 - q.1.1 <= (md_diff example_molecule).1.1
            /\ p.1.2 - q.1.2 <= (md_diff example_molecule).1.2
            /\ p.2 - q.2 <= (md_diff example_molecule).2.
Proof.
  apply (load_molecule_result example_read example_center example_angles
           example_cellpar_to_cell "water.xyz" 1 (1 # 2) (World [] [])).
  vm_compute. reflexivity.
Defined.

Lemma load_molecule_negative_step_witness :
  grid_shape example_negative_run.2 (md_grid_position example_negative_molecule)
  = Some [0; 0; 0; 3]%Z
  /\ forall (indices : ndarray Z) (N : nat),
       ndarray_ok indices ->
       arr_shape indices = [3%nat; N] ->
       (0 < N)%nat ->
       (LazyMeshGrid_getitem (md_grid_position example_negative_molecule) indices
                             example_negative_run.2).1
       = Raise IndexError.
Proof.
  refine (load_molecule_negative_step example_read example_center example_angles
            example_cellpar_to_cell example_center_Cell_ok example_cellpar_lengths
            "water.xyz" 1 (- (1 # 2)) (World [] [])
            example_negative_run.2 example_negative_molecule _ _).
  - reflexivity.
  - vm_compute. reflexivity.
Defined.

Lemma dataset_names_witness :
  getitem_last (split "/" ("./dimers" ++ "/" ++ "water_080" ++ ".xyz")%string)
  = Ok ("water_080" ++ ".xyz")%string
  /\ replace ".xyz" "" ("water_080" ++ ".xyz")%string = "water_080"%string.
Proof.
  apply (dataset_names "./dimers" "water_080").
  - vm_compute. intros H. repeat (destruct H as [H | H]; [discriminate |]). exact H.
  - intros a b E.
    do 9 (destruct a as [| ? a]; [vm_compute in E; discriminate |];
          rewrite string_app_cons in E; injection E as _ E).
    destruct a; vm_compute in E; discriminate.
Defined.

Lemma embed_loop_is_filter_map_witness :
  [["C"; "O"; "H"]; ["C"; "C"; "N"; "H"]; ["C"; "S"; "H"]]%string
  = [] ++ omap (embedded (fun m : list string => length m)
                         (fun m => m ++ ["H"]%string) (fun m => m) (fun m => Ok m))
               example_smiles.
Proof.
  apply (embed_loop_is_filter_map (fun m : list string => m) (fun m => length m)
           (fun m => m ++ ["H"]%string) (fun m => m) (fun m => Ok m)).
  vm_compute. reflexivity.
Defined.

Lemma embed_loop_fails_on_unparsable_line_witness :
  (In None [Some ["C"; "O"]%string; None] ->
   embed_loop (fun m : list string => m) (fun m => length m)
              (fun m => m ++ ["H"]%string) (fun m => m) (fun m => Ok m)
              [Some ["C"; "O"]%string; None] []
   = Raise AttributeError)
  /\ (~ In None [Some ["C"; "O"]%string; None] ->
      exists out,
        embed_loop (fun m : list string => m) (fun m => length m)
                   (fun m => m ++ ["H"]%string) (fun m => m) (fun m => Ok m)
                   [Some ["C"; "O"]%string; None] []
        = Ok out).
Proof.
  apply (embed_loop_fails_on_unparsable_line (fun m : list string => m)
           (fun m => length m) (fun m => m ++ ["H"]%string) (fun m => m)
           (fun m => Ok m)).
  intros u e H. discriminate.
Defined.

Lemma process_arbitrary_coordinates_counts_witness :
  let r := NdArray [2%nat; 3%nat] [0; 0; 0; 1; 1; 1] in
  let edges := (example_probes_to_graph example_atoms r 4).1 in
  let feats := (example_probes_to_graph example_atoms r 4).2 in
  (edges = [] \/ feats = [] ->
   process_arbitrary_coordinates example_probes_to_graph example_atoms r 4
   = Raise ValueError)
  /\ (forall d,
         process_arbitrary_coordinates example_probes_to_graph example_atoms r 4 = Ok d ->
         pd_num_probe_edges d = sum_list (map (fun e => hd 0%nat (arr_shape e)) edges)
         /\ hd_error (arr_shape (pd_probe_edges d)) = Some (pd_num_probe_edges d)
         /\ arr_data (pd_probe_edges d) = concat (map arr_data edges)
         /\ (exists tl, arr_shape (pd_probe_edges_features d)
                        = sum_list (map (fun f => hd 0%nat (arr_shape f)) feats)
                          :: 1%nat :: tl)
         /\ hd_error (arr_shape r) = Some (pd_num_probes d)
         /\ (Forall ndarray_ok edges -> ndarray_ok (pd_probe_edges d))
         /\ (Forall ndarray_ok feats -> ndarray_ok (pd_probe_edges_features d))
         /\ (Forall2 (fun e f => hd 0%nat (arr_shape e) = hd 0%nat (arr_shape f))
                     edges feats ->
             hd_error (arr_shape (pd_probe_edges_features d))
             = Some (pd_num_probe_edges d))).
Proof.
  apply (process_arbitrary_coordinates_counts example_probes_to_graph example_atoms
           (NdArray [2%nat; 3%nat] [0; 0; 0; 1; 1; 1]) 4).
  reflexivity.
Defined.

(** The dictionary for the example probe graph: three edges, two
    probes. *)
Example example_probe_dict :
  process_arbitrary_coordinates example_probes_to_graph example_atoms
    (NdArray [2%nat; 3%nat] [0; 0; 0; 1; 1; 1]) 4
  = Ok (mkProbeDict (NdArray [3%nat; 2%nat] [0; 1; 1; 0; 2; 0]%Z)
                    (NdArray [3%nat; 1%nat] [1; 1; 3 # 2]) 3 2).
Proof. reflexivity. Qed.

Lemma d_charge_is_relative_to_minimum_witness :
  (exists d, d_charge example_aim_rows
               (mkAimRow (mkMolRow 1 "C" (0, 0, 0) "C1") (Some (1 # 2)) 0)
             = Some d /\ 0 <= d)
  /\ exists r' d',
       r' ∈ example_aim_rows
       /\ mr_id (ar_mol r') = "C1"%string
       /\ d_charge example_aim_rows r' = Some d' /\ d' == 0.
Proof.
  apply (d_charge_is_relative_to_minimum example_aim_rows
           (mkAimRow (mkMolRow 1 "C" (0, 0, 0) "C1") (Some (1 # 2)) 0)).
  vm_compute. repeat constructor.
Defined.

Lemma aim_analysis_rows_witness :
  (["b.charge"; "a.charge"]%string = [] ->
   aim_analysis example_read_charges (mol_table example_parsed)
                ["b.charge"; "a.charge"]%string
   = Raise ValueError)
  /\ (["b.charge"; "a.charge"]%string <> [] ->
      exists names rows,
        aim_analysis example_read_charges (mol_table example_parsed)
                     ["b.charge"; "a.charge"]%string
        = Ok (names, rows)
        /\ map fst names = seq 0 (length ["b.charge"; "a.charge"]%string)
        /\ map snd names ≡ₚ ["b.charge"; "a.charge"]%string
        /\ Sorted String.le (map snd names)
        /\ length rows = (length ["b.charge"; "a.charge"]%string * length example_parsed)%nat
        /\ NoDup (map (fun r => (mr_id (ar_mol r), ar_scale r)) rows)
        /\ forall r, r ∈ rows ->
             exists name,
               names !! ar_scale r = Some (ar_scale r, name)
               /\ ar_mol r ∈ mol_table example_parsed
               /\ ar_charge r = example_read_charges name !! mr_index (ar_mol r)).
Proof.
  apply (aim_analysis_rows example_read_charges example_parsed
           ["b.charge"; "a.charge"]%string).
  repeat constructor.
Defined.

(** The names the two loops give a molecule, and the number in a file
    name. *)
Example example_names :
  getitem_last (split "/" "./xyz_rotated/sugbench_000016.xyz")
  = Ok "sugbench_000016.xyz"%string
  /\ replace ".xyz" "" "imidazolium--acetone_080.xyz" = "imidazolium--acetone_080"%string
  /\ format_06d 16 = "000016"%string
  /\ split "/" "/a/" = [""; "a"; ""]%string.
Proof. repeat split. Qed.

(** [str.replace] takes the occurrences from the left and does not look
    at what it has replaced; an empty [old] matches between all
    characters. *)
Example example_replace :
  replace "aa" "b" "aaaaa" = "bba"%string
  /\ replace ".xyz" "" ".x.xyzyz" = ".xyz"%string
  /\ replace ".xyz" "" "a.xyz.b.xyzz" = "a.bz"%string
  /\ replace "" "-" "abc" = "-a-b-c-"%string.
Proof. repeat split. Qed.

(** The AIM table of the two atoms and the two charge files: the files
    are taken in sorted order, and the second atom has no charge in the
    second file. *)
Example example_aim_analysis :
  map (fun r => (mr_id (ar_mol r), ar_scale r, ar_charge r, d_charge example_aim_rows r))
      example_aim_rows
  = [("C1"%string, 0%nat, Some (1 # 2), Some ((1 # 2) - (1 # 3)));
     ("H2"%string, 0%nat, Some (1 # 4), Some ((1 # 4) - (1 # 4)));
     ("C1"%string, 1%nat, Some (1 # 3), Some ((1 # 3) - (1 # 3)));
     ("H2"%string, 1%nat, None, None)].
Proof. reflexivity. Qed.

(** A negative step leaves the cell of 3.5 x 2.5 x 2 as it is, and a grid
    without points. *)
Example example_negative_step :
  vec3_eq (cell_lengths (atoms_cell (md_atoms example_negative_molecule)))
          (7 # 2, 5 # 2, 2)
  /\ grid_shape example_negative_run.2 (md_grid_position example_negative_molecule)
     = Some [0; 0; 0; 3]%Z.
Proof. split; [vm_compute; repeat split; reflexivity | reflexivity]. Qed.
